(** * Event-study engine of caracas-signal: a shallow embedding

    The development follows the Python sources [models.py],
    [factor_model.py] and [spread_control.py], and the intraday spread
    and the caller of [forensics.py].  Conventions of the embedding:

    - a float64 is a value of [fnum]: an exact rational, one of the two
      infinities, or NaN.  Rounding, overflow and the sign of zero are
      not represented; a zero divisor behaves as [+0.0].  The arithmetic
      keeps fractions in lowest terms ([Qred]), which changes no value;
    - a timestamp is an integer number of minutes since the epoch, read
      in the session time zone; its calendar date is the number of whole
      days, [t / 1440];
    - a pandas [Series] is the list of its (label, value) rows, in order;
    - a Python exception is the [Raise] outcome of type [result]. *)

From Stdlib Require Import ZArith QArith Qabs List Bool Lia Lqa Permutation Sorted.
Import ListNotations.

Open Scope Q_scope.

(** ** Floating-point values *)

Module Float.

Inductive fnum : Type :=
| Fin (q : Q)
| PInf
| NInf
| NaN.

Definition Qzerob (q : Q) : bool := Qeq_bool q 0.
Definition Qltb (a b : Q) : bool := negb (Qle_bool b a).
Definition Qposb (q : Q) : bool := Qltb 0 q.
Definition Qnegb (q : Q) : bool := Qltb q 0.

Definition inf_of_sign (pos : bool) : fnum := if pos then PInf else NInf.

(** infinity of sign [pos] times the finite factor [a] *)
Definition scale_inf (pos : bool) (a : Q) : fnum :=
  if Qzerob a then NaN
  else if Qposb a then inf_of_sign pos
  else inf_of_sign (negb pos).

Definition fopp (x : fnum) : fnum :=
  match x with
  | Fin q => Fin (- q)
  | PInf => NInf
  | NInf => PInf
  | NaN => NaN
  end.

Definition fadd (x y : fnum) : fnum :=
  match x, y with
  | NaN, _ | _, NaN => NaN
  | Fin a, Fin b => Fin (Qred (a + b))
  | PInf, NInf | NInf, PInf => NaN
  | PInf, _ | _, PInf => PInf
  | NInf, _ | _, NInf => NInf
  end.

Definition fsub (x y : fnum) : fnum := fadd x (fopp y).

Definition fmul (x y : fnum) : fnum :=
  match x, y with
  | NaN, _ | _, NaN => NaN
  | Fin a, Fin b => Fin (Qred (a * b))
  | Fin a, PInf | PInf, Fin a => scale_inf true a
  | Fin a, NInf | NInf, Fin a => scale_inf false a
  | PInf, PInf | NInf, NInf => PInf
  | PInf, NInf | NInf, PInf => NInf
  end.

Definition fdiv (x y : fnum) : fnum :=
  match x, y with
  | NaN, _ | _, NaN => NaN
  | Fin a, Fin b =>
      if Qzerob b then
        (if Qzerob a then NaN else inf_of_sign (Qposb a))
      else Fin (Qred (a / b))
  | Fin _, _ => Fin 0
  | PInf, Fin b => inf_of_sign (negb (Qnegb b))
  | NInf, Fin b => inf_of_sign (Qnegb b)
  | _, _ => NaN
  end.

Definition fabs (x : fnum) : fnum :=
  match x with
  | Fin q => Fin (Qabs q)
  | PInf | NInf => PInf
  | NaN => NaN
  end.

(** [x < y]; every comparison with NaN is false *)
Definition fltb (x y : fnum) : bool :=
  match x, y with
  | NaN, _ | _, NaN => false
  | Fin a, Fin b => Qltb a b
  | _, NInf => false
  | NInf, _ => true
  | PInf, _ => false
  | _, PInf => true
  end.

Definition fgtb (x y : fnum) : bool := fltb y x.

(** the [==] of the language: NaN differs from everything, itself included *)
Definition feq_ieee (x y : fnum) : bool :=
  match x, y with
  | Fin a, Fin b => Qeq_bool a b
  | PInf, PInf | NInf, NInf => true
  | _, _ => false
  end.

Definition isnan (x : fnum) : bool :=
  match x with NaN => true | _ => false end.

Definition is_finite (x : fnum) : bool :=
  match x with Fin _ => true | _ => false end.

(** Sameness of two values of the model (NaN is the same as NaN, two
    fractions are the same when they denote the same rational). *)
Definition feqb (x y : fnum) : bool :=
  match x, y with
  | Fin a, Fin b => Qeq_bool a b
  | PInf, PInf | NInf, NInf | NaN, NaN => true
  | _, _ => false
  end.

Definition feq (x y : fnum) : Prop := feqb x y = true.

Definition of_nat (n : nat) : fnum := Fin (inject_Z (Z.of_nat n)).

Section Sqrt.
(** [np.sqrt] on finite non-negative values is a function of the
    platform; the embedding takes it as [sqrtQ]. *)
Variable sqrtQ : Q -> Q.

Definition fsqrt (x : fnum) : fnum :=
  match x with
  | Fin q => if Qnegb q then NaN else Fin (sqrtQ q)
  | PInf => PInf
  | NInf | NaN => NaN
  end.
End Sqrt.

End Float.

Export Float.

Declare Scope fnum_scope.
Delimit Scope fnum_scope with F.
Infix "+" := fadd : fnum_scope.
Infix "-" := fsub : fnum_scope.
Infix "*" := fmul : fnum_scope.
Infix "/" := fdiv : fnum_scope.
Infix "≈" := feq (at level 70, no associativity).

(** ** Exceptions *)

Inductive exn : Type :=
| IndexError
| ValueError
| FileNotFoundError.

Inductive result (A : Type) : Type :=
| Ok (a : A)
| Raise (e : exn).

Arguments Ok {A} a.
Arguments Raise {A} e.

Definition bind {A B : Type} (r : result A) (k : A -> result B) : result B :=
  match r with
  | Ok a => k a
  | Raise e => Raise e
  end.

Notation "'let*' x ':=' r 'in' k" := (bind r (fun x => k))
  (at level 10, x pattern, r at level 100, k at level 200).

(** ** The pandas operations the sources use *)

Module Pandas.

(** a timestamp: minutes since the epoch *)
Abbreviation timestamp := Z (only parsing).

Definition series : Type := list (timestamp * fnum).

(** a DataFrame of price bars, reduced to its [Close] column *)
Definition frame : Type := list (timestamp * Q).

Definition index {A : Type} (s : list (timestamp * A)) : list timestamp :=
  map fst s.

Definition values {A : Type} (s : list (timestamp * A)) : list A :=
  map snd s.

(** [t.date()] *)
Definition date (t : timestamp) : Z := (t / 1440)%Z.

Definition mem (t : timestamp) (l : list timestamp) : bool :=
  existsb (Z.eqb t) l.

(** [Index.unique()]: first occurrences, in order *)
Fixpoint unique (l : list timestamp) : list timestamp :=
  match l with
  | [] => []
  | t :: l' => t :: filter (fun u => negb (Z.eqb u t)) (unique l')
  end.

(** [a.intersection(b)]: the labels of [a] that [b] has too, once each *)
Definition intersection (a b : list timestamp) : list timestamp :=
  unique (filter (fun t => mem t b) a).

(** [s.loc[idx]] for a list of labels that are all present: the rows of
    each label, in the order of [idx] *)
Definition loc {A : Type} (s : list (timestamp * A)) (idx : list timestamp)
  : list (timestamp * A) :=
  flat_map (fun t => filter (fun r => Z.eqb (fst r) t) s) idx.

(** rows kept by a boolean mask of the right length *)
Fixpoint select {A : Type} (s : list A) (mask : list bool) : list A :=
  match s, mask with
  | x :: s', b :: mask' => if b then x :: select s' mask' else select s' mask'
  | _, _ => []
  end.

(** [s[mask]] with a boolean array: pandas refuses a mask whose length
    is not the length of the series *)
Definition getitem_mask {A : Type} (s : list A) (mask : list bool)
  : result (list A) :=
  if Nat.eqb (length mask) (length s) then Ok (select s mask)
  else Raise IndexError.

(** [s.iloc[0]] and [s.iloc[-1]] *)
Definition iloc_first {A : Type} (s : list A) : result A :=
  match s with
  | [] => Raise IndexError
  | x :: _ => Ok x
  end.

Fixpoint iloc_last {A : Type} (s : list A) : result A :=
  match s with
  | [] => Raise IndexError
  | [x] => Ok x
  | _ :: s' => iloc_last s'
  end.

(** [close.pct_change()]: NaN on the first row, then
    [close[i] / close[i-1] - 1] *)
Fixpoint pct_change_from (prev : Q) (s : list (timestamp * Q)) : series :=
  match s with
  | [] => []
  | (t, c) :: s' => (t, (Fin c / Fin prev - Fin 1)%F) :: pct_change_from c s'
  end.

Definition pct_change (s : list (timestamp * Q)) : series :=
  match s with
  | [] => []
  | (t, c) :: s' => (t, NaN) :: pct_change_from c s'
  end.

(** [s.dropna()] *)
Definition dropna (s : series) : series :=
  filter (fun r => negb (isnan (snd r))) s.

End Pandas.

Export Pandas.

(** [close.pct_change().dropna()], the return series of a price series *)
Definition returns (close : list (timestamp * Q)) : series :=
  dropna (pct_change close).

(** ** Statistics of numpy, pandas and scipy *)

Module Stats.

Definition fsum (l : list fnum) : fnum := fold_left fadd l (Fin 0).

Definition fsquare (x : fnum) : fnum := (x * x)%F.

(** [np.mean]: no value is skipped; the mean of nothing is NaN *)
Definition np_mean (l : list fnum) : fnum := (fsum l / of_nat (length l))%F.

Definition notna (l : list fnum) : list fnum :=
  filter (fun x => negb (isnan x)) l.

(** [Series.mean()], NaN skipped *)
Definition mean (s : series) : fnum := np_mean (notna (values s)).

(** [np.amax] and [np.amin]: a NaN wins *)
Definition fmax2 (x y : fnum) : fnum :=
  if isnan x || isnan y then NaN else if fltb x y then y else x.

Definition fmin2 (x y : fnum) : fnum :=
  if isnan x || isnan y then NaN else if fltb y x then y else x.

Definition amax (l : list fnum) : fnum :=
  match l with [] => NaN | x :: l' => fold_left fmax2 l' x end.

Definition amin (l : list fnum) : fnum :=
  match l with [] => NaN | x :: l' => fold_left fmin2 l' x end.

Fixpoint map2 {A B C : Type} (f : A -> B -> C) (l : list A) (m : list B)
  : list C :=
  match l, m with
  | a :: l', b :: m' => f a b :: map2 f l' m'
  | _, _ => []
  end.

(** The slope of [scipy.stats.linregress(x, y)]: the biased covariance
    of [x] and [y] over the biased variance of [x].  The library raises
    [ValueError] on empty input, on inputs of different lengths and when
    all values of [x] are identical. *)
Definition linregress_slope (x y : list fnum) : result fnum :=
  if Nat.eqb (length x) 0 || Nat.eqb (length y) 0 then Raise ValueError
  else if feq_ieee (amax x) (amin x) && Nat.ltb 1 (length x)
  then Raise ValueError
  else if negb (Nat.eqb (length x) (length y)) then Raise ValueError
  else
    let xmean := np_mean x in
    let ymean := np_mean y in
    let ssxm := np_mean (map (fun xi => fsquare (xi - xmean)%F) x) in
    let ssxym :=
      np_mean (map2 (fun xi yi => ((xi - xmean) * (yi - ymean))%F) x y) in
    Ok (ssxym / ssxm)%F.

Section Std.
Variable sqrtQ : Q -> Q.

(** [Series.std()]: NaN skipped, one degree of freedom taken; fewer
    than two values left give NaN *)
Definition std (s : series) : fnum :=
  let xs := notna (values s) in
  let n := length xs in
  if Nat.ltb n 2 then NaN
  else
    let avg := (fsum xs / of_nat n)%F in
    fsqrt sqrtQ
      (fsum (map (fun x => fsquare (avg - x)%F) xs) / of_nat (n - 1))%F.
End Std.

(** [k * s] for a scalar [k] *)
Definition scale (k : fnum) (s : series) : series :=
  map (fun r => (fst r, (k * snd r)%F)) s.

(** [1 + s] and [s - 1] for a series [s] *)
Definition add_scalar (k : fnum) (s : series) : series :=
  map (fun r => (fst r, (k + snd r)%F)) s.

Definition sub_scalar (s : series) (k : fnum) : series :=
  map (fun r => (fst r, (snd r - k)%F)) s.

Definition index_eqb (a b : list timestamp) : bool :=
  Nat.eqb (length a) (length b) && forallb (fun p => Z.eqb (fst p) (snd p)) (combine a b).

Fixpoint insert_sorted (t : timestamp) (l : list timestamp) : list timestamp :=
  match l with
  | [] => [t]
  | u :: l' => if (t <=? u)%Z then t :: l else u :: insert_sorted t l'
  end.

Definition sort (l : list timestamp) : list timestamp :=
  fold_right insert_sorted [] l.

(** the values a series has under one label, or a single NaN *)
Definition lookup_all (t : timestamp) (s : series) : list fnum :=
  match values (filter (fun r => Z.eqb (fst r) t) s) with
  | [] => [NaN]
  | vs => vs
  end.

(** [a - b] for two series.  With equal indexes the rows are subtracted
    in place; otherwise both sides are aligned on the sorted union of the
    labels, a label missing on one side giving NaN and a repeated label
    giving every pairing of its rows. *)
Definition series_sub (a b : series) : series :=
  if index_eqb (index a) (index b) then
    map2 (fun ra rb => (fst ra, (snd ra - snd rb)%F)) a b
  else
    flat_map
      (fun t =>
         flat_map (fun x => map (fun y => (t, (x - y)%F)) (lookup_all t b))
                  (lookup_all t a))
      (sort (unique (index a ++ index b))).

End Stats.

Export Stats.

(** ** models.py *)

Module Models.

(** [pd.Timestamp("2026-01-02").date()] *)
Definition event_date : Z := 20455.

(** [calculate_beta(asset_returns, market_returns)] *)
Definition calculate_beta (asset_returns market_returns : series)
  : result fnum :=
  let common_idx := intersection (index asset_returns) (index market_returns) in
  if Nat.ltb (length common_idx) 30 then Ok NaN
  else
    let y := loc asset_returns common_idx in
    let x := loc market_returns common_idx in
    linregress_slope (values x) (values y).

Record beta_result : Type := {
  beta : fnum;
  event_return : fnum;
  expected_return : fnum;
  abnormal_return : fnum;
  z_score : fnum
}.

(** [except IndexError: return None] around a block whose own
    [return None] is the value [None] *)
Definition except_IndexError {A : Type} (r : result (option A))
  : result (option A) :=
  match r with
  | Raise IndexError => Ok None
  | _ => r
  end.

(** the body of the [try] of [run_beta_analysis], lines 84-100 *)
Definition event_day_returns (target_rets market_rets : series)
  : result (option (fnum * fnum)) :=
  let event_mask := map (fun t => Z.eqb (date t) event_date) (index target_rets) in
  if negb (existsb (fun b => b) event_mask) then
    (* the log line reads index[0] and index[-1] *)
    let* _ := iloc_first (index target_rets) in
    let* _ := iloc_last (index target_rets) in
    Ok None
  else
    let* target_sel := getitem_mask target_rets event_mask in
    let* target_event := iloc_first target_sel in
    let market_mask :=
      map (fun t => Z.eqb (date t) event_date) (index market_rets) in
    if negb (existsb (fun b => b) market_mask) then Ok None
    else
      let* market_sel := getitem_mask market_rets market_mask in
      let* market_event := iloc_first market_sel in
      Ok (Some (snd target_event, snd market_event)).

Section Analysis.
Variable sqrtQ : Q -> Q.

(** [calculate_z_score(return_val, history)] *)
Definition calculate_z_score (return_val : fnum) (history : series) : fnum :=
  let mu := mean history in
  let sigma := std sqrtQ history in
  if feq_ieee sigma (Fin 0) then NaN
  else ((return_val - mu) / sigma)%F.

(** [run_beta_analysis(target_ticker, market_ticker)].  The two
    arguments are what [load_daily_data] finds for the two tickers,
    [None] when it raises [FileNotFoundError]; the ticker names that
    the result echoes are left out. *)
Definition run_beta_analysis (target_df market_df : option frame)
  : result (option beta_result) :=
  match target_df, market_df with
  | Some target_close, Some market_close =>
      let target_rets := returns target_close in
      let market_rets := returns market_close in
      let history_mask :=
        map (fun t => Z.ltb (date t) event_date) (index target_rets) in
      let* target_hist := getitem_mask target_rets history_mask in
      let* market_hist := getitem_mask market_rets history_mask in
      let* beta := calculate_beta target_hist market_hist in
      let* ev := except_IndexError (event_day_returns target_rets market_rets) in
      match ev with
      | None => Ok None
      | Some (target_event_ret, market_event_ret) =>
          let expected_ret := (beta * market_event_ret)%F in
          let abnormal_ret := (target_event_ret - expected_ret)%F in
          let residuals := series_sub target_hist (scale beta market_hist) in
          let residual_std := std sqrtQ residuals in
          let z_score := (abnormal_ret / residual_std)%F in
          Ok (Some {| beta := beta;
                      event_return := target_event_ret;
                      expected_return := expected_ret;
                      abnormal_return := abnormal_ret;
                      z_score := z_score |})
      end
  | _, _ => Ok None
  end.
End Analysis.

(** forensics.py, line 283: [abs(res['z_score']) > 1.96] *)
Definition significant (res : beta_result) : bool :=
  fgtb (fabs (z_score res)) (Fin (196 # 100)).

End Models.

(** ** The intraday loader shared by factor_model.py and spread_control.py *)

Module Loader.

(** [df[~df.index.duplicated(keep='first')]] *)
Fixpoint drop_duplicated (s : frame) : frame :=
  match s with
  | [] => []
  | r :: s' =>
      r :: filter (fun u => negb (Z.eqb (fst u) (fst r))) (drop_duplicated s')
  end.

Fixpoint insert_row (r : timestamp * Q) (s : frame) : frame :=
  match s with
  | [] => [r]
  | u :: s' => if (fst r <=? fst u)%Z then r :: s else u :: insert_row r s'
  end.

(** [df.sort_index()] *)
Definition sort_index (s : frame) : frame := fold_right insert_row [] s.

Definition minute_of_day (t : timestamp) : Z := (t mod 1440)%Z.

(** [df.between_time("09:30", "16:00")], both ends included *)
Definition between_time (lo hi : Z) (s : frame) : frame :=
  filter (fun r => (lo <=? minute_of_day (fst r))%Z
                   && (minute_of_day (fst r) <=? hi)%Z) s.

Definition rth_open : Z := 570.
Definition rth_close : Z := 960.

(** What [load_5m_data] does to the concatenation [raw] of the files of
    one ticker, when there is any row: duplicates dropped, rows sorted,
    regular trading hours kept. *)
Definition normalize (raw : frame) : frame :=
  between_time rth_open rth_close (sort_index (drop_duplicated raw)).

(** factor_model.py: an empty concatenation raises.  [if date_filter:]
    tests the truth of the argument: [None] and the empty list both leave
    the frame unfiltered. *)
Definition load_5m_data (raw : frame) (date_filter : option (list Z))
  : result frame :=
  match raw with
  | [] => Raise FileNotFoundError
  | _ =>
      let df := normalize raw in
      match date_filter with
      | Some (d :: dates) =>
          Ok (filter (fun r => mem (date (fst r)) (d :: dates)) df)
      | Some [] | None => Ok df
      end
  end.

(** spread_control.py: an empty concatenation gives [None] *)
Definition load_5m_data_opt (raw : frame) : option frame :=
  match raw with
  | [] => None
  | _ => Some (normalize raw)
  end.

(** the alignment of two and of three frames on their common labels *)
Definition align2 (a b : frame) : frame * frame :=
  let common_idx := intersection (index a) (index b) in
  (loc a common_idx, loc b common_idx).

Definition align3 (a b c : frame) : frame * frame * frame :=
  let common_idx :=
    intersection (intersection (index a) (index b)) (index c) in
  (loc a common_idx, loc b common_idx, loc c common_idx).

End Loader.

(** ** factor_model.py *)

Module FactorModel.

Import Loader.

(** [(1 + residuals).cumprod() - 1].  The running product skips a NaN
    row and leaves NaN in its place. *)
Fixpoint cumprod_from (acc : fnum) (s : series) : series :=
  match s with
  | [] => []
  | (t, v) :: s' =>
      if isnan v then (t, NaN) :: cumprod_from acc s'
      else (t, (acc * v)%F) :: cumprod_from (acc * v)%F s'
  end.

Definition cumprod (s : series) : series := cumprod_from (Fin 1) s.

Definition cum_residuals (residuals : series) : series :=
  sub_scalar (cumprod (add_scalar (Fin 1) residuals)) (Fin 1).

(** the part of a fitted [statsmodels] OLS model that the script reads *)
Record ols_fit : Type := {
  const : fnum;
  beta_spy : fnum;
  beta_oil : fnum;
  resid : series;
  rsquared : fnum
}.

(** a frame of two columns built from two series, [pd.DataFrame({...})] *)
Definition columns2 (a b : series) : list (timestamp * (fnum * fnum)) :=
  if index_eqb (index a) (index b) then
    map2 (fun ra rb => (fst ra, (snd ra, snd rb))) a b
  else
    flat_map
      (fun t =>
         flat_map (fun x => map (fun y => (t, (x, y))) (lookup_all t b))
                  (lookup_all t a))
      (sort (unique (index a ++ index b))).

(** [model.predict(X_test)] with the constant column added *)
Definition predict (m : ols_fit) (X : list (timestamp * (fnum * fnum)))
  : series :=
  map (fun r => (fst r,
                 (const m + beta_spy m * fst (snd r)
                  + beta_oil m * snd (snd r))%F)) X.

(** [pd.Timestamp("2026-01-01")] and the leak time
    [pd.Timestamp("2026-01-02 14:55:00")] *)
Definition train_end : timestamp := (20454 * 1440)%Z.
Definition test_date : Z := 20455.
Definition leak_start : timestamp := (20455 * 1440 + 895)%Z.

(** lines 131-139: the sub-window after [leak_start] *)
Record leak_report : Type := {
  car_at_leak : fnum;
  car_at_close : fnum;
  surge : fnum;
  unexplained : bool
}.

Definition leak_window (t_star : timestamp) (cum : series)
  : result (option leak_report) :=
  let post_leak := filter (fun r => (t_star <=? fst r)%Z) cum in
  match post_leak with
  | [] => Ok None
  | _ =>
      let* pre := iloc_last (filter (fun r => (fst r <? t_star)%Z) cum) in
      let* close := iloc_last cum in
      let diff := (snd close - snd pre)%F in
      Ok (Some {| car_at_leak := snd pre;
                  car_at_close := snd close;
                  surge := diff;
                  unexplained := fgtb diff (Fin (1 # 100)) |})
  end.

Record event_report : Type := {
  fit : ols_fit;
  resid_std : fnum;
  total_car : fnum;
  car_std : fnum;
  z_score_car : fnum;
  (** what the last block printed, or the exception it stopped on *)
  leak : result (option leak_report)
}.

(** What one run prints. *)
Inductive outcome : Type :=
| Error (e : exn)            (* "Error: ..." from the handler *)
| InsufficientTraining       (* "Error: Insufficient training data." *)
| Printed (r : event_report).

Definition of_result (r : result outcome) : outcome :=
  match r with
  | Ok o => o
  | Raise e => Error e
  end.

Section Run.
Variable sqrtQ : Q -> Q.
(** [sm.OLS(Y, add_constant(X)).fit()] of the library, on the target
    and the two factor columns *)
Variable ols : series -> series -> series -> result ols_fit.

(** lines 98-139, from the fitted model on *)
Definition event_window (model : ols_fit) (Y_test spy_test oil_test : series)
  : result event_report :=
  let train_residuals := resid model in
  let resid_std := std sqrtQ train_residuals in
  let X_test := columns2 spy_test oil_test in
  let predicted_xle := predict model X_test in
  let residuals := series_sub Y_test predicted_xle in
  let cum := cum_residuals residuals in
  let* last := iloc_last cum in
  let total_car := snd last in
  let n_bars := length residuals in
  let car_std := (fsqrt sqrtQ (of_nat n_bars) * resid_std)%F in
  let z_score_car := (total_car / car_std)%F in
  Ok {| fit := model;
        resid_std := resid_std;
        total_car := total_car;
        car_std := car_std;
        z_score_car := z_score_car;
        leak := leak_window leak_start cum |}.

(** [run_factor_model()]; the arguments are the concatenated files of
    XLE, SPY and CL=F *)
Definition run_factor_model (raw_xle raw_spy raw_oil : frame) : outcome :=
  of_result (
    let* xle := load_5m_data raw_xle None in
    let* spy := load_5m_data raw_spy None in
    let* oil := load_5m_data raw_oil None in
    let '(xle, spy, oil) := align3 xle spy oil in
    let xle_ret := returns xle in
    let spy_ret := returns spy in
    let oil_ret := returns oil in
    let train_mask := map (fun t => (t <? train_end)%Z) (index xle_ret) in
    let test_mask :=
      map (fun t => Z.eqb (date t) test_date) (index xle_ret) in
    let* spy_train := getitem_mask spy_ret train_mask in
    let* oil_train := getitem_mask oil_ret train_mask in
    let* Y_train := getitem_mask xle_ret train_mask in
    if Nat.ltb (length Y_train) 100 then Ok InsufficientTraining
    else
      let* model := ols Y_train spy_train oil_train in
      let* Y_test := getitem_mask xle_ret test_mask in
      let* spy_test := getitem_mask spy_ret test_mask in
      let* oil_test := getitem_mask oil_ret test_mask in
      let* r := event_window model Y_test spy_test oil_test in
      Ok (Printed r)).
End Run.

End FactorModel.

(** ** spread_control.py *)

Module SpreadControl.

Import Loader.

(** [df[mask]] on a DataFrame: a mask of the wrong length is a
    [ValueError] there *)
Definition getitem_mask_frame (s : frame) (mask : list bool) : result frame :=
  if Nat.eqb (length mask) (length s) then Ok (select s mask)
  else Raise ValueError.

Definition baseline_end : timestamp := (20454 * 1440)%Z.

(** [np.unique(df.index.date)] *)
Definition unique_dates (s : frame) : list Z :=
  sort (unique (map date (index s))).

(** [day / day.iloc[0]] *)
Definition div_scalar (s : frame) (k : Q) : series :=
  map (fun r => (fst r, (Fin (snd r) / Fin k)%F)) s.

(** [Series.max()], NaN skipped *)
Definition smax (s : series) : fnum :=
  match notna (values s) with
  | [] => NaN
  | x :: l => fold_left fmax2 l x
  end.

(** one turn of the loop over the baseline dates, up to the normalized
    spread of the day; [None] where the loop says [continue] *)
Definition day_spread (xle_base oil_base : frame) (d : Z)
  : result (option series) :=
  let xle_day := filter (fun r => Z.eqb (date (fst r)) d) xle_base in
  let oil_day := filter (fun r => Z.eqb (date (fst r)) d) oil_base in
  match xle_day, oil_day with
  | [], _ | _, [] => Ok None
  | _, _ =>
      let common := intersection (index xle_day) (index oil_day) in
      if Nat.ltb (length common) 30 then Ok None
      else
        let xle_day := loc xle_day common in
        let oil_day := loc oil_day common in
        let* x0 := iloc_first xle_day in
        let* o0 := iloc_first oil_day in
        let xle_norm := div_scalar xle_day (snd x0) in
        let oil_norm := div_scalar oil_day (snd o0) in
        let spread := series_sub xle_norm oil_norm in
        Ok (Some spread)
  end.

(** the statistic of the day, [spread.max()] *)
Definition day_max_spread (xle_base oil_base : frame) (d : Z)
  : result (option fnum) :=
  let* spread := day_spread xle_base oil_base d in
  Ok (option_map smax spread).

Fixpoint daily_loop (xle_base oil_base : frame) (dates : list Z)
  : result (list fnum) :=
  match dates with
  | [] => Ok []
  | d :: dates' =>
      let* m := day_max_spread xle_base oil_base d in
      let* rest := daily_loop xle_base oil_base dates' in
      Ok (match m with Some max_s => max_s :: rest | None => rest end)
  end.

Definition event_val : fnum := Fin (194 # 100).

(** [(sample < v).mean() * 100] *)
Definition percentile_rank (sample : list fnum) (v : fnum) : fnum :=
  (np_mean (map (fun x => if fltb x v then Fin 1 else Fin 0) sample)
   * Fin 100)%F.

Record placebo_report : Type := {
  daily_max_spreads : list fnum;
  percentile : fnum;
  spreads_mean : fnum;
  spreads_std : fnum
}.

(** lines 45-53: the two frames aligned and cut to the baseline, the
    rows before 2026-01-01 *)
Definition baseline_frames (xle oil : frame) : result (frame * frame) :=
  let '(xle, oil) := align2 xle oil in
  let baseline_mask := map (fun t => (t <? baseline_end)%Z) (index xle) in
  let* xle_base := getitem_mask_frame xle baseline_mask in
  let* oil_base := getitem_mask_frame oil baseline_mask in
  Ok (xle_base, oil_base).

Section Run.
Variable sqrtQ : Q -> Q.

(** [np.std]: no degree of freedom taken *)
Definition np_std (l : list fnum) : fnum :=
  let avg := np_mean l in
  fsqrt sqrtQ (np_mean (map (fun x => fsquare (fabs (x - avg)%F)) l)).

(** The part of [run_spread_placebo()] between the call that sets the
    plot style and the chart (lines 38-99): from the loading of the two
    tickers to the numbers it prints.  [None] is the early return on
    missing data. *)
Definition run_spread_placebo (raw_xle raw_oil : frame)
  : result (option placebo_report) :=
  match load_5m_data_opt raw_xle, load_5m_data_opt raw_oil with
  | Some xle, Some oil =>
      let* (xle_base, oil_base) := baseline_frames xle oil in
      let* maxes := daily_loop xle_base oil_base (unique_dates xle_base) in
      let spreads := map (fun m => (m * Fin 100)%F) maxes in
      Ok (Some {| daily_max_spreads := spreads;
                  percentile := percentile_rank spreads event_val;
                  spreads_mean := np_mean spreads;
                  spreads_std := np_std spreads |})
  | _, _ => Ok None
  end.

(** [run_spread_placebo()] as a whole.  The call of
    [plot_style.apply_plot_style()] (line 36) and the drawing and saving
    of the chart (lines 102-116) run code of other modules, which may
    raise: the embedding takes their outcomes as [apply_plot_style] and
    as [chart], a function of the sample that is drawn. *)
Variable apply_plot_style : result unit.
Variable chart : list fnum -> result unit.

End Run.

End SpreadControl.

(** ** A square root to run the functions with *)

(** The integer square root of the fraction scaled by [10^12], a
    rational within [10^-6] of the real square root. *)
Definition sqrt_approx (q : Q) : Q :=
  let n := Qnum q in
  let d := Z.pos (Qden q) in
  Qred (Z.sqrt (n * d * 1000000000000)
        # Pos.mul (Qden q) 1000000).

(** ** The compounded return of the specification *)

(** [Π (1 + r_i) − 1] over a list of rational returns. *)
Definition growth (rs : list Q) : Q := fold_right (fun r acc => (1 + r) * acc) 1 rs.

Definition compounded (rs : list Q) : Q := growth rs - 1.

(** The ReturnSeries of the data model: [return[i] = close[i] /
    close[i-1] - 1], the first bar dropped. *)
Fixpoint simple_returns_from (prev : Q) (s : list (timestamp * Q))
  : list (timestamp * Q) :=
  match s with
  | [] => []
  | (t, c) :: s' => (t, c / prev - 1) :: simple_returns_from c s'
  end.

Definition simple_returns (s : list (timestamp * Q)) : list (timestamp * Q) :=
  match s with
  | [] => []
  | (_, c) :: s' => simple_returns_from c s'
  end.

(** the PriceBar invariant [close > 0] *)
Definition positive_closes (s : list (timestamp * Q)) : Prop :=
  Forall (fun r => 0 < snd r) s.

(** a series of finite values *)
Definition fins (rs : list (timestamp * Q)) : series :=
  map (fun r => (fst r, Fin (snd r))) rs.

(** [s] holds the rationals [rs], row by row *)
Definition row_rep (x : timestamp * fnum) (r : timestamp * Q) : Prop :=
  fst x = fst r /\ snd x ≈ Fin (snd r).

Definition reps (s : series) (rs : list (timestamp * Q)) : Prop :=
  Forall2 row_rep s rs.

(** [cum_residuals.iloc[-1]] of factor_model.py, the CAR of a window of
    abnormal returns *)
Definition car (residuals : series) : result fnum :=
  let* last := iloc_last (FactorModel.cum_residuals residuals) in
  Ok (snd last).

(** ** Names for the masks of [run_beta_analysis] *)

Import Models.

(** the row of the event date, [s[s.index.date == event_date].iloc[0]] *)
Definition on_event_date (r : timestamp * fnum) : bool :=
  Z.eqb (date (fst r)) event_date.

(** the history rows, [rets[rets.index.date < event_date]] *)
Definition before_event (t : timestamp) : bool := Z.ltb (date t) event_date.

Definition history_mask (target_rets : series) : list bool :=
  map before_event (index target_rets).

(** the training rows of [run_factor_model], [Y_train]: the returns of
    the aligned XLE frame stamped before 2026-01-01 *)
Definition training_rows (raw_xle raw_spy raw_oil : list (timestamp * Q))
  : series :=
  let '(xle, _, _) :=
    Loader.align3 (Loader.normalize raw_xle) (Loader.normalize raw_spy)
                  (Loader.normalize raw_oil) in
  filter (fun r => (fst r <? FactorModel.train_end)%Z) (returns xle).

(** ** The sub-window CAR of the specification *)

(** A five-minute bar carries the time at which it opens (forensics.py,
    line 342: the bar that ends at 16:00 is stamped 15:55), and the return
    stamped [t] is the move from the close of the bar before to the close
    of the bar stamped [t]: it is movement after the instant [t]. *)



(** a finite value that is not negative *)
Definition nonnegative (v : fnum) : Prop := exists m, v = Fin m /\ 0 <= m.

(** ** The strictly-less rank of the specification *)

(** the number of sample values strictly less than [v], and equal to [v] *)
Definition count_below (xs : list Q) (v : Q) : nat :=
  length (filter (fun x => Qltb x v) xs).

Definition count_equal (xs : list Q) (v : Q) : nat :=
  length (filter (fun x => Qeq_bool x v) xs).

Definition Qnat (n : nat) : Q := inject_Z (Z.of_nat n).

Definition Qsum (qs : list Q) : Q := fold_right Qplus 0 qs.

(** ** Sample data *)

(** daily bars on consecutive days from day [d] on *)
Fixpoint bars (d : Z) (cs : list Q) : list (timestamp * Q) :=
  match cs with
  | [] => []
  | c :: cs' => ((d * 1440)%Z, c) :: bars (d + 1)%Z cs'
  end.

(** [n] repetitions of a pattern of closes *)
Definition cyc (p : list Q) (n : nat) : list Q :=
  flat_map (fun _ => p) (seq 0 n).

(** 36 days of history and the event day, 2026-01-02 *)
Definition sample_market : list (timestamp * Q) :=
  bars (20455 - 36) (cyc [2 # 1; 3 # 1] 18 ++ [4 # 1]).

Definition sample_target : list (timestamp * Q) :=
  bars (20455 - 36) (cyc [4 # 1; 5 # 1; 6 # 1] 12 ++ [9 # 1]).

(** a target that follows the benchmark bar for bar before the event *)
Definition sample_tracking_target : list (timestamp * Q) :=
  bars (20455 - 36) (cyc [2 # 1; 3 # 1] 18 ++ [6 # 1]).

(** five-minute bars of one session of day [d], from 09:30 on *)
Fixpoint session_from (t : timestamp) (cs : list Q) : list (timestamp * Q) :=
  match cs with
  | [] => []
  | c :: cs' => (t, c) :: session_from (t + 5)%Z cs'
  end.

Definition session (d : Z) (cs : list Q) : list (timestamp * Q) :=
  session_from (d * 1440 + 570)%Z cs.

(** a baseline session of 32 bars for each of two instruments, and a
    second session of 3 bars *)
Definition sample_xle_5m : list (timestamp * Q) :=
  session 20440 (cyc [40 # 1; 41 # 1; 39 # 1; 42 # 1] 8)
  ++ session 20441 [40 # 1; 41 # 1; 42 # 1].

Definition sample_oil_5m : list (timestamp * Q) :=
  session 20440 (cyc [70 # 1; 71 # 1] 16)
  ++ session 20441 [70 # 1; 69 # 1; 68 # 1].



(** two series of different lengths, both ending before the event day *)
Definition stale_target : list (timestamp * Q) :=
  bars 20440 [4 # 1; 5 # 1; 6 # 1].

Definition stale_market : list (timestamp * Q) :=
  bars 20440 [2 # 1; 3 # 1].

(** ** More sample data *)

(** a benchmark of the same length as [stale_target] *)
Definition stale_market_3 : list (timestamp * Q) :=
  bars 20440 [2 # 1; 3 # 1; 2 # 1].

(** raw rows as the files may hold them: out of order, one timestamp
    repeated, one bar before the open and one after the close *)
Definition raw_rows : list (timestamp * Q) :=
  [((20440 * 1440 + 580)%Z, 12 # 1);
   ((20440 * 1440 + 570)%Z, 10 # 1);
   ((20440 * 1440 + 580)%Z, 99 # 1);
   ((20440 * 1440 + 565)%Z, 9 # 1);
   ((20440 * 1440 + 960)%Z, 13 # 1);
   ((20440 * 1440 + 965)%Z, 14 # 1);
   ((20440 * 1440 + 575)%Z, 11 # 1)].

(** a row stamped within regular trading hours *)
Definition in_rth (t : timestamp) : bool :=
  (Loader.rth_open <=? Loader.minute_of_day t)%Z
  && (Loader.minute_of_day t <=? Loader.rth_close)%Z.

(** the row of a frame under a label, the first one if there are several *)
Definition row_at {A : Type} (t : timestamp) (s : list (timestamp * A))
  : option (timestamp * A) :=
  find (fun r => Z.eqb (fst r) t) s.

(** two baseline sessions of 60 five-minute bars each, 119 returns before
    2026-01-01 and none on the event day *)
Definition long_baseline (a b c d : Q) : list (timestamp * Q) :=
  session 20440 (cyc [a; b; c; d] 15) ++ session 20441 (cyc [a; b; c; d] 15).

(** a stand-in for the library fit: all coefficients 0, the residuals
    the target itself *)
Definition ols_flat (y _ _ : series) : result FactorModel.ols_fit :=
  Ok {| FactorModel.const := Fin 0;
        FactorModel.beta_spy := Fin 0;
        FactorModel.beta_oil := Fin 0;
        FactorModel.resid := y;
        FactorModel.rsquared := Fin 0 |}.

(** the returns of the aligned XLE frame stamped on the event day, the
    [Y_test] of [run_factor_model] *)
Definition test_rows (raw_xle raw_spy raw_oil : list (timestamp * Q))
  : series :=
  let '(xle, _, _) :=
    Loader.align3 (Loader.normalize raw_xle) (Loader.normalize raw_spy)
                  (Loader.normalize raw_oil) in
  filter (fun r => Z.eqb (date (fst r)) FactorModel.test_date) (returns xle).

(** a frame with every close multiplied by [k] *)
Definition scale_closes (k : Q) (s : list (timestamp * Q))
  : list (timestamp * Q) :=
  map (fun r => (fst r, k * snd r)) s.

(** whether a list of labels has no repetition, [Index.is_unique] *)
Fixpoint is_unique (l : list timestamp) : bool :=
  match l with
  | [] => true
  | t :: l' => negb (mem t l') && is_unique l'
  end.

(** a series in affine relation with another: [a + k * x] under the same
    labels *)
Definition affine_of (a k : Q) (xs : list (timestamp * Q))
  : list (timestamp * Q) :=
  map (fun r => (fst r, a + k * snd r)) xs.

(** a list of floats that holds the rationals [qs] *)
Definition vreps (l : list fnum) (qs : list Q) : Prop :=
  Forall2 (fun v q => v ≈ Fin q) l qs.

(** 30 daily benchmark returns *)
Definition sample_market_returns : list (timestamp * Q) :=
  bars 20400 (cyc [1 # 100; -1 # 100; 1 # 50] 10).

(** ** forensics.py: the intraday spread of two instruments *)

Module Forensics.

Import Loader.

(** [a.union(b).sort_values()] for two indexes of distinct labels: every
    label of either side, once, in increasing order *)
Definition union (a b : list timestamp) : list timestamp :=
  Stats.sort (unique (a ++ b)).

(** the close a frame has under a label, NaN when it has none *)
Definition close_at (s : frame) (t : timestamp) : fnum :=
  match filter (fun r => Z.eqb (fst r) t) s with
  | [] => NaN
  | r :: _ => Fin (snd r)
  end.

(** [df.reindex(idx)]: one row per label of [idx], NaN under a label the
    frame does not have.  A frame with a repeated label can only be
    reindexed onto its own index: pandas raises [ValueError] otherwise. *)
Definition reindex (s : frame) (idx : list timestamp) : result series :=
  if index_eqb (index s) idx then Ok (fins s)
  else if is_unique (index s) then Ok (map (fun t => (t, close_at s t)) idx)
  else Raise ValueError.

(** [Series.ffill()]: a NaN takes the last value seen before it, a
    leading NaN stays *)
Fixpoint ffill_from (last : fnum) (s : series) : series :=
  match s with
  | [] => []
  | r :: s' =>
      let v := if isnan (snd r) then last else snd r in
      (fst r, v) :: ffill_from v s'
  end.

Definition ffill (s : series) : series := ffill_from NaN s.

(** [s / k] for a scalar [k] *)
Definition div_by (s : series) (k : fnum) : series :=
  map (fun r => (fst r, (snd r / k)%F)) s.

(** [calculate_leak_spread] from the filter on trading hours on (line
    115), applied to the bars [xle_day] and [uso_day] that the two frames
    have on the date *)
Definition calculate_leak_spread (xle_day uso_day : frame)
  : result (option (series * series * series)) :=
  let xle_day := between_time rth_open rth_close xle_day in
  let uso_day := between_time rth_open rth_close uso_day in
  match xle_day, uso_day with
  | [], _ | _, [] => Ok None
  | _, _ =>
      let common_index := union (index xle_day) (index uso_day) in
      let* xle_re := reindex xle_day common_index in
      let xle_close := ffill xle_re in
      let* uso_re := reindex uso_day common_index in
      let uso_close := ffill uso_re in
      let* xle_start := iloc_first xle_close in
      let* uso_start := iloc_first uso_close in
      let xle_norm := div_by xle_close (snd xle_start) in
      let uso_norm := div_by uso_close (snd uso_start) in
      let spread := series_sub xle_norm uso_norm in
      Ok (Some (spread, xle_norm, uso_norm))
  end.

End Forensics.

(** the event session of two instruments: the second one misses the bar
    of 09:35, has one more bar at 09:45 and a bar before the open *)
Definition event_xle : list (timestamp * Q) :=
  session 20455 [40 # 1; 42 # 1; 41 # 1].

Definition event_oil : list (timestamp * Q) :=
  [((20455 * 1440 + 540)%Z, 49 # 1);
   ((20455 * 1440 + 570)%Z, 50 # 1);
   ((20455 * 1440 + 580)%Z, 51 # 1);
   ((20455 * 1440 + 585)%Z, 52 # 1)].

(** an instrument whose first bar of the session is the one of 09:35 *)
Definition event_xle_late : list (timestamp * Q) :=
  session_from (20455 * 1440 + 575)%Z [42 # 1; 41 # 1].

(** the bars of a frame stamped within regular trading hours *)
Definition rth_bars (s : list (timestamp * Q)) : list (timestamp * Q) :=
  Loader.between_time Loader.rth_open Loader.rth_close s.

(** [v] is the close of the latest bar of [s] stamped at or before [t],
    NaN when [s] has no such bar *)
Definition as_of (s : list (timestamp * Q)) (t : timestamp) (v : fnum)
  : Prop :=
  (v = NaN /\ forall r, In r s -> (t < fst r)%Z)
  \/ exists r, In r s /\ (fst r <= t)%Z /\ v = Fin (snd r)
               /\ forall r', In r' s -> (fst r' <= t)%Z -> (fst r' <= fst r)%Z.

(** the bars of a frame stamped on the date [d] *)
Definition bars_on (d : Z) (s : list (timestamp * Q)) : list (timestamp * Q) :=
  filter (fun r => Z.eqb (date (fst r)) d) s.

(** ** forensics.py: two tests of [run_forensic_analysis] *)

Module ForensicReport.

(** test 3, from the results that [run_beta_analysis] returned for ITA
    and for the shipping tickers, in their order: [None] when no verdict
    is printed, otherwise whether the pattern is confirmed *)
Definition hierarchy_test (ita_res : option beta_result)
           (shipping : list (option beta_result)) : option bool :=
  let valid := flat_map (fun res => match res with
                                    | Some r => [r]
                                    | None => []
                                    end) shipping in
  let total_shipping_return :=
    fold_left (fun acc r => (acc + event_return r)%F) valid (Fin 0) in
  let valid_shipping_count := length valid in
  match ita_res with
  | Some ita =>
      if Nat.ltb 0 valid_shipping_count then
        let avg_shipping_return :=
          (total_shipping_return / of_nat valid_shipping_count)%F in
        Some (fgtb (event_return ita) (Fin (2 # 100))
              && fltb avg_shipping_return (Fin 0))
      else None
  | None => None
  end.

Inductive volume_outcome : Type :=
| BaselineFileMissing
| NoMocBars
| VolumeTestFailed
| VolumeAbnormal (z_score_vol : fnum)
| VolumeConsistent (z_score_vol : fnum).

(** the minute of the last bar of the session, 15:55 *)
Definition moc_minute : Z := 955.

Section VolumeTest.
Variable sqrtQ : Q -> Q.

(** test 4, from the highest volume found on the event day
    ([max_vol_val], 0 when the spread gave no result) and the [Volume]
    column of the baseline file, [None] when the file is not there.  The
    three numbers are Python floats, whose division by zero raises; the
    handler of the block catches it. *)
Definition volume_test (max_vol_val : fnum) (df_base : option frame)
  : volume_outcome :=
  match df_base with
  | None => BaselineFileMissing
  | Some df_base =>
      let moc_volumes := Loader.between_time moc_minute moc_minute df_base in
      match moc_volumes with
      | [] => NoMocBars
      | _ =>
          let mean_vol := mean (fins moc_volumes) in
          let std_vol := std sqrtQ (fins moc_volumes) in
          if feq_ieee std_vol (Fin 0) then VolumeTestFailed
          else
            let z_score_vol := ((max_vol_val - mean_vol) / std_vol)%F in
            if fgtb z_score_vol (Fin 3) then VolumeAbnormal z_score_vol
            else VolumeConsistent z_score_vol
      end
  end.

End VolumeTest.

End ForensicReport.

(** results of the daily analysis with a given event return *)
Definition result_with (r : fnum) : beta_result :=
  {| beta := Fin 1; event_return := r; expected_return := Fin 0;
     abnormal_return := r; z_score := Fin 0 |}.

(** a baseline of two sessions whose last bars carry the volumes 100 and
    300 *)
Definition sample_volumes : list (timestamp * Q) :=
  [((20440 * 1440 + 950)%Z, 50 # 1); ((20440 * 1440 + 955)%Z, 100 # 1);
   ((20441 * 1440 + 950)%Z, 70 # 1); ((20441 * 1440 + 955)%Z, 300 # 1)].



(** * Properties *)

(** ** Arithmetic of [fnum] *)

#[local] Arguments Qred : simpl never.
#[local] Arguments Qplus : simpl never.
#[local] Arguments Qmult : simpl never.
#[local] Arguments Qminus : simpl never.
#[local] Arguments Qdiv : simpl never.
#[local] Arguments Qopp : simpl never.
#[local] Arguments Qinv : simpl never.
#[local] Arguments Qabs : simpl never.
#[local] Arguments Qeq_bool : simpl never.
#[local] Arguments Qle_bool : simpl never.
#[local] Arguments inject_Z : simpl never.

Lemma Qltb_lt (a b : Q) : Qltb a b = true <-> a < b.
Proof.
  unfold Qltb. rewrite negb_true_iff.
  split; intro H.
  - apply Qnot_le_lt. intro Hle. apply Qle_bool_iff in Hle. congruence.
  - destruct (Qle_bool b a) eqn:E; [|reflexivity].
    apply Qle_bool_iff in E. exfalso. apply (Qlt_not_le _ _ H E).
Qed.

Lemma Qltb_ge (a b : Q) : Qltb a b = false <-> b <= a.
Proof.
  unfold Qltb. rewrite negb_false_iff. apply Qle_bool_iff.
Qed.

Lemma Qzerob_true (q : Q) : Qzerob q = true <-> q == 0.
Proof. apply Qeq_bool_iff. Qed.

Lemma Qzerob_false (q : Q) : Qzerob q = false <-> ~ q == 0.
Proof.
  unfold Qzerob. split; intro H.
  - intro E. apply Qeq_bool_iff in E. congruence.
  - destruct (Qeq_bool q 0) eqn:E; [|reflexivity].
    apply Qeq_bool_iff in E. contradiction.
Qed.

Lemma feq_refl (x : fnum) : x ≈ x.
Proof. destruct x; unfold feq; simpl; auto. apply Qeq_bool_iff. reflexivity. Qed.

Lemma feq_sym (x y : fnum) : x ≈ y -> y ≈ x.
Proof.
  destruct x, y; unfold feq; simpl; auto.
  rewrite !Qeq_bool_iff. intro H. symmetry. exact H.
Qed.

Lemma feq_trans (x y z : fnum) : x ≈ y -> y ≈ z -> x ≈ z.
Proof.
  destruct x, y, z; unfold feq; simpl; auto; try discriminate.
  rewrite !Qeq_bool_iff. intros H1 H2. rewrite H1. exact H2.
Qed.

#[export] Instance feq_Equivalence : Equivalence feq.
Proof.
  split; [exact feq_refl | exact feq_sym | exact feq_trans].
Qed.

Lemma feq_Fin (a b : Q) : Fin a ≈ Fin b <-> a == b.
Proof. unfold feq; simpl. apply Qeq_bool_iff. Qed.

Lemma feq_Fin_inv (x : fnum) (b : Q) :
  x ≈ Fin b -> exists a, x = Fin a /\ a == b.
Proof.
  destruct x; unfold feq; simpl; try discriminate.
  intro H. exists q. split; [reflexivity | now apply Qeq_bool_iff].
Qed.

Lemma fadd_Fin (a b : Q) : (Fin a + Fin b)%F ≈ Fin (a + b).
Proof. simpl. apply feq_Fin. apply Qred_correct. Qed.

Lemma fsub_Fin (a b : Q) : (Fin a - Fin b)%F ≈ Fin (a - b).
Proof. unfold fsub. simpl. apply feq_Fin. apply Qred_correct. Qed.

Lemma fmul_Fin (a b : Q) : (Fin a * Fin b)%F ≈ Fin (a * b).
Proof. simpl. apply feq_Fin. apply Qred_correct. Qed.

Lemma fdiv_Fin (a b : Q) : ~ b == 0 -> (Fin a / Fin b)%F ≈ Fin (a / b).
Proof.
  intro Hb. simpl. apply Qzerob_false in Hb. rewrite Hb.
  apply feq_Fin. apply Qred_correct.
Qed.

#[export] Instance fadd_Proper : Proper (feq ==> feq ==> feq) fadd.
Proof.
  intros x x' Hx y y' Hy.
  destruct x, x'; try discriminate Hx; destruct y, y'; try discriminate Hy;
    simpl; try reflexivity.
  apply feq_Fin in Hx, Hy. apply feq_Fin.
  rewrite !Qred_correct, Hx, Hy. reflexivity.
Qed.

#[export] Instance fopp_Proper : Proper (feq ==> feq) fopp.
Proof.
  intros x x' Hx.
  destruct x, x'; try discriminate Hx; simpl; try reflexivity.
  apply feq_Fin in Hx. apply feq_Fin. rewrite Hx. reflexivity.
Qed.

#[export] Instance fsub_Proper : Proper (feq ==> feq ==> feq) fsub.
Proof.
  intros x x' Hx y y' Hy. unfold fsub. rewrite Hx, Hy. reflexivity.
Qed.

Lemma Qzerob_Proper (a b : Q) : a == b -> Qzerob a = Qzerob b.
Proof.
  intro H.
  destruct (Qzerob a) eqn:Ea, (Qzerob b) eqn:Eb; try reflexivity.
  - apply Qzerob_true in Ea. apply Qzerob_false in Eb.
    exfalso. apply Eb. rewrite <- H. exact Ea.
  - apply Qzerob_false in Ea. apply Qzerob_true in Eb.
    exfalso. apply Ea. rewrite H. exact Eb.
Qed.

Lemma Qltb_Proper (a a' b b' : Q) :
  a == a' -> b == b' -> Qltb a b = Qltb a' b'.
Proof.
  intros Ha Hb.
  destruct (Qltb a b) eqn:E, (Qltb a' b') eqn:E'; try reflexivity.
  - apply Qltb_lt in E. apply Qltb_ge in E'. rewrite Ha, Hb in E. lra.
  - apply Qltb_ge in E. apply Qltb_lt in E'. rewrite Ha, Hb in E. lra.
Qed.

#[export] Instance fmul_Proper : Proper (feq ==> feq ==> feq) fmul.
Proof.
  intros x x' Hx y y' Hy.
  destruct x, x'; try discriminate Hx; destruct y, y'; try discriminate Hy;
    simpl; try reflexivity;
    try (apply feq_Fin in Hx); try (apply feq_Fin in Hy).
  - apply feq_Fin. rewrite !Qred_correct, Hx, Hy. reflexivity.
  - unfold scale_inf, Qposb.
    rewrite (Qzerob_Proper _ _ Hx), (Qltb_Proper 0 0 q q0 (Qeq_refl 0) Hx).
    reflexivity.
  - unfold scale_inf, Qposb.
    rewrite (Qzerob_Proper _ _ Hx), (Qltb_Proper 0 0 q q0 (Qeq_refl 0) Hx).
    reflexivity.
  - unfold scale_inf, Qposb.
    rewrite (Qzerob_Proper _ _ Hy), (Qltb_Proper 0 0 q q0 (Qeq_refl 0) Hy).
    reflexivity.
  - unfold scale_inf, Qposb.
    rewrite (Qzerob_Proper _ _ Hy), (Qltb_Proper 0 0 q q0 (Qeq_refl 0) Hy).
    reflexivity.
Qed.

(** ** Series of finite values *)

Lemma reps_fins (rs : list (timestamp * Q)) : reps (fins rs) rs.
Proof.
  induction rs as [|r rs IH]; constructor; [|exact IH].
  split; [reflexivity | apply feq_refl].
Qed.

Lemma reps_length (s : series) (rs : list (timestamp * Q)) :
  reps s rs -> length s = length rs.
Proof. induction 1; simpl; congruence. Qed.

Lemma feq_Fin_notnan (x : fnum) (q : Q) : x ≈ Fin q -> isnan x = false.
Proof. destruct x; try discriminate; reflexivity. Qed.

Lemma iloc_last_nth {A : Type} (l : list A) (x : A) :
  iloc_last l = Ok x <-> (l <> [] /\ nth_error l (pred (length l)) = Some x).
Proof.
  induction l as [|a [|b l] IH].
  - simpl. split; [discriminate | intros [H _]; congruence].
  - simpl. split.
    + intros [= ->]. split; [discriminate | reflexivity].
    + intros [_ [= ->]]. reflexivity.
  - change (iloc_last (a :: b :: l)) with (iloc_last (b :: l)).
    rewrite IH. simpl. split; intros [_ H]; (split; [discriminate | exact H]).
Qed.

Lemma iloc_last_app {A : Type} (l : list A) (x : A) :
  iloc_last (l ++ [x]) = Ok x.
Proof.
  induction l as [|a l IH]; [reflexivity|].
  simpl. destruct (l ++ [x]) eqn:E.
  - destruct l; discriminate.
  - exact IH.
Qed.

Lemma growth_app (a b : list Q) : growth (a ++ b) == growth a * growth b.
Proof.
  induction a as [|r a IH]; simpl.
  - ring.
  - rewrite IH. ring.
Qed.

Lemma cumprod_from_length (s : series) (acc : fnum) :
  length (FactorModel.cumprod_from acc s) = length s.
Proof.
  revert acc. induction s as [|[t v] s IH]; intro acc; simpl; [reflexivity|].
  destruct (isnan v); simpl; rewrite IH; reflexivity.
Qed.

Lemma cum_residuals_length (s : series) :
  length (FactorModel.cum_residuals s) = length s.
Proof.
  unfold FactorModel.cum_residuals, sub_scalar, FactorModel.cumprod.
  rewrite length_map, cumprod_from_length. apply length_map.
Qed.

Lemma cumprod_from_nth (s : series) (rs : list (timestamp * Q)) :
  reps s rs ->
  forall (acc : fnum) (q : Q) (k : nat) (t : timestamp) (r : Q),
    acc ≈ Fin q ->
    nth_error rs k = Some (t, r) ->
    exists v,
      nth_error (FactorModel.cumprod_from acc (add_scalar (Fin 1) s)) k
      = Some (t, v)
      /\ v ≈ Fin (q * growth (values (firstn (S k) rs))).
Proof.
  induction 1 as [|x r0 s rs [Ht Hv] Hrest IH]; intros acc q k t r Hacc Hk.
  - destruct k; discriminate.
  - destruct x as [tx vx], r0 as [t0 q0]. simpl in Ht, Hv. subst tx.
    assert (Hstep : (acc * (Fin 1 + vx))%F ≈ Fin (q * (1 + q0))).
    { rewrite Hacc, Hv, fadd_Fin, fmul_Fin. reflexivity. }
    assert (Hnan : isnan (Fin 1 + vx)%F = false).
    { apply feq_Fin_notnan with (q := 1 + q0). rewrite Hv. apply fadd_Fin. }
    cbn [add_scalar map FactorModel.cumprod_from fst snd].
    rewrite Hnan.
    destruct k as [|k].
    + injection Hk as -> ->. eexists. split; [reflexivity|].
      rewrite Hstep. apply feq_Fin. cbn. ring.
    + cbn [nth_error] in Hk |- *.
      destruct (IH _ _ k t r Hstep Hk) as [v [Hn Hvv]].
      exists v. split; [exact Hn|].
      rewrite Hvv. apply feq_Fin.
      change (firstn (S (S k)) ((t0, q0) :: rs))
        with ((t0, q0) :: firstn (S k) rs).
      cbn [values map snd growth fold_right]. unfold values, growth. ring.
Qed.

Lemma cum_residuals_nth (s : series) (rs : list (timestamp * Q)) :
  reps s rs ->
  forall (k : nat) (t : timestamp) (r : Q),
    nth_error rs k = Some (t, r) ->
    exists v,
      nth_error (FactorModel.cum_residuals s) k = Some (t, v)
      /\ v ≈ Fin (compounded (values (firstn (S k) rs))).
Proof.
  intros Hs k t r Hk.
  destruct (cumprod_from_nth s rs Hs (Fin 1) 1 k t r (feq_refl _) Hk)
    as [v [Hn Hv]].
  exists (v - Fin 1)%F. split.
  - unfold FactorModel.cum_residuals, FactorModel.cumprod, sub_scalar.
    rewrite nth_error_map, Hn. reflexivity.
  - rewrite Hv, fsub_Fin. apply feq_Fin. unfold compounded. ring.
Qed.

Lemma car_reps (s : series) (rs : list (timestamp * Q)) :
  reps s rs -> rs <> [] ->
  exists v, car s = Ok v /\ v ≈ Fin (compounded (values rs)).
Proof.
  intros Hs Hne.
  assert (Hlen := reps_length _ _ Hs).
  destruct (nth_error rs (pred (length rs))) as [[t r]|] eqn:Hk.
  2:{ apply nth_error_None in Hk. destruct rs; [congruence | simpl in Hk; lia]. }
  destruct (cum_residuals_nth s rs Hs _ t r Hk) as [v [Hn Hv]].
  exists v. split.
  - unfold car.
    assert (Hl : length (FactorModel.cum_residuals s) = length rs).
    { rewrite cum_residuals_length. exact Hlen. }
    assert (Hlast : iloc_last (FactorModel.cum_residuals s) = Ok (t, v)).
    { apply iloc_last_nth. split.
      - intro E. rewrite E in Hl. destruct rs; [congruence | discriminate].
      - rewrite Hl. exact Hn. }
    rewrite Hlast. reflexivity.
  - rewrite Hv. apply feq_Fin.
    rewrite firstn_all2; [reflexivity|].
    destruct rs; [congruence | simpl; lia].
Qed.

(** [car] is the [total_car] of the script, and the last block of the
    report is [leak_window] on the same cumulative series. *)
Lemma event_window_total_car (sqrtQ : Q -> Q) (model : FactorModel.ols_fit)
      (Y_test spy_test oil_test : series) (r : FactorModel.event_report) :
  FactorModel.event_window sqrtQ model Y_test spy_test oil_test = Ok r ->
  let residuals :=
    series_sub Y_test
      (FactorModel.predict model (FactorModel.columns2 spy_test oil_test)) in
  car residuals = Ok (FactorModel.total_car r)
  /\ FactorModel.leak r
     = FactorModel.leak_window FactorModel.leak_start
         (FactorModel.cum_residuals residuals).
Proof.
  unfold FactorModel.event_window, car. cbv zeta.
  destruct (iloc_last _) as [last|e]; [|discriminate].
  cbn [bind]. intros [= <-]. split; reflexivity.
Qed.

(** ** C1: the cumulative abnormal return *)

(** C1.  Over a window of abnormal returns the cumulative abnormal return
    that [run_factor_model] computes at bar [k] is the compounded product
    [Π (1 + abnormal_i) − 1] of the bars from the window start to bar [k],
    and compounding is associative: for a window cut into two non-empty
    parts, [(1 + CAR(a,b)) · (1 + CAR(b,c)) − 1] is the CAR of the whole
    window, in the floating-point values of the code and exactly over the
    rationals. *)
Theorem car_compounded_and_associative (rs : list (timestamp * Q)) :
  (forall (k : nat) (t : timestamp) (r : Q),
      nth_error rs k = Some (t, r) ->
      exists v,
        nth_error (FactorModel.cum_residuals (fins rs)) k = Some (t, v)
        /\ v ≈ Fin (compounded (values (firstn (S k) rs))))
  /\
  (forall (x y : timestamp * Q) (a b : list (timestamp * Q)),
      rs = (x :: a) ++ (y :: b) ->
      exists vab vbc vac,
        car (fins (x :: a)) = Ok vab
        /\ car (fins (y :: b)) = Ok vbc
        /\ car (fins rs) = Ok vac
        /\ vac ≈ Fin (compounded (values rs))
        /\ ((Fin 1 + vab) * (Fin 1 + vbc) - Fin 1)%F ≈ vac
        /\ (1 + compounded (values (x :: a)))
           * (1 + compounded (values (y :: b))) - 1
           == compounded (values rs)).
Proof.
  split.
  - intros k t r Hk. exact (cum_residuals_nth _ _ (reps_fins rs) k t r Hk).
  - intros x y a b ->.
    destruct (car_reps _ _ (reps_fins (x :: a))) as [vab [Hab Eab]];
      [discriminate|].
    destruct (car_reps _ _ (reps_fins (y :: b))) as [vbc [Hbc Ebc]];
      [discriminate|].
    destruct (car_reps _ _ (reps_fins ((x :: a) ++ y :: b))) as [vac [Hac Eac]];
      [discriminate|].
    assert (Hq : (1 + compounded (values (x :: a)))
                 * (1 + compounded (values (y :: b))) - 1
                 == compounded (values ((x :: a) ++ y :: b))).
    { unfold compounded, values. rewrite map_app, growth_app. ring. }
    exists vab, vbc, vac. repeat split; try assumption.
    rewrite Eab, Ebc, Eac, !fadd_Fin, fmul_Fin, fsub_Fin.
    apply feq_Fin. exact Hq.
Qed.

Lemma car_compounded_and_associative_witness :
  let rs := [(0%Z, 1 # 10); (5%Z, 1 # 5); (10%Z, -1 # 10)] in
  (forall (k : nat) (t : timestamp) (r : Q),
      nth_error rs k = Some (t, r) ->
      exists v,
        nth_error (FactorModel.cum_residuals (fins rs)) k = Some (t, v)
        /\ v ≈ Fin (compounded (values (firstn (S k) rs))))
  /\
  (forall (x y : timestamp * Q) (a b : list (timestamp * Q)),
      rs = (x :: a) ++ (y :: b) ->
      exists vab vbc vac,
        car (fins (x :: a)) = Ok vab
        /\ car (fins (y :: b)) = Ok vbc
        /\ car (fins rs) = Ok vac
        /\ vac ≈ Fin (compounded (values rs))
        /\ ((Fin 1 + vab) * (Fin 1 + vbc) - Fin 1)%F ≈ vac
        /\ (1 + compounded (values (x :: a)))
           * (1 + compounded (values (y :: b))) - 1
           == compounded (values rs)).
Proof.
  exact (car_compounded_and_associative
           [(0%Z, 1 # 10); (5%Z, 1 # 5); (10%Z, -1 # 10)]).
Defined.

(** Two bars of +10% compound to 21%, not to their sum 20%. *)
Example car_is_not_the_sum :
  car (fins [(0%Z, 1 # 10); (5%Z, 1 # 10)]) = Ok (Fin (21 # 100)).
Proof. vm_compute. reflexivity. Qed.

(** ** C2: returns of a price series *)

Lemma pct_value (c prev : Q) :
  ~ prev == 0 -> (Fin c / Fin prev - Fin 1)%F ≈ Fin (c / prev - 1).
Proof.
  intro H. rewrite (fdiv_Fin c prev H), fsub_Fin. reflexivity.
Qed.

Lemma returns_from_reps (s : list (timestamp * Q)) :
  positive_closes s ->
  forall prev, 0 < prev ->
    dropna (pct_change_from prev s) = pct_change_from prev s
    /\ reps (pct_change_from prev s) (simple_returns_from prev s).
Proof.
  induction 1 as [|[t c] s Hc Hs IH]; intros prev Hprev.
  - split; [reflexivity | constructor].
  - simpl in Hc. destruct (IH c Hc) as [Hd Hr].
    assert (Hv := pct_value c prev (Qnot_eq_sym _ _ (Qlt_not_eq _ _ Hprev))).
    split.
    + cbn [pct_change_from]. unfold dropna in *. cbn [filter snd].
      rewrite (feq_Fin_notnan _ _ Hv). cbn [negb]. f_equal. exact Hd.
    + cbn [pct_change_from simple_returns_from]. constructor; [|exact Hr].
      split; [reflexivity | exact Hv].
Qed.

Lemma returns_reps (close : list (timestamp * Q)) :
  positive_closes close -> reps (returns close) (simple_returns close).
Proof.
  intros H. destruct H as [|[t c] s Hc Hs].
  - constructor.
  - unfold returns. cbn [pct_change simple_returns].
    unfold dropna. cbn [filter snd isnan negb].
    destruct (returns_from_reps s Hs c Hc) as [Hd Hr].
    unfold dropna in Hd. rewrite Hd. exact Hr.
Qed.

Lemma simple_returns_from_length (s : list (timestamp * Q)) (prev : Q) :
  length (simple_returns_from prev s) = length s.
Proof.
  revert prev. induction s as [|[t c] s IH]; intro prev; simpl; auto.
Qed.

Lemma simple_returns_from_nth (s : list (timestamp * Q)) :
  forall (prev : Q) (t0 : timestamp) (i : nat) (t t' : timestamp) (c c' : Q),
    nth_error ((t0, prev) :: s) i = Some (t, c) ->
    nth_error s i = Some (t', c') ->
    nth_error (simple_returns_from prev s) i = Some (t', c' / c - 1).
Proof.
  induction s as [|[t1 c1] s IH]; intros prev t0 i t t' c c' H1 H2.
  - destruct i; discriminate.
  - destruct i as [|i].
    + simpl in H1, H2. injection H1 as <- <-. injection H2 as <- <-.
      reflexivity.
    + cbn [nth_error] in H1, H2. cbn [simple_returns_from nth_error].
      exact (IH c1 t1 i t t' c c' H1 H2).
Qed.

Lemma last_cons_default {A : Type} (l : list A) (c d : A) :
  last (c :: l) d = last l c.
Proof.
  revert c d. induction l as [|a l IH]; intros c d; [reflexivity|].
  change (last (c :: a :: l) d) with (last (a :: l) d).
  rewrite (IH a d), (IH a c). reflexivity.
Qed.

Lemma growth_simple_returns (s : list (timestamp * Q)) :
  positive_closes s ->
  forall prev, 0 < prev ->
    growth (values (simple_returns_from prev s))
    == last (values s) prev / prev.
Proof.
  induction 1 as [|[t c] s Hc Hs IH]; intros prev Hprev.
  - simpl. field. lra.
  - simpl in Hc.
    change (values ((t, c) :: s)) with (c :: values s).
    rewrite last_cons_default. cbn [simple_returns_from values map snd growth fold_right].
    fold (growth (map snd (simple_returns_from c s))).
    change (map snd (simple_returns_from c s))
      with (values (simple_returns_from c s)).
    rewrite (IH c Hc). field. split; lra.
Qed.

Lemma returns_short (close : list (timestamp * Q)) :
  (length close <= 1)%nat -> returns close = [].
Proof.
  destruct close as [|[t c] [|r close]]; simpl; intro H.
  - reflexivity.
  - reflexivity.
  - lia.
Qed.

(** C2.  A price series of [N] bars with positive closes has a return
    series of [N − 1] entries, entry [i] being [close[i+1] / close[i] − 1]
    under the timestamp of bar [i+1]; compounding all the entries gives
    [close[N−1] / close[0] − 1] (as the compounded product of the
    entries, and as the CAR-style compounding of the code when there is an
    entry); and a series of no bar or one bar gives the empty return
    series, positive or not, with no exception. *)
Theorem returns_of_price_series (close : list (timestamp * Q)) :
  ((length close <= 1)%nat -> returns close = [])
  /\
  (positive_closes close ->
   length (returns close) = (length close - 1)%nat
   /\ (forall (i : nat) (t t' : timestamp) (c c' : Q),
          nth_error close i = Some (t, c) ->
          nth_error close (S i) = Some (t', c') ->
          exists v,
            nth_error (returns close) i = Some (t', v)
            /\ v ≈ Fin (c' / c - 1))
   /\ (forall (t0 : timestamp) (c0 : Q) (rest : list (timestamp * Q)),
          close = (t0, c0) :: rest ->
          reps (returns close) (simple_returns close)
          /\ compounded (values (simple_returns close))
             == last (values rest) c0 / c0 - 1
          /\ (rest <> [] ->
              exists v,
                car (returns close) = Ok v
                /\ v ≈ Fin (last (values rest) c0 / c0 - 1)))).
Proof.
  split; [apply returns_short|].
  intro Hpos.
  assert (Hreps := returns_reps close Hpos).
  split; [|split].
  - rewrite (reps_length _ _ Hreps).
    destruct close as [|[t c] s]; [reflexivity|].
    cbn [simple_returns length]. rewrite simple_returns_from_length. lia.
  - intros i t t' c c' Hi Hsi.
    destruct close as [|[t0 c0] s]; [destruct i; discriminate|].
    cbn [nth_error] in Hsi.
    assert (Hq := simple_returns_from_nth s c0 t0 i t t' c c' Hi Hsi).
    assert (Hrow : exists x, nth_error (returns ((t0, c0) :: s)) i = Some x
                             /\ row_rep x (t', c' / c - 1)).
    { clear -Hreps Hq. cbn [simple_returns] in Hreps.
      revert i Hq. induction Hreps as [|x r l l' Hx Hl IH]; intros i Hq.
      - destruct i; discriminate.
      - destruct i as [|i].
        + injection Hq as ->. exists x. split; [reflexivity | exact Hx].
        + exact (IH i Hq). }
    destruct Hrow as [[tx vx] [Hn [Ht Hv]]]. simpl in Ht, Hv. subst tx.
    exists vx. split; assumption.
  - intros t0 c0 rest ->.
    inversion Hpos as [|x l Hc0 Hrest]; subst. simpl in Hc0.
    assert (Hg : compounded (values (simple_returns ((t0, c0) :: rest)))
                 == last (values rest) c0 / c0 - 1).
    { unfold compounded. cbn [simple_returns].
      rewrite (growth_simple_returns rest Hrest c0 Hc0). reflexivity. }
    split; [exact Hreps|]. split; [exact Hg|].
    intro Hne.
    destruct (car_reps _ _ Hreps) as [v [Hcar Hv]].
    + cbn [simple_returns]. intro E.
      apply (f_equal (@length _)) in E.
      rewrite simple_returns_from_length in E.
      destruct rest; [congruence | discriminate].
    + exists v. split; [exact Hcar|]. rewrite Hv. apply feq_Fin. exact Hg.
Qed.

Lemma returns_of_price_series_witness :
  let close := [(0%Z, 100 # 1); (5%Z, 110 # 1); (10%Z, 99 # 1)] in
  positive_closes close
  /\ length (returns close) = 2%nat
  /\ (exists v, car (returns close) = Ok v /\ v ≈ Fin (99 / 100 - 1)).
Proof.
  set (close := [(0%Z, 100 # 1); (5%Z, 110 # 1); (10%Z, 99 # 1)]).
  assert (Hpos : positive_closes close).
  { repeat constructor. }
  destruct (returns_of_price_series close) as [_ H].
  destruct (H Hpos) as [Hlen [_ Hcomp]].
  destruct (Hcomp 0%Z (100 # 1) [(5%Z, 110 # 1); (10%Z, 99 # 1)] eq_refl)
    as [_ [_ Hcar]].
  split; [exact Hpos|]. split; [exact Hlen|].
  apply Hcar. discriminate.
Defined.

(** ** models.py: the daily beta analysis *)

Lemma select_mask_filter {A : Type} (p : timestamp -> bool)
      (s : list (timestamp * A)) :
  select s (map p (index s)) = filter (fun r => p (fst r)) s.
Proof.
  induction s as [|r s IH]; [reflexivity|].
  simpl. rewrite IH. reflexivity.
Qed.

Lemma getitem_mask_self {A : Type} (p : timestamp -> bool)
      (s : list (timestamp * A)) :
  getitem_mask s (map p (index s)) = Ok (filter (fun r => p (fst r)) s).
Proof.
  unfold getitem_mask, index. rewrite !length_map, Nat.eqb_refl.
  f_equal. apply select_mask_filter.
Qed.

Lemma getitem_mask_length {A B : Type} (s : list A) (mask : list B)
      (f : B -> bool) :
  length s = length mask -> getitem_mask s (map f mask) = Ok (select s (map f mask)).
Proof.
  intro H. unfold getitem_mask. rewrite length_map, <- H, Nat.eqb_refl.
  reflexivity.
Qed.

Lemma getitem_mask_mismatch {A : Type} (s : list A) (mask : list bool) :
  length mask <> length s -> getitem_mask s mask = Raise IndexError.
Proof.
  intro H. unfold getitem_mask.
  destruct (Nat.eqb_spec (length mask) (length s)); [contradiction | reflexivity].
Qed.

Lemma existsb_mask {A : Type} (p : timestamp -> bool)
      (s : list (timestamp * A)) :
  existsb (fun b => b) (map p (index s))
  = match find (fun r => p (fst r)) s with Some _ => true | None => false end.
Proof.
  induction s as [|r s IH]; [reflexivity|].
  simpl. destruct (p (fst r)); [reflexivity | exact IH].
Qed.

Lemma iloc_first_filter {A : Type} (P : A -> bool) (s : list A) :
  iloc_first (filter P s)
  = match find P s with Some x => Ok x | None => Raise IndexError end.
Proof.
  induction s as [|r s IH]; [reflexivity|].
  simpl. destruct (P r); [reflexivity | exact IH].
Qed.


(** The [try] block of [run_beta_analysis] with its handler: the two
    event-day returns when the date is in both indexes, [None] otherwise,
    and never an exception. *)
Lemma try_event_day (target_rets market_rets : series) :
  except_IndexError (event_day_returns target_rets market_rets)
  = Ok (match find on_event_date target_rets,
              find on_event_date market_rets with
        | Some xt, Some xm => Some (snd xt, snd xm)
        | _, _ => None
        end).
Proof.
  unfold event_day_returns.
  rewrite (existsb_mask (fun t => Z.eqb (date t) event_date) target_rets).
  fold on_event_date.
  destruct (find on_event_date target_rets) as [xt|] eqn:Et; cbn [negb].
  - rewrite getitem_mask_self. cbn [bind]. fold on_event_date.
    rewrite iloc_first_filter, Et. cbn [bind].
    rewrite (existsb_mask (fun t => Z.eqb (date t) event_date) market_rets).
    fold on_event_date.
    destruct (find on_event_date market_rets) as [xm|] eqn:Em; cbn [negb].
    + rewrite getitem_mask_self. cbn [bind]. fold on_event_date.
      rewrite iloc_first_filter, Em. reflexivity.
    + reflexivity.
  - destruct target_rets as [|r rs]; [reflexivity|].
    cbn [index map iloc_first bind].
    destruct (iloc_last (fst r :: map fst rs)) eqn:El; [reflexivity|].
    apply (f_equal (fun x => match x with Raise _ => true | _ => false end)) in El.
    exfalso. revert El. clear.
    generalize (fst r). induction (map fst rs) as [|a l IH]; intro t.
    + discriminate.
    + change (iloc_last (t :: a :: l)) with (iloc_last (a :: l)). apply IH.
Qed.


(** [run_beta_analysis] once both files are found, with the [try] block
    reduced by [try_event_day]. *)
Lemma run_beta_analysis_eq (sqrtQ : Q -> Q) (target_close market_close : frame) :
  run_beta_analysis sqrtQ (Some target_close) (Some market_close)
  = let target_rets := returns target_close in
    let market_rets := returns market_close in
    let target_hist := filter (fun r => before_event (fst r)) target_rets in
    let* market_hist := getitem_mask market_rets (history_mask target_rets) in
    let* beta := calculate_beta target_hist market_hist in
    match find on_event_date target_rets, find on_event_date market_rets with
    | Some xt, Some xm =>
        let expected_ret := (beta * snd xm)%F in
        let abnormal_ret := (snd xt - expected_ret)%F in
        let residuals := series_sub target_hist (scale beta market_hist) in
        Ok (Some {| beta := beta;
                    event_return := snd xt;
                    expected_return := expected_ret;
                    abnormal_return := abnormal_ret;
                    z_score := (abnormal_ret / std sqrtQ residuals)%F |})
    | _, _ => Ok None
    end.
Proof.
  unfold run_beta_analysis. cbv zeta.
  fold before_event. rewrite getitem_mask_self. cbn [bind].
  fold (history_mask (returns target_close)).
  destruct (getitem_mask (returns market_close) _) as [mh|e]; [|reflexivity].
  cbn [bind].
  destruct (calculate_beta _ mh) as [b|e]; [|reflexivity].
  cbn [bind]. rewrite try_event_day. cbn [bind].
  destruct (find on_event_date (returns target_close)) as [xt|];
    [|reflexivity].
  destruct (find on_event_date (returns market_close)) as [xm|];
    reflexivity.
Qed.

Lemma series_sub_same_index (a b : series) :
  index a = index b ->
  series_sub a b = map2 (fun ra rb => (fst ra, (snd ra - snd rb)%F)) a b.
Proof.
  intro H. unfold series_sub.
  assert (E : index_eqb (index a) (index b) = true).
  { rewrite H. clear H. unfold index_eqb. rewrite Nat.eqb_refl. simpl.
    generalize (index b). intro l.
    induction l as [|t l IH]; [reflexivity|].
    simpl. rewrite Z.eqb_refl. exact IH. }
  rewrite E. reflexivity.
Qed.

Lemma significant_iff (r : beta_result) :
  significant r = true
  <-> (exists q, z_score r = Fin q /\ 196 # 100 < Qabs q)
      \/ z_score r = PInf \/ z_score r = NInf.
Proof.
  unfold significant, fgtb. destruct (z_score r) as [q| | |]; simpl.
  - rewrite Qltb_lt. split.
    + intro H. left. exists q. split; [reflexivity | exact H].
    + intros [[q' [[= <-] H]]|[H|H]]; [exact H | discriminate | discriminate].
  - split; [auto | reflexivity].
  - split; [auto | reflexivity].
  - split; [discriminate|].
    intros [[q' [H _]]|[H|H]]; discriminate.
Qed.

(** C3.  Whenever the daily analysis returns a result, the result is made
    as follows: the observed returns are those of the first row on the
    event date in each return series; beta is the slope fitted on the rows
    before the event date; expected = beta × benchmark event-day return;
    abnormal = observed − expected; z-score = abnormal / std of the
    residuals target − beta·benchmark of the history (row by row when the
    two histories carry the same dates); and the caller declares
    significance exactly when |z| > 1.96. *)
Theorem beta_event_result (sqrtQ : Q -> Q) (target_df market_df : option frame)
        (r : beta_result) :
  run_beta_analysis sqrtQ target_df market_df = Ok (Some r) ->
  exists (target_close market_close : frame) (market_hist : series)
         (xt xm : timestamp * fnum),
    let target_rets := returns target_close in
    let market_rets := returns market_close in
    let target_hist := filter (fun row => before_event (fst row)) target_rets in
    let residuals := series_sub target_hist (scale (beta r) market_hist) in
    target_df = Some target_close
    /\ market_df = Some market_close
    /\ getitem_mask market_rets (history_mask target_rets) = Ok market_hist
    /\ calculate_beta target_hist market_hist = Ok (beta r)
    /\ find on_event_date target_rets = Some xt
    /\ find on_event_date market_rets = Some xm
    /\ event_return r = snd xt
    /\ expected_return r = (beta r * snd xm)%F
    /\ abnormal_return r = (event_return r - expected_return r)%F
    /\ z_score r = (abnormal_return r / std sqrtQ residuals)%F
    /\ (index target_hist = index market_hist ->
        residuals
        = map2 (fun rt rm => (fst rt, (snd rt - beta r * snd rm)%F))
               target_hist market_hist)
    /\ (significant r = true
        <-> (exists q, z_score r = Fin q /\ 196 # 100 < Qabs q)
            \/ z_score r = PInf \/ z_score r = NInf).
Proof.
  intro H.
  destruct target_df as [tc|]; [|discriminate].
  destruct market_df as [mc|]; [|discriminate].
  rewrite run_beta_analysis_eq in H. cbv zeta in H.
  destruct (getitem_mask (returns mc) _) as [mh|e] eqn:Emh; [|discriminate].
  cbn [bind] in H.
  destruct (calculate_beta _ mh) as [b|e] eqn:Eb; [|discriminate].
  cbn [bind] in H.
  destruct (find on_event_date (returns tc)) as [xt|] eqn:Et; [|discriminate].
  destruct (find on_event_date (returns mc)) as [xm|] eqn:Em; [|discriminate].
  injection H as <-.
  exists tc, mc, mh, xt, xm. cbn [beta event_return expected_return
                                  abnormal_return z_score].
  repeat match goal with |- _ /\ _ => split end;
    try assumption; try reflexivity.
  - intro Hidx. rewrite series_sub_same_index.
    + unfold scale. clear.
      generalize (filter (fun row => before_event (fst row)) (returns tc)).
      intro th. revert th.
      induction mh as [|m mh IH]; intros [|t th]; try reflexivity.
      simpl. rewrite IH. reflexivity.
    + rewrite Hidx. unfold scale, index. rewrite map_map. reflexivity.
  - apply (significant_iff {| beta := b; event_return := snd xt;
                              expected_return := _; abnormal_return := _;
                              z_score := _ |}).
Qed.

Lemma beta_event_result_witness :
  exists r,
    run_beta_analysis sqrt_approx (Some sample_target) (Some sample_market)
    = Ok (Some r)
    /\ beta r = Fin (-67 # 2550)
    /\ event_return r = Fin (1 # 2)
    /\ expected_return r = (beta r * Fin (1 # 3))%F
    /\ abnormal_return r = (event_return r - expected_return r)%F
    /\ significant r = false.
Proof.
  destruct (run_beta_analysis sqrt_approx (Some sample_target)
                              (Some sample_market)) as [[r|]|e] eqn:E;
    try (vm_compute in E; discriminate E).
  exists r. split; [reflexivity|].
  destruct (beta_event_result _ _ _ _ E)
    as (tc & mc & mh & xt & xm & Ht & Hm & Hmh & Hb & Hxt & Hxm
        & Hev & Hexp & Habn & Hz & _ & _).
  injection Ht as <-. injection Hm as <-.
  assert (Hxm' : snd xm = Fin (1 # 3)).
  { vm_compute in Hxm. injection Hxm as <-. reflexivity. }
  assert (Hxt' : snd xt = Fin (1 # 2)).
  { vm_compute in Hxt. injection Hxt as <-. reflexivity. }
  rewrite <- Hxm', <- Hxt', <- Hev.
  repeat split; try assumption.
  - vm_compute in E. injection E as <-. reflexivity.
  - vm_compute in E. injection E as <-. vm_compute. reflexivity.
Defined.

(** A result is returned whenever the event date is in both return
    indexes, the history mask fits the benchmark series and the beta fit
    does not raise. *)
Lemma beta_analysis_returns_result (sqrtQ : Q -> Q)
      (target_close market_close : frame) (market_hist : series) (b : fnum)
      (xt xm : timestamp * fnum) :
  find on_event_date (returns target_close) = Some xt ->
  find on_event_date (returns market_close) = Some xm ->
  getitem_mask (returns market_close) (history_mask (returns target_close))
  = Ok market_hist ->
  calculate_beta
    (filter (fun r => before_event (fst r)) (returns target_close)) market_hist
  = Ok b ->
  exists r,
    run_beta_analysis sqrtQ (Some target_close) (Some market_close)
    = Ok (Some r)
    /\ beta r = b /\ event_return r = snd xt.
Proof.
  intros Ht Hm Hmh Hb.
  rewrite run_beta_analysis_eq. cbv zeta. rewrite Hmh. cbn [bind].
  rewrite Hb. cbn [bind]. rewrite Ht, Hm.
  eexists. split; [reflexivity|]. split; reflexivity.
Qed.

(** ** C4: an event date missing from an index *)

(** On the paths the function guards, a missing event date gives "no
    result": when the history mask fits the benchmark series and the beta
    fit does not raise, the analysis returns [None]. *)
Lemma beta_analysis_skips_missing_date (sqrtQ : Q -> Q)
      (target_close market_close : frame) (market_hist : series) (b : fnum) :
  find on_event_date (returns target_close) = None
  \/ find on_event_date (returns market_close) = None ->
  getitem_mask (returns market_close) (history_mask (returns target_close))
  = Ok market_hist ->
  calculate_beta
    (filter (fun r => before_event (fst r)) (returns target_close)) market_hist
  = Ok b ->
  run_beta_analysis sqrtQ (Some target_close) (Some market_close) = Ok None.
Proof.
  intros Habsent Hmh Hb.
  rewrite run_beta_analysis_eq. cbv zeta. rewrite Hmh. cbn [bind].
  rewrite Hb. cbn [bind].
  destruct Habsent as [H|H]; rewrite H; [reflexivity|].
  destruct (find on_event_date (returns target_close)); reflexivity.
Qed.

(** The history mask is built from the target's index and applied to the
    benchmark's returns by position (line 79, outside the [try]): two
    return series of different lengths raise [IndexError], whether or not
    the event date is there. *)
Lemma beta_analysis_unequal_lengths (sqrtQ : Q -> Q)
      (target_close market_close : frame) :
  length (returns target_close) <> length (returns market_close) ->
  run_beta_analysis sqrtQ (Some target_close) (Some market_close)
  = Raise IndexError.
Proof.
  intro H. rewrite run_beta_analysis_eq. cbv zeta.
  rewrite getitem_mask_mismatch; [reflexivity|].
  unfold history_mask, index. rewrite !length_map. exact H.
Qed.

(** C4 (the code departs from it).  Three daily bars of the target and
    two of the benchmark, none on the event date: the event date is absent
    from both return indexes, yet the analysis does not return "no
    result"; it raises [IndexError]. *)
Theorem missing_date_raises_on_unequal_lengths :
  find on_event_date (returns stale_target) = None
  /\ find on_event_date (returns stale_market) = None
  /\ run_beta_analysis sqrt_approx (Some stale_target) (Some stale_market)
     = Raise IndexError.
Proof.
  repeat split; vm_compute; reflexivity.
Qed.

(** ** C7: a residual standard deviation of zero *)

(** [calculate_z_score] guards the division: a zero standard deviation
    gives NaN. *)
Lemma calculate_z_score_zero_std (sqrtQ : Q -> Q) (v : fnum) (history : series) :
  std sqrtQ history ≈ Fin 0 -> calculate_z_score sqrtQ v history = NaN.
Proof.
  intro H. unfold calculate_z_score.
  destruct (std sqrtQ history) as [q| | |]; try discriminate H.
  simpl. apply feq_Fin in H. apply Qeq_bool_iff in H. rewrite H. reflexivity.
Qed.

(** C7 (the code departs from it).  A target that follows the benchmark
    bar for bar over 35 days of history and then moves by +100% on the
    event day against +1/3 for the benchmark: beta is 1, every historical
    residual is 0, their standard deviation is exactly 0, and
    [run_beta_analysis], which divides without the guard of
    [calculate_z_score], reports the z-score +infinity, not NaN; the caller
    flags it as significant.  No exception is raised and the other fields
    are finite. *)
Theorem zero_residual_std_gives_infinite_z :
  let target_hist :=
    filter (fun r => before_event (fst r)) (returns sample_tracking_target) in
  let market_hist :=
    filter (fun r => before_event (fst r)) (returns sample_market) in
  std sqrt_approx (series_sub target_hist (scale (Fin 1) market_hist)) = Fin 0
  /\ run_beta_analysis sqrt_approx (Some sample_tracking_target)
                       (Some sample_market)
     = Ok (Some {| beta := Fin 1;
                   event_return := Fin 1;
                   expected_return := Fin (1 # 3);
                   abnormal_return := Fin (2 # 3);
                   z_score := PInf |})
  /\ significant {| beta := Fin 1;
                    event_return := Fin 1;
                    expected_return := Fin (1 # 3);
                    abnormal_return := Fin (2 # 3);
                    z_score := PInf |} = true
  /\ calculate_z_score sqrt_approx (Fin (2 # 3))
       (series_sub target_hist (scale (Fin 1) market_hist)) = NaN.
Proof.
  repeat split; vm_compute; reflexivity.
Qed.

(** ** C8: alignment on the common timestamps *)

Import Loader.

Lemma unique_In (t : timestamp) (l : list timestamp) :
  In t (unique l) <-> In t l.
Proof.
  induction l as [|x l IH]; [reflexivity|].
  cbn [unique]. split.
  - intros [->|H]; [left; reflexivity|].
    apply filter_In in H. right. apply IH. apply H.
  - intros [->|H]; [left; reflexivity|].
    destruct (Z.eqb_spec t x) as [->|Hne]; [left; reflexivity|].
    right. apply filter_In. split; [apply IH; exact H|].
    apply negb_true_iff. apply Z.eqb_neq. exact Hne.
Qed.

Lemma unique_NoDup (l : list timestamp) : NoDup (unique l).
Proof.
  induction l as [|x l IH]; [constructor|].
  cbn [unique]. constructor.
  - intro H. apply filter_In in H. destruct H as [_ H].
    rewrite Z.eqb_refl in H. discriminate.
  - apply NoDup_filter. exact IH.
Qed.

Lemma mem_In (t : timestamp) (l : list timestamp) : mem t l = true <-> In t l.
Proof.
  unfold mem. rewrite existsb_exists. split.
  - intros [x [Hx E]]. apply Z.eqb_eq in E. subst. exact Hx.
  - intro H. exists t. split; [exact H | apply Z.eqb_refl].
Qed.

Lemma intersection_In (t : timestamp) (a b : list timestamp) :
  In t (intersection a b) <-> In t a /\ In t b.
Proof.
  unfold intersection. rewrite unique_In, filter_In, mem_In. reflexivity.
Qed.

Lemma intersection_NoDup (a b : list timestamp) : NoDup (intersection a b).
Proof. apply unique_NoDup. Qed.

Lemma filter_label_absent {A : Type} (t : timestamp) (s : list (timestamp * A)) :
  ~ In t (index s) -> filter (fun r => Z.eqb (fst r) t) s = [].
Proof.
  induction s as [|r s IH]; intro H; [reflexivity|].
  cbn [filter]. destruct (Z.eqb _ t) eqn:E.
  - exfalso. apply H. left. apply Z.eqb_eq. exact E.
  - apply IH. intro Hin. apply H. right. exact Hin.
Qed.

Lemma filter_label_single {A : Type} (t : timestamp) (s : list (timestamp * A)) :
  NoDup (index s) -> In t (index s) ->
  exists v, In (t, v) s /\ filter (fun r => Z.eqb (fst r) t) s = [(t, v)].
Proof.
  induction s as [|[u v] s IH]; intros Hnd Hin; [contradiction|].
  cbn [index map fst] in Hnd, Hin. inversion Hnd as [|x l Hx Hl]; subst.
  cbn [filter fst]. destruct (Z.eqb u t) eqn:E.
  - apply Z.eqb_eq in E. subst u.
    exists v. split; [left; reflexivity|].
    rewrite (filter_label_absent t s Hx). reflexivity.
  - apply Z.eqb_neq in E.
    destruct Hin as [Hin|Hin]; [contradiction|].
    destruct (IH Hl Hin) as [w [Hw Hf]].
    exists w. split; [right; exact Hw | exact Hf].
Qed.

Lemma loc_index {A : Type} (s : list (timestamp * A)) (idx : list timestamp) :
  NoDup (index s) -> incl idx (index s) -> index (loc s idx) = idx.
Proof.
  intros Hnd. induction idx as [|t idx IH]; intro Hincl; [reflexivity|].
  unfold loc. cbn [flat_map]. unfold index. rewrite map_app.
  destruct (filter_label_single t s Hnd (Hincl t (or_introl eq_refl)))
    as [v [_ Hf]].
  rewrite Hf. cbn [map fst app]. f_equal.
  apply IH. intros x Hx. apply Hincl. right. exact Hx.
Qed.

Lemma index_length {A : Type} (s : list (timestamp * A)) :
  length (index s) = length s.
Proof. apply length_map. Qed.

(** C8.  Two or three price series without repeated timestamps, aligned
    on the intersection of their timestamps as [run_spread_placebo] and
    [run_factor_model] do, come out with the same timestamps position by
    position (the common ones), hence with equal lengths, and no longer
    than the shortest input. *)
Theorem alignment_on_intersection (a b c : frame) :
  NoDup (index a) -> NoDup (index b) -> NoDup (index c) ->
  (let '(a2, b2) := align2 a b in
   index a2 = intersection (index a) (index b)
   /\ index b2 = index a2
   /\ length a2 = length b2
   /\ (length a2 <= Nat.min (length a) (length b))%nat)
  /\
  (let '(a3, b3, c3) := align3 a b c in
   index a3 = intersection (intersection (index a) (index b)) (index c)
   /\ index b3 = index a3
   /\ index c3 = index a3
   /\ length a3 = length b3
   /\ length b3 = length c3
   /\ (length a3 <= Nat.min (length a) (Nat.min (length b) (length c)))%nat).
Proof.
  intros Ha Hb Hc.
  assert (Hlen : forall (s : frame) (idx : list timestamp),
             NoDup (index s) -> NoDup idx -> incl idx (index s) ->
             index (loc s idx) = idx /\ (length (loc s idx) <= length s)%nat).
  { intros s idx Hs Hidx Hincl.
    assert (E := loc_index s idx Hs Hincl). split; [exact E|].
    rewrite <- (index_length (loc s idx)), E, <- (index_length s).
    apply NoDup_incl_length; assumption. }
  split.
  - unfold align2.
    set (common := intersection (index a) (index b)).
    destruct (Hlen a common Ha (intersection_NoDup _ _)) as [Ea La].
    { intros t Ht. apply intersection_In in Ht. apply Ht. }
    destruct (Hlen b common Hb (intersection_NoDup _ _)) as [Eb Lb].
    { intros t Ht. apply intersection_In in Ht. apply Ht. }
    assert (El : length (loc a common) = length (loc b common)).
    { rewrite <- (index_length (loc a common)), <- (index_length (loc b common)).
      congruence. }
    repeat split; try congruence.
    apply Nat.min_glb; [exact La | rewrite El; exact Lb].
  - unfold align3.
    set (common := intersection (intersection (index a) (index b)) (index c)).
    assert (Hin : forall t, In t common ->
                            In t (index a) /\ In t (index b) /\ In t (index c)).
    { intros t Ht. apply intersection_In in Ht. destruct Ht as [Hab Hc'].
      apply intersection_In in Hab. tauto. }
    destruct (Hlen a common Ha (intersection_NoDup _ _)) as [Ea La].
    { intros t Ht. apply (Hin t Ht). }
    destruct (Hlen b common Hb (intersection_NoDup _ _)) as [Eb Lb].
    { intros t Ht. apply (Hin t Ht). }
    destruct (Hlen c common Hc (intersection_NoDup _ _)) as [Ec Lc].
    { intros t Ht. apply (Hin t Ht). }
    assert (Eab : length (loc a common) = length (loc b common)).
    { rewrite <- (index_length (loc a common)), <- (index_length (loc b common)).
      congruence. }
    assert (Ebc : length (loc b common) = length (loc c common)).
    { rewrite <- (index_length (loc b common)), <- (index_length (loc c common)).
      congruence. }
    repeat split; try congruence.
    apply Nat.min_glb; [exact La|].
    apply Nat.min_glb; [rewrite Eab; exact Lb | rewrite Eab, Ebc; exact Lc].
Qed.

Lemma alignment_on_intersection_witness :
  let a := [(570%Z, 10 # 1); (575%Z, 11 # 1); (580%Z, 12 # 1)] in
  let b := [(575%Z, 70 # 1); (580%Z, 71 # 1); (585%Z, 72 # 1)] in
  let c := [(570%Z, 5 # 1); (580%Z, 6 # 1)] in
  NoDup (index a) /\ NoDup (index b) /\ NoDup (index c)
  /\ index (fst (align2 a b)) = [575%Z; 580%Z]
  /\ index (snd (align2 a b)) = index (fst (align2 a b))
  /\ index (snd (align3 a b c)) = [580%Z].
Proof.
  intros a b c.
  assert (Ha : NoDup (index a)).
  { repeat constructor; simpl; intuition discriminate. }
  assert (Hb : NoDup (index b)).
  { repeat constructor; simpl; intuition discriminate. }
  assert (Hc : NoDup (index c)).
  { repeat constructor; simpl; intuition discriminate. }
  destruct (alignment_on_intersection a b c Ha Hb Hc) as [H2 H3].
  destruct (align2 a b) as [a2 b2] eqn:E2.
  destruct (align3 a b c) as [[a3 b3] c3] eqn:E3.
  destruct H2 as [H2a [H2b _]]. destruct H3 as [H3a [_ [H3c _]]].
  split; [exact Ha|]. split; [exact Hb|]. split; [exact Hc|].
  split; [|split].
  - cbn [fst]. rewrite H2a. reflexivity.
  - cbn [fst snd]. exact H2b.
  - cbn [snd]. rewrite H3c, H3a. reflexivity.
Defined.

(** The hypothesis is the PriceSeries invariant.  A frame that repeats
    a timestamp is not a price series, and [.loc] returns every row of
    the repeated label: the two outputs then differ in length. *)
Example alignment_of_repeated_timestamps :
  let a := [(570%Z, 10 # 1); (570%Z, 11 # 1)] in
  let b := [(570%Z, 70 # 1)] in
  length (fst (align2 a b)) = 2%nat /\ length (snd (align2 a b)) = 1%nat.
Proof. split; reflexivity. Qed.

(** ** The loader keeps timestamps distinct and rows genuine *)

Lemma index_filter_incl {A : Type} (P : timestamp * A -> bool)
      (s : list (timestamp * A)) :
  incl (index (filter P s)) (index s).
Proof.
  intros t Ht. unfold index in *. apply in_map_iff in Ht.
  destruct Ht as [r [E Hr]]. apply filter_In in Hr.
  apply in_map_iff. exists r. split; [exact E | apply Hr].
Qed.

Lemma NoDup_index_filter {A : Type} (P : timestamp * A -> bool)
      (s : list (timestamp * A)) :
  NoDup (index s) -> NoDup (index (filter P s)).
Proof.
  induction s as [|r s IH]; intro H; [constructor|].
  cbn [index map] in H. inversion H as [|x l Hx Hl]; subst.
  cbn [filter]. destruct (P r).
  - cbn [index map]. constructor; [|exact (IH Hl)].
    intro Hin. apply Hx. exact (index_filter_incl P s _ Hin).
  - exact (IH Hl).
Qed.

Lemma drop_duplicated_incl (s : frame) : incl (drop_duplicated s) s.
Proof.
  induction s as [|r s IH]; intros x Hx; [contradiction|].
  cbn [drop_duplicated] in Hx. destruct Hx as [<-|Hx]; [left; reflexivity|].
  apply filter_In in Hx. right. apply IH. apply Hx.
Qed.

Lemma drop_duplicated_NoDup (s : frame) : NoDup (index (drop_duplicated s)).
Proof.
  induction s as [|r s IH]; [constructor|].
  cbn [drop_duplicated index map]. constructor.
  - intro Hin. apply in_map_iff in Hin. destruct Hin as [u [E Hu]].
    apply filter_In in Hu. destruct Hu as [_ Hu].
    apply negb_true_iff, Z.eqb_neq in Hu. contradiction.
  - apply NoDup_index_filter. exact IH.
Qed.

Lemma insert_row_perm (r : timestamp * Q) (s : frame) :
  Permutation (insert_row r s) (r :: s).
Proof.
  induction s as [|u s IH]; [reflexivity|].
  cbn [insert_row]. destruct (fst r <=? fst u)%Z; [reflexivity|].
  rewrite IH. apply perm_swap.
Qed.

Lemma sort_index_perm (s : frame) : Permutation (sort_index s) s.
Proof.
  induction s as [|r s IH]; [reflexivity|].
  unfold sort_index in *. cbn [fold_right].
  rewrite insert_row_perm. constructor. exact IH.
Qed.

Lemma normalize_incl (raw : frame) : incl (normalize raw) raw.
Proof.
  intros x Hx. unfold normalize, between_time in Hx.
  apply filter_In in Hx. destruct Hx as [Hx _].
  apply (Permutation_in _ (sort_index_perm _)) in Hx.
  exact (drop_duplicated_incl raw x Hx).
Qed.

Lemma normalize_NoDup (raw : frame) : NoDup (index (normalize raw)).
Proof.
  unfold normalize, between_time. apply NoDup_index_filter.
  apply (Permutation_NoDup
           (Permutation_sym (Permutation_map fst (sort_index_perm _)))).
  apply drop_duplicated_NoDup.
Qed.

Lemma loc_incl {A : Type} (s : list (timestamp * A)) (idx : list timestamp) :
  incl (loc s idx) s.
Proof.
  intros x Hx. unfold loc in Hx. apply in_flat_map in Hx.
  destruct Hx as [t [_ Hx]]. apply filter_In in Hx. apply Hx.
Qed.

Lemma positive_closes_incl (s s' : frame) :
  incl s' s -> positive_closes s -> positive_closes s'.
Proof.
  unfold positive_closes. rewrite !Forall_forall. intros Hi H x Hx.
  apply H. apply Hi. exact Hx.
Qed.

(** ** C5: the percentile rank *)

Import SpreadControl.

#[export] Instance fdiv_Proper : Proper (feq ==> feq ==> feq) fdiv.
Proof.
  intros x x' Hx y y' Hy.
  destruct x, x'; try discriminate Hx; destruct y, y'; try discriminate Hy;
    try reflexivity;
    try (apply feq_Fin in Hx); try (apply feq_Fin in Hy); cbn [fdiv].
  - rewrite (Qzerob_Proper _ _ Hx), (Qzerob_Proper _ _ Hy).
    unfold Qposb. rewrite (Qltb_Proper 0 0 _ _ (Qeq_refl 0) Hx).
    destruct (Qzerob q2); [reflexivity|].
    apply feq_Fin. rewrite !Qred_correct, Hx, Hy. reflexivity.
  - unfold Qnegb. rewrite (Qltb_Proper _ _ 0 0 Hy (Qeq_refl 0)). reflexivity.
  - unfold Qnegb. rewrite (Qltb_Proper _ _ 0 0 Hy (Qeq_refl 0)). reflexivity.
Qed.

Lemma fsum_fins_from (qs : list Q) (acc : fnum) (a : Q) :
  acc ≈ Fin a -> fold_left fadd (map Fin qs) acc ≈ Fin (a + Qsum qs).
Proof.
  revert acc a. induction qs as [|q qs IH]; intros acc a H.
  - simpl. rewrite H. apply feq_Fin. unfold Qsum. simpl. ring.
  - cbn [map fold_left].
    rewrite (IH (acc + Fin q)%F (a + q)).
    + apply feq_Fin. unfold Qsum. simpl. ring.
    + rewrite H. apply fadd_Fin.
Qed.

Lemma fsum_fins (qs : list Q) : fsum (map Fin qs) ≈ Fin (Qsum qs).
Proof.
  unfold fsum. rewrite (fsum_fins_from qs (Fin 0) 0 (feq_refl _)).
  apply feq_Fin. ring.
Qed.

Lemma Qnat_S (n : nat) : Qnat (S n) == 1 + Qnat n.
Proof.
  unfold Qnat. rewrite Nat2Z.inj_succ, <- Z.add_1_l, inject_Z_plus.
  reflexivity.
Qed.

Lemma Qnat_pos (n : nat) : (0 < n)%nat -> 0 < Qnat n.
Proof.
  intro H. unfold Qnat. change 0 with (inject_Z 0).
  rewrite <- Zlt_Qlt. lia.
Qed.

Lemma Qnat_nonneg (n : nat) : 0 <= Qnat n.
Proof.
  unfold Qnat. change 0 with (inject_Z 0). rewrite <- Zle_Qle. lia.
Qed.

Lemma Qsum_indicator (xs : list Q) (v : Q) :
  Qsum (map (fun x => if Qltb x v then 1 else 0) xs) == Qnat (count_below xs v).
Proof.
  unfold count_below. induction xs as [|x xs IH]; [reflexivity|].
  cbn [map filter]. unfold Qsum in *. cbn [fold_right].
  destruct (Qltb x v); cbn [length].
  - rewrite Qnat_S, IH. reflexivity.
  - rewrite IH. ring.
Qed.

(** the rank that the script prints, on a sample of finite values *)
Lemma percentile_rank_fraction (xs : list Q) (v : Q) :
  xs <> [] ->
  percentile_rank (map Fin xs) (Fin v)
  ≈ Fin (100 * (Qnat (count_below xs v) / Qnat (length xs))).
Proof.
  intro Hne. unfold percentile_rank, np_mean.
  rewrite map_map.
  assert (E : map (fun x => if fltb (Fin x) (Fin v) then Fin 1 else Fin 0) xs
              = map Fin (map (fun x => if Qltb x v then 1 else 0) xs)).
  { rewrite map_map. apply map_ext. intro x. cbn [fltb].
    destruct (Qltb x v); reflexivity. }
  rewrite E, length_map, length_map, fsum_fins.
  unfold of_nat. fold (Qnat (length xs)).
  assert (Hn : ~ Qnat (length xs) == 0).
  { assert (0 < Qnat (length xs)); [|lra].
    apply Qnat_pos. destruct xs; [congruence | simpl; lia]. }
  rewrite (fdiv_Fin _ _ Hn), fmul_Fin.
  apply feq_Fin. rewrite Qsum_indicator. field. exact Hn.
Qed.

Lemma count_below_min (xs : list Q) (v : Q) :
  (forall x, In x xs -> v <= x) -> count_below xs v = 0%nat.
Proof.
  unfold count_below. induction xs as [|x xs IH]; intro H; [reflexivity|].
  cbn [filter].
  assert (Hx : Qltb x v = false).
  { apply Qltb_ge. apply H. left. reflexivity. }
  rewrite Hx. apply IH. intros y Hy. apply H. right. exact Hy.
Qed.

Lemma count_below_max (xs : list Q) (v : Q) :
  (forall x, In x xs -> x <= v) ->
  (count_below xs v + count_equal xs v = length xs)%nat.
Proof.
  unfold count_below, count_equal.
  induction xs as [|x xs IH]; intro H; [reflexivity|].
  cbn [filter length].
  assert (Hx := H x (or_introl eq_refl)).
  specialize (IH (fun y Hy => H y (or_intror Hy))).
  destruct (Qltb x v) eqn:El, (Qeq_bool x v) eqn:Ee; cbn [length].
  - apply Qltb_lt in El. apply Qeq_bool_iff in Ee. lra.
  - lia.
  - lia.
  - apply Qltb_ge in El. exfalso.
    assert (E : x == v) by lra.
    apply Qeq_bool_iff in E. congruence.
Qed.

(** C5, as the code has it.  On a non-empty baseline sample the reported
    percentile of an event value [v] is 100 times the fraction of sample
    values strictly less than [v]; a [v] at or below the sample minimum
    gets 0; a [v] equal to the sample maximum gets [100·(n − k)/n], where
    [k] days attain the maximum, which is [100·(n − 1)/n] when the maximum
    is attained once. *)
Theorem percentile_rank_strictly_less (xs : list Q) (v : Q) :
  xs <> [] ->
  let n := length xs in
  let p := percentile_rank (map Fin xs) (Fin v) in
  p ≈ Fin (100 * (Qnat (count_below xs v) / Qnat n))
  /\ ((forall x, In x xs -> v <= x) -> p ≈ Fin 0)
  /\ ((forall x, In x xs -> x <= v) ->
      p ≈ Fin (100 * (Qnat (n - count_equal xs v) / Qnat n)))
  /\ ((forall x, In x xs -> x <= v) -> count_equal xs v = 1%nat ->
      p ≈ Fin (100 * (Qnat (n - 1) / Qnat n))).
Proof.
  intros Hne n p.
  assert (Hp := percentile_rank_fraction xs v Hne). fold n p in Hp.
  assert (Hmax : (forall x, In x xs -> x <= v) ->
                 p ≈ Fin (100 * (Qnat (n - count_equal xs v) / Qnat n))).
  { intro H. rewrite Hp.
    assert (E := count_below_max xs v H). fold n in E.
    replace (n - count_equal xs v)%nat with (count_below xs v) by lia.
    reflexivity. }
  split; [exact Hp|]. split; [|split].
  - intro H. rewrite Hp, (count_below_min xs v H).
    apply feq_Fin. unfold Qnat at 1. simpl. unfold Qdiv. ring.
  - exact Hmax.
  - intros H Hk. rewrite <- Hk. exact (Hmax H).
Qed.

Lemma percentile_rank_strictly_less_witness :
  let xs := [1 # 2; 3 # 4; 2 # 1; 1 # 10] in
  xs <> []
  /\ (forall x, In x xs -> x <= 2 # 1)
  /\ count_equal xs (2 # 1) = 1%nat
  /\ percentile_rank (map Fin xs) (Fin (2 # 1)) ≈ Fin (100 * (Qnat 3 / Qnat 4))
  /\ percentile_rank (map Fin xs) (Fin (1 # 20)) ≈ Fin 0.
Proof.
  intros xs.
  assert (Hne : xs <> []) by discriminate.
  assert (Hmax : forall x, In x xs -> x <= 2 # 1).
  { intros x [<-|[<-|[<-|[<-|[]]]]]; discriminate. }
  assert (Hmin : forall x, In x xs -> 1 # 20 <= x).
  { intros x [<-|[<-|[<-|[<-|[]]]]]; discriminate. }
  destruct (percentile_rank_strictly_less xs (2 # 1) Hne) as [_ [_ [_ H1]]].
  destruct (percentile_rank_strictly_less xs (1 # 20) Hne) as [_ [H0 _]].
  split; [exact Hne|]. split; [exact Hmax|]. split; [reflexivity|].
  split; [exact (H1 Hmax eq_refl) | exact (H0 Hmin)].
Defined.

(** Two baseline days with the same, maximal statistic: an event value
    equal to that maximum has no day strictly below it and gets the
    percentile 0, not [100·(n − 1)/n = 50]. *)
Lemma percentile_rank_tied_maximum :
  let xs := [1 # 1; 1 # 1] in
  let n := length xs in
  (forall x, In x xs -> x <= 1 # 1)
  /\ In (1 # 1) xs
  /\ percentile_rank (map Fin xs) (Fin (1 # 1)) ≈ Fin 0
  /\ ~ percentile_rank (map Fin xs) (Fin (1 # 1))
       ≈ Fin (100 * (Qnat (n - 1) / Qnat n)).
Proof.
  intros xs n. split; [|split; [|split]].
  - intros x [<-|[<-|[]]]; discriminate.
  - left. reflexivity.
  - vm_compute. reflexivity.
  - vm_compute. discriminate.
Qed.

(** ** C9: the sub-window after the boundary timestamp *)

Import FactorModel.





Lemma filter_index_all {A : Type} (p : timestamp -> bool)
      (s : list (timestamp * A)) :
  Forall (fun t => p t = true) (index s) ->
  filter (fun r => p (fst r)) s = s.
Proof.
  induction s as [|r s IH]; intro H; [reflexivity|].
  cbn [index map] in H. inversion H as [|x l Hx Hl]; subst.
  cbn [filter]. rewrite Hx. f_equal. exact (IH Hl).
Qed.

Lemma filter_index_none {A : Type} (p : timestamp -> bool)
      (s : list (timestamp * A)) :
  Forall (fun t => p t = false) (index s) ->
  filter (fun r => p (fst r)) s = [].
Proof.
  induction s as [|r s IH]; intro H; [reflexivity|].
  cbn [index map] in H. inversion H as [|x l Hx Hl]; subst.
  cbn [filter]. rewrite Hx. exact (IH Hl).
Qed.

Lemma fins_index (rs : list (timestamp * Q)) : index (fins rs) = index rs.
Proof. unfold fins, index. rewrite map_map. reflexivity. Qed.






(** ** C10: the daily maximum of the normalized spread *)

Lemma fold_fmax2_ge (vs : list fnum) :
  Forall (fun v => is_finite v = true) vs ->
  forall q, exists m, fold_left fmax2 vs (Fin q) = Fin m /\ q <= m.
Proof.
  induction 1 as [|v vs Hv Hvs IH]; intro q.
  - exists q. split; [reflexivity | lra].
  - destruct v as [a| | |]; try discriminate Hv.
    cbn [fold_left]. unfold fmax2 at 2. cbn [isnan orb fltb].
    destruct (Qltb q a) eqn:E.
    + apply Qltb_lt in E. destruct (IH a) as [m [Hm Hle]].
      exists m. split; [exact Hm | lra].
    + destruct (IH q) as [m [Hm Hle]]. exists m. split; assumption.
Qed.

Lemma notna_finite (vs : list fnum) :
  Forall (fun v => is_finite v = true) vs -> notna vs = vs.
Proof.
  induction 1 as [|v vs Hv Hvs IH]; [reflexivity|].
  unfold notna in *. cbn [filter]. destruct v; try discriminate Hv.
  cbn [isnan negb]. f_equal. exact IH.
Qed.

Lemma reps_finite (s : series) (rs : list (timestamp * Q)) :
  reps s rs -> Forall (fun v => is_finite v = true) (values s).
Proof.
  induction 1 as [|x r s rs [_ Hx] Hs IH]; [constructor|].
  cbn [values map]. constructor; [|exact IH].
  destruct (snd x); try discriminate Hx. reflexivity.
Qed.

Lemma reps_head_eq (s : series) (t : timestamp) (q q' : Q)
      (rs : list (timestamp * Q)) :
  reps s ((t, q) :: rs) -> q == q' -> reps s ((t, q') :: rs).
Proof.
  intros H E. inversion H as [|x r s' rs' [Ht Hv] Hs']; subst.
  constructor; [|exact Hs']. split; [exact Ht|].
  cbn [snd] in Hv |- *. rewrite Hv. apply feq_Fin. exact E.
Qed.

Lemma smax_reps_head (s : series) (t : timestamp) (q0 : Q)
      (rs : list (timestamp * Q)) :
  reps s ((t, q0) :: rs) -> exists m, smax s = Fin m /\ q0 <= m.
Proof.
  intro H. assert (Hfin := reps_finite _ _ H).
  inversion H as [|x r s' rs' [_ Hx] Hs']; subst.
  unfold smax. rewrite (notna_finite _ Hfin).
  cbn [values map] in Hfin |- *. cbn [snd] in Hx.
  inversion Hfin as [|v vs Hv Hvs]; subst.
  destruct (feq_Fin_inv _ _ Hx) as [a [Ea Ha]]. rewrite Ea.
  destruct (fold_fmax2_ge _ Hvs a) as [m [Hm Hle]].
  exists m. split; [exact Hm | lra].
Qed.

Lemma div_scalar_index (s : frame) (k : Q) : index (div_scalar s k) = index s.
Proof. unfold div_scalar, index. rewrite map_map. reflexivity. Qed.

Lemma normalized_spread_reps (X O : frame) (x0 o0 : Q) :
  index X = index O -> ~ x0 == 0 -> ~ o0 == 0 ->
  reps (series_sub (div_scalar X x0) (div_scalar O o0))
       (map2 (fun rx ro => (fst rx, snd rx / x0 - snd ro / o0)) X O).
Proof.
  intros Hidx Hx Ho.
  rewrite series_sub_same_index
    by (rewrite !div_scalar_index; exact Hidx).
  clear Hidx. revert O.
  induction X as [|rx X IH]; intros [|ro O]; try constructor.
  - split; [reflexivity|]. cbn [fst snd].
    rewrite (fdiv_Fin _ _ Hx), (fdiv_Fin _ _ Ho), fsub_Fin. reflexivity.
  - apply IH.
Qed.

Lemma map2_length_same {A B C : Type} (f : A -> B -> C)
      (l : list A) (m : list B) :
  length l = length m -> length (map2 f l m) = length l.
Proof.
  revert m. induction l as [|a l IH]; intros [|b m] H; try discriminate;
    [reflexivity|].
  cbn [map2 length]. f_equal. apply IH. injection H as H. exact H.
Qed.

(** On an admitted day the normalized spread starts at 0, is finite on
    every bar and has at least 30 bars. *)
Lemma day_spread_starts_at_zero (xle_base oil_base : frame) (d : Z)
      (spread : series) :
  NoDup (index xle_base) -> NoDup (index oil_base) ->
  positive_closes xle_base -> positive_closes oil_base ->
  day_spread xle_base oil_base d = Ok (Some spread) ->
  exists (t : timestamp) (rs : list (timestamp * Q)),
    reps spread ((t, 0) :: rs) /\ (30 <= length spread)%nat.
Proof.
  intros Hnx Hno Hpx Hpo H. unfold day_spread in H.
  set (xd := filter (fun r => Z.eqb (date (fst r)) d) xle_base) in *.
  set (od := filter (fun r => Z.eqb (date (fst r)) d) oil_base) in *.
  assert (Hxd : NoDup (index xd)) by (apply NoDup_index_filter; exact Hnx).
  assert (Hod : NoDup (index od)) by (apply NoDup_index_filter; exact Hno).
  assert (Hpxd : positive_closes xd).
  { apply (positive_closes_incl xle_base); [|exact Hpx].
    intros x Hx. apply filter_In in Hx. apply Hx. }
  assert (Hpod : positive_closes od).
  { apply (positive_closes_incl oil_base); [|exact Hpo].
    intros x Hx. apply filter_In in Hx. apply Hx. }
  set (common := intersection (index xd) (index od)) in *.
  assert (Hix : index (loc xd common) = common).
  { apply loc_index; [exact Hxd|].
    intros t Ht. apply intersection_In in Ht. apply Ht. }
  assert (Hio : index (loc od common) = common).
  { apply loc_index; [exact Hod|].
    intros t Ht. apply intersection_In in Ht. apply Ht. }
  assert (Hplx : positive_closes (loc xd common)).
  { apply (positive_closes_incl xd); [apply loc_incl | exact Hpxd]. }
  assert (Hplo : positive_closes (loc od common)).
  { apply (positive_closes_incl od); [apply loc_incl | exact Hpod]. }
  destruct xd as [|rx0 xd']; [discriminate|].
  destruct od as [|ro0 od']; [discriminate|].
  destruct (Nat.ltb (length common) 30) eqn:E30; [discriminate|].
  apply Nat.ltb_ge in E30.
  destruct (loc (rx0 :: xd') common) as [|[tx x0] X] eqn:EX.
  { rewrite <- Hix in E30. simpl in E30. lia. }
  destruct (loc (ro0 :: od') common) as [|[to o0] O] eqn:EO.
  { rewrite <- Hio in E30. simpl in E30. lia. }
  cbn [iloc_first bind snd] in H.
  assert (Hs : spread = series_sub (div_scalar ((tx, x0) :: X) x0)
                                   (div_scalar ((to, o0) :: O) o0)).
  { injection H as <-. reflexivity. }
  clear H. rewrite Hs. clear Hs spread.
  inversion Hplx as [|x l Hx0 _]; subst. cbn [snd] in Hx0.
  inversion Hplo as [|x l Ho0 _]; subst. cbn [snd] in Ho0.
  assert (Hidx : index ((tx, x0) :: X) = index ((to, o0) :: O)) by congruence.
  assert (Hreps := normalized_spread_reps ((tx, x0) :: X) ((to, o0) :: O)
                     x0 o0 Hidx).
  assert (Hx0' : ~ x0 == 0) by lra. assert (Ho0' : ~ o0 == 0) by lra.
  specialize (Hreps Hx0' Ho0').
  cbn [map2 fst snd] in Hreps.
  exists tx, (map2 (fun rx ro => (fst rx, snd rx / x0 - snd ro / o0)) X O).
  split.
  - apply (reps_head_eq _ _ _ _ _ Hreps). field. split; assumption.
  - rewrite (reps_length _ _ Hreps). cbn [length].
    rewrite map2_length_same.
    + rewrite <- Hix in E30. cbn [index map length] in E30.
      rewrite length_map in E30. exact E30.
    + apply (f_equal (@length _)) in Hidx. cbn [index map length] in Hidx.
      rewrite !length_map in Hidx. lia.
Qed.

Lemma getitem_mask_frame_self (p : timestamp -> bool) (s : frame) :
  getitem_mask_frame s (map p (index s))
  = Ok (filter (fun r => p (fst r)) s).
Proof.
  unfold getitem_mask_frame, index. rewrite !length_map, Nat.eqb_refl.
  f_equal. apply select_mask_filter.
Qed.

Lemma baseline_frames_ok (xle oil : frame) :
  NoDup (index xle) -> NoDup (index oil) ->
  exists xb ob,
    baseline_frames xle oil = Ok (xb, ob)
    /\ incl xb xle /\ incl ob oil
    /\ NoDup (index xb) /\ NoDup (index ob).
Proof.
  intros Hx Ho. unfold baseline_frames, align2. cbv beta iota zeta.
  set (common := intersection (index xle) (index oil)).
  assert (Hix : index (loc xle common) = common).
  { apply loc_index; [exact Hx|].
    intros t Ht. apply intersection_In in Ht. apply Ht. }
  assert (Hio : index (loc oil common) = common).
  { apply loc_index; [exact Ho|].
    intros t Ht. apply intersection_In in Ht. apply Ht. }
  assert (Hc : NoDup common) by apply intersection_NoDup.
  eexists. eexists. split.
  { rewrite (getitem_mask_frame_self (fun t => (t <? baseline_end)%Z)
                                     (loc xle common)).
    cbn [bind].
    assert (Heq : index (loc xle common) = index (loc oil common))
      by congruence.
    rewrite Heq.
    rewrite (getitem_mask_frame_self (fun t => (t <? baseline_end)%Z)
                                     (loc oil common)).
    cbn [bind]. reflexivity. }
  repeat split.
  - intros x H. apply filter_In in H. apply (loc_incl xle common). apply H.
  - intros x H. apply filter_In in H. apply (loc_incl oil common). apply H.
  - apply NoDup_index_filter. rewrite Hix. exact Hc.
  - apply NoDup_index_filter. rewrite Hio. exact Hc.
Qed.

Lemma day_max_spread_nonneg (xle_base oil_base : frame) (d : Z) (v : fnum) :
  NoDup (index xle_base) -> NoDup (index oil_base) ->
  positive_closes xle_base -> positive_closes oil_base ->
  day_max_spread xle_base oil_base d = Ok (Some v) -> nonnegative v.
Proof.
  intros Hnx Hno Hpx Hpo H. unfold day_max_spread in H.
  destruct (day_spread xle_base oil_base d) as [[spread|]|e] eqn:E;
    try discriminate.
  cbn [bind option_map] in H. injection H as <-.
  destruct (day_spread_starts_at_zero _ _ _ _ Hnx Hno Hpx Hpo E)
    as [t [rs [Hreps _]]].
  exact (smax_reps_head _ _ _ _ Hreps).
Qed.

Lemma daily_loop_nonneg (xle_base oil_base : frame) (dates : list Z) :
  NoDup (index xle_base) -> NoDup (index oil_base) ->
  positive_closes xle_base -> positive_closes oil_base ->
  forall maxes,
    daily_loop xle_base oil_base dates = Ok maxes ->
    Forall nonnegative maxes.
Proof.
  intros Hnx Hno Hpx Hpo.
  induction dates as [|d dates IH]; intros maxes H.
  - injection H as <-. constructor.
  - cbn [daily_loop] in H.
    destruct (day_max_spread xle_base oil_base d) as [m|e] eqn:Ed;
      [|discriminate].
    cbn [bind] in H.
    destruct (daily_loop xle_base oil_base dates) as [rest|e];
      [|discriminate].
    cbn [bind] in H. injection H as <-.
    specialize (IH rest eq_refl).
    destruct m as [v|]; [|exact IH].
    constructor; [|exact IH].
    exact (day_max_spread_nonneg _ _ _ _ Hnx Hno Hpx Hpo Ed).
Qed.

(** C10.  With positive closes, every baseline day admitted to the
    placebo distribution (at least 30 aligned bars) has a normalized
    spread that is exactly 0 at its first bar and finite throughout, so
    the maximum of the day is at least 0; and every element of the
    sample that [run_spread_placebo] builds, the daily maxima times 100,
    is non-negative. *)
Theorem daily_max_spreads_nonnegative (sqrtQ : Q -> Q)
        (raw_xle raw_oil : frame) (rep : placebo_report) :
  positive_closes raw_xle -> positive_closes raw_oil ->
  run_spread_placebo sqrtQ raw_xle raw_oil = Ok (Some rep) ->
  (exists xle_base oil_base,
      baseline_frames (normalize raw_xle) (normalize raw_oil)
      = Ok (xle_base, oil_base)
      /\ forall (d : Z) (spread : series),
          day_spread xle_base oil_base d = Ok (Some spread) ->
          (exists (t : timestamp) (rs : list (timestamp * Q)),
              reps spread ((t, 0) :: rs) /\ (30 <= length spread)%nat)
          /\ nonnegative (smax spread))
  /\ Forall nonnegative (daily_max_spreads rep).
Proof.
  intros Hpx Hpo H. unfold run_spread_placebo in H.
  destruct raw_xle as [|rx raw_xle]; [discriminate|].
  destruct raw_oil as [|ro raw_oil]; [discriminate|].
  cbn [load_5m_data_opt] in H.
  destruct (baseline_frames_ok _ _ (normalize_NoDup (rx :: raw_xle))
                               (normalize_NoDup (ro :: raw_oil)))
    as [xb [ob [Eb [Hix [Hio [Hnx Hno]]]]]].
  assert (Hpxb : positive_closes xb).
  { apply (positive_closes_incl (rx :: raw_xle)); [|exact Hpx].
    intros x Hx. apply normalize_incl. apply Hix. exact Hx. }
  assert (Hpob : positive_closes ob).
  { apply (positive_closes_incl (ro :: raw_oil)); [|exact Hpo].
    intros x Hx. apply normalize_incl. apply Hio. exact Hx. }
  split.
  - exists xb, ob. split; [exact Eb|].
    intros d spread Hd.
    assert (H0 := day_spread_starts_at_zero _ _ _ _ Hnx Hno Hpxb Hpob Hd).
    split; [exact H0|].
    destruct H0 as [t [rs [Hreps _]]].
    exact (smax_reps_head _ _ _ _ Hreps).
  - rewrite Eb in H. cbn [bind] in H.
    destruct (daily_loop xb ob (unique_dates xb)) as [maxes|e] eqn:El;
      [|discriminate].
    cbn [bind] in H. injection H as <-. cbn [daily_max_spreads].
    assert (Hm := daily_loop_nonneg _ _ _ Hnx Hno Hpxb Hpob _ El).
    clear -Hm. induction Hm as [|v maxes [m [-> Hv]] _ IH]; [constructor|].
    cbn [map]. constructor; [|exact IH].
    exists (Qred (m * 100)). split; [reflexivity|].
    rewrite Qred_correct. nra.
Qed.

Lemma daily_max_spreads_nonnegative_witness :
  positive_closes sample_xle_5m
  /\ positive_closes sample_oil_5m
  /\ exists rep,
      run_spread_placebo sqrt_approx sample_xle_5m sample_oil_5m
      = Ok (Some rep)
      /\ daily_max_spreads rep = [Fin (25 # 7)]
      /\ Forall nonnegative (daily_max_spreads rep).
Proof.
  assert (Hx : positive_closes sample_xle_5m).
  { unfold positive_closes. apply Forall_forall. intros x Hin.
    vm_compute in Hin.
    repeat (destruct Hin as [<-|Hin]; [reflexivity|]). contradiction. }
  assert (Ho : positive_closes sample_oil_5m).
  { unfold positive_closes. apply Forall_forall. intros x Hin.
    vm_compute in Hin.
    repeat (destruct Hin as [<-|Hin]; [reflexivity|]). contradiction. }
  split; [exact Hx|]. split; [exact Ho|].
  destruct (run_spread_placebo sqrt_approx sample_xle_5m sample_oil_5m)
    as [[rep|]|e] eqn:E; try (vm_compute in E; discriminate E).
  exists rep. split; [reflexivity|]. split.
  - vm_compute in E. injection E as <-. reflexivity.
  - exact (proj2 (daily_max_spreads_nonnegative _ _ _ _ Hx Ho E)).
Defined.

(** ** C6: too few bars to fit *)

Lemma returns_length (close : list (timestamp * Q)) :
  positive_closes close -> length (returns close) = (length close - 1)%nat.
Proof.
  intro H. rewrite (reps_length _ _ (returns_reps close H)).
  destruct close as [|[t c] s]; [reflexivity|].
  cbn [simple_returns length]. rewrite simple_returns_from_length. lia.
Qed.

Lemma align3_index (a b c : frame) :
  NoDup (index a) -> NoDup (index b) -> NoDup (index c) ->
  let common := intersection (intersection (index a) (index b)) (index c) in
  index (loc a common) = common
  /\ index (loc b common) = common
  /\ index (loc c common) = common.
Proof.
  intros Ha Hb Hc common.
  assert (Hin : forall t, In t common ->
                          In t (index a) /\ In t (index b) /\ In t (index c)).
  { intros t Ht. apply intersection_In in Ht. destruct Ht as [Hab Hc'].
    apply intersection_In in Hab. tauto. }
  repeat split; apply loc_index; try assumption;
    intros t Ht; apply (Hin t Ht).
Qed.

Lemma load_5m_data_nonempty (raw : frame) :
  raw <> [] -> load_5m_data raw None = Ok (normalize raw).
Proof. destruct raw; [congruence | reflexivity]. Qed.

Section InsufficientData.
Variable sqrtQ : Q -> Q.
Variable ols : series -> series -> series -> result ols_fit.


End InsufficientData.


Lemma fsub_NaN_r (x : fnum) : (x - NaN)%F = NaN.
Proof. destruct x; reflexivity. Qed.




(** * Further properties of the code *)

(** ** models.py: outcomes of the daily analysis *)

Lemma beta_analysis_unequal_lengths_witness :
  length (returns stale_target) <> length (returns stale_market)
  /\ run_beta_analysis sqrt_approx (Some stale_target) (Some stale_market)
     = Raise IndexError.
Proof.
  assert (H : length (returns stale_target) <> length (returns stale_market)).
  { vm_compute. discriminate. }
  split; [exact H|].
  exact (beta_analysis_unequal_lengths sqrt_approx _ _ H).
Defined.

Lemma beta_analysis_skips_missing_date_witness :
  find on_event_date (returns stale_target) = None
  /\ run_beta_analysis sqrt_approx (Some stale_target) (Some stale_market_3)
     = Ok None.
Proof.
  assert (H : find on_event_date (returns stale_target) = None).
  { vm_compute. reflexivity. }
  split; [exact H|].
  apply (beta_analysis_skips_missing_date sqrt_approx stale_target
           stale_market_3
           (filter (fun r => before_event (fst r)) (returns stale_market_3))
           NaN).
  - left. exact H.
  - vm_compute. reflexivity.
  - vm_compute. reflexivity.
Defined.

Lemma fdiv_NaN_r (x : fnum) : (x / NaN)%F = NaN.
Proof. destruct x; reflexivity. Qed.

(** [calculate_z_score] gives NaN, and raises nothing, when the history
    has fewer than two values that are not NaN (its standard deviation is
    then NaN) and when its standard deviation is zero. *)
Theorem calculate_z_score_undefined (sqrtQ : Q -> Q) (v : fnum)
        (history : series) :
  (length (notna (values history)) < 2)%nat \/ std sqrtQ history ≈ Fin 0 ->
  calculate_z_score sqrtQ v history = NaN.
Proof.
  intros [H|H].
  - unfold calculate_z_score, std. apply Nat.ltb_lt in H. rewrite H.
    cbn [feq_ieee]. apply fdiv_NaN_r.
  - apply calculate_z_score_zero_std. exact H.
Qed.

Lemma calculate_z_score_undefined_witness :
  std sqrt_approx (fins [(0%Z, 1 # 50); (1%Z, 1 # 50); (2%Z, 1 # 50)]) ≈ Fin 0
  /\ calculate_z_score sqrt_approx (Fin (1 # 10))
       (fins [(0%Z, 1 # 50); (1%Z, 1 # 50); (2%Z, 1 # 50)]) = NaN
  /\ calculate_z_score sqrt_approx (Fin (1 # 10)) (fins [(0%Z, 1 # 50)]) = NaN.
Proof.
  assert (H : std sqrt_approx
                  (fins [(0%Z, 1 # 50); (1%Z, 1 # 50); (2%Z, 1 # 50)]) ≈ Fin 0).
  { vm_compute. reflexivity. }
  split; [exact H|]. split.
  - apply calculate_z_score_undefined. right. exact H.
  - apply calculate_z_score_undefined. left. vm_compute. lia.
Defined.

(** ** The loader: what [load_5m_data] returns *)

Lemma insert_row_sorted (r : timestamp * Q) (s : frame) :
  StronglySorted Z.le (index s) ->
  StronglySorted Z.le (index (insert_row r s)).
Proof.
  induction s as [|u s IH]; intro H.
  - cbn. constructor; constructor.
  - cbn [insert_row]. cbn [index map] in H.
    inversion H as [|x l Hs Hf]; subst.
    destruct (fst r <=? fst u)%Z eqn:E.
    + apply Z.leb_le in E. cbn [index map]. constructor; [exact H|].
      constructor; [exact E|].
      revert Hf. apply Forall_impl. intros a Ha. lia.
    + apply Z.leb_gt in E. cbn [index map]. constructor; [exact (IH Hs)|].
      apply (Permutation_Forall
               (Permutation_sym (Permutation_map fst (insert_row_perm r s)))).
      cbn [map]. constructor; [lia | exact Hf].
Qed.

Lemma sort_index_sorted (s : frame) : StronglySorted Z.le (index (sort_index s)).
Proof.
  induction s as [|r s IH]; [constructor|].
  unfold sort_index in *. cbn [fold_right]. apply insert_row_sorted. exact IH.
Qed.

Lemma sorted_nodup_strict (l : list Z) :
  StronglySorted Z.le l -> NoDup l -> StronglySorted Z.lt l.
Proof.
  induction 1 as [|a l Hs IH Hf]; intro Hnd; [constructor|].
  inversion Hnd as [|x l' Hx Hl]; subst.
  constructor; [exact (IH Hl)|].
  apply Forall_forall. intros b Hb.
  assert (Hle := proj1 (Forall_forall _ _) Hf b Hb).
  destruct (Z.eq_dec a b) as [->|Hne]; [contradiction | lia].
Qed.

Lemma strict_sorted_le (l : list Z) :
  StronglySorted Z.lt l -> StronglySorted Z.le l.
Proof.
  induction 1 as [|a l Hs IH Hf]; constructor; [exact IH|].
  revert Hf. apply Forall_impl. intros b Hb. lia.
Qed.

Lemma strict_sorted_NoDup (l : list Z) : StronglySorted Z.lt l -> NoDup l.
Proof.
  induction 1 as [|a l Hs IH Hf]; constructor; [|exact IH].
  intro Hin. assert (H := proj1 (Forall_forall _ _) Hf a Hin). lia.
Qed.

Lemma sorted_index_filter {A : Type} (R : Z -> Z -> Prop)
      (P : timestamp * A -> bool) (s : list (timestamp * A)) :
  StronglySorted R (index s) -> StronglySorted R (index (filter P s)).
Proof.
  induction s as [|r s IH]; intro H; [constructor|].
  cbn [index map] in H. inversion H as [|x l Hs Hf]; subst.
  cbn [filter]. destruct (P r); [|exact (IH Hs)].
  cbn [index map]. constructor; [exact (IH Hs)|].
  apply Forall_forall. intros b Hb.
  apply (proj1 (Forall_forall _ _) Hf). exact (index_filter_incl P s b Hb).
Qed.

Lemma normalize_sorted (raw : frame) :
  StronglySorted Z.lt (index (normalize raw)).
Proof.
  apply sorted_nodup_strict; [|apply normalize_NoDup].
  unfold normalize, between_time. apply sorted_index_filter.
  apply sort_index_sorted.
Qed.

Lemma normalize_in_rth (raw : frame) :
  Forall (fun r => in_rth (fst r) = true) (normalize raw).
Proof.
  apply Forall_forall. intros r Hr. unfold normalize, between_time in Hr.
  apply filter_In in Hr. apply Hr.
Qed.

Lemma row_at_Some_iff {A : Type} (t : timestamp) (s : list (timestamp * A))
      (r : timestamp * A) :
  NoDup (index s) -> (row_at t s = Some r <-> In r s /\ fst r = t).
Proof.
  unfold row_at. induction s as [|u s IH]; intro Hnd.
  - split; [discriminate | intros [[] _]].
  - cbn [index map] in Hnd. inversion Hnd as [|x l Hx Hl]; subst.
    cbn [find]. destruct (Z.eqb (fst u) t) eqn:E.
    + apply Z.eqb_eq in E. split.
      * intros [= <-]. split; [left; reflexivity | exact E].
      * intros [[->|Hin] Ht]; [reflexivity|].
        exfalso. apply Hx. rewrite E, <- Ht. apply in_map. exact Hin.
    + apply Z.eqb_neq in E. rewrite (IH Hl). split.
      * intros [Hin Ht]. split; [right; exact Hin | exact Ht].
      * intros [[->|Hin] Ht]; [contradiction | split; assumption].
Qed.

Lemma row_at_None_iff {A : Type} (t : timestamp) (s : list (timestamp * A)) :
  row_at t s = None <-> ~ In t (index s).
Proof.
  unfold row_at. induction s as [|u s IH]; [cbn; tauto|].
  cbn [find index map]. destruct (Z.eqb (fst u) t) eqn:E.
  - apply Z.eqb_eq in E. split; [discriminate|].
    intro H. exfalso. apply H. left. exact E.
  - apply Z.eqb_neq in E. rewrite IH. cbn. tauto.
Qed.

Lemma row_at_perm {A : Type} (t : timestamp) (s s' : list (timestamp * A)) :
  NoDup (index s) -> Permutation s s' -> row_at t s = row_at t s'.
Proof.
  intros Hnd Hp.
  assert (Hnd' : NoDup (index s')).
  { exact (Permutation_NoDup (Permutation_map fst Hp) Hnd). }
  destruct (row_at t s) as [r|] eqn:E.
  - apply (row_at_Some_iff t s r Hnd) in E. destruct E as [Hin Ht].
    symmetry. apply (row_at_Some_iff t s' r Hnd'). split; [|exact Ht].
    exact (Permutation_in _ Hp Hin).
  - apply row_at_None_iff in E. symmetry. apply row_at_None_iff.
    intro Hin. apply E.
    exact (Permutation_in _ (Permutation_sym (Permutation_map fst Hp)) Hin).
Qed.

Lemma row_at_filter_key {A : Type} (p : timestamp -> bool) (t : timestamp)
      (s : list (timestamp * A)) :
  row_at t (filter (fun r => p (fst r)) s)
  = if p t then row_at t s else None.
Proof.
  unfold row_at. induction s as [|u s IH]; [destruct (p t); reflexivity|].
  cbn [filter find]. destruct (p (fst u)) eqn:Ep.
  - cbn [find]. destruct (Z.eqb (fst u) t) eqn:E.
    + apply Z.eqb_eq in E. rewrite <- E, Ep. reflexivity.
    + exact IH.
  - destruct (Z.eqb (fst u) t) eqn:E; [|exact IH].
    apply Z.eqb_eq in E. rewrite IH, <- E, Ep. reflexivity.
Qed.

Lemma row_at_drop_duplicated (t : timestamp) (s : frame) :
  row_at t (drop_duplicated s) = row_at t s.
Proof.
  induction s as [|u s IH]; [reflexivity|].
  cbn [drop_duplicated].
  assert (Hf := row_at_filter_key (fun k => negb (Z.eqb k (fst u))) t
                                  (drop_duplicated s)).
  unfold row_at in *. cbn [find].
  destruct (Z.eqb (fst u) t) eqn:E; [reflexivity|].
  cbv beta in Hf. rewrite Hf, Z.eqb_sym, E. cbn [negb]. exact IH.
Qed.

Lemma row_at_normalize (t : timestamp) (raw : frame) :
  row_at t (normalize raw) = if in_rth t then row_at t raw else None.
Proof.
  etransitivity;
    [exact (row_at_filter_key in_rth t (sort_index (drop_duplicated raw)))|].
  destruct (in_rth t); [|reflexivity].
  rewrite (row_at_perm t _ (drop_duplicated raw)).
  - apply row_at_drop_duplicated.
  - apply (Permutation_NoDup
             (Permutation_sym (Permutation_map fst (sort_index_perm _)))).
    apply drop_duplicated_NoDup.
  - apply sort_index_perm.
Qed.

Lemma drop_duplicated_id (s : frame) :
  NoDup (index s) -> drop_duplicated s = s.
Proof.
  induction s as [|u s IH]; intro H; [reflexivity|].
  cbn [index map] in H. inversion H as [|x l Hx Hl]; subst.
  cbn [drop_duplicated]. rewrite (IH Hl). f_equal.
  apply (filter_index_all (fun k => negb (Z.eqb k (fst u)))).
  apply Forall_forall. intros k Hk. apply negb_true_iff. apply Z.eqb_neq.
  intros ->. contradiction.
Qed.

Lemma sort_index_id (s : frame) :
  StronglySorted Z.le (index s) -> sort_index s = s.
Proof.
  induction s as [|u s IH]; intro H; [reflexivity|].
  cbn [index map] in H. inversion H as [|x l Hs Hf]; subst.
  unfold sort_index in *. cbn [fold_right]. rewrite (IH Hs).
  destruct s as [|v s]; [reflexivity|].
  cbn [insert_row]. cbn [index map] in Hf.
  inversion Hf as [|y l' Hy _]; subst.
  apply Z.leb_le in Hy. rewrite Hy. reflexivity.
Qed.

Lemma normalize_idempotent (raw : frame) :
  normalize (normalize raw) = normalize raw.
Proof.
  unfold normalize at 1.
  rewrite (drop_duplicated_id _ (normalize_NoDup raw)).
  rewrite (sort_index_id _ (strict_sorted_le _ (normalize_sorted raw))).
  apply (filter_index_all in_rth (normalize raw)).
  unfold index. rewrite Forall_map. apply normalize_in_rth.
Qed.

(** Whatever the files hold, a frame that [load_5m_data] returns has
    strictly increasing timestamps, only rows within 09:30-16:00 and only
    rows of the files.  With a date filter that lists at least one date
    it has only rows of the listed dates; an empty list of dates counts
    as no filter and the frame is the one returned without a filter. *)
Theorem load_5m_data_clean (raw : frame) (date_filter : option (list Z))
        (df : frame) :
  load_5m_data raw date_filter = Ok df ->
  StronglySorted Z.lt (index df)
  /\ Forall (fun r => in_rth (fst r) = true) df
  /\ incl df raw
  /\ (forall dates, date_filter = Some dates -> dates <> [] ->
                    Forall (fun r => In (date (fst r)) dates) df)
  /\ (date_filter = Some [] -> load_5m_data raw None = Ok df).
Proof.
  intro H. destruct raw as [|r0 raw]; [discriminate|].
  cbn [load_5m_data] in H |- *.
  set (N := normalize (r0 :: raw)) in *.
  assert (Hs : StronglySorted Z.lt (index N)) by apply normalize_sorted.
  assert (Hr : Forall (fun r => in_rth (fst r) = true) N)
    by apply normalize_in_rth.
  assert (Hi : incl N (r0 :: raw)) by apply normalize_incl.
  destruct date_filter as [[|d dates]|]; injection H as <-.
  - split; [exact Hs|]. split; [exact Hr|]. split; [exact Hi|].
    split; [|reflexivity].
    intros dates' [= <-] Hne. congruence.
  - split; [apply sorted_index_filter; exact Hs|].
    split.
    { apply Forall_forall. intros r Hin. apply filter_In in Hin.
      apply (proj1 (Forall_forall _ _) Hr). apply Hin. }
    split.
    { intros r Hin. apply filter_In in Hin. apply Hi. apply Hin. }
    split; [|discriminate].
    intros dates' [= <-] _. apply Forall_forall. intros r Hin.
    apply filter_In in Hin. apply mem_In. apply Hin.
  - split; [exact Hs|]. split; [exact Hr|]. split; [exact Hi|].
    split; [|discriminate].
    intros dates' Hd. discriminate Hd.
Qed.

Lemma load_5m_data_clean_witness :
  load_5m_data raw_rows (Some [20440%Z])
  = Ok [((20440 * 1440 + 570)%Z, 10 # 1);
        ((20440 * 1440 + 575)%Z, 11 # 1);
        ((20440 * 1440 + 580)%Z, 12 # 1);
        ((20440 * 1440 + 960)%Z, 13 # 1)]
  /\ StronglySorted Z.lt
       (index [((20440 * 1440 + 570)%Z, 10 # 1);
               ((20440 * 1440 + 575)%Z, 11 # 1);
               ((20440 * 1440 + 580)%Z, 12 # 1);
               ((20440 * 1440 + 960)%Z, 13 # 1)])
  /\ Forall (fun r => In (date (fst r)) [20440%Z])
            [((20440 * 1440 + 570)%Z, 10 # 1);
             ((20440 * 1440 + 575)%Z, 11 # 1);
             ((20440 * 1440 + 580)%Z, 12 # 1);
             ((20440 * 1440 + 960)%Z, 13 # 1)]
  /\ load_5m_data raw_rows (Some []) = load_5m_data raw_rows None
  /\ load_5m_data raw_rows (Some [20441%Z]) = Ok [].
Proof.
  assert (H : load_5m_data raw_rows (Some [20440%Z])
              = Ok [((20440 * 1440 + 570)%Z, 10 # 1);
                    ((20440 * 1440 + 575)%Z, 11 # 1);
                    ((20440 * 1440 + 580)%Z, 12 # 1);
                    ((20440 * 1440 + 960)%Z, 13 # 1)]).
  { vm_compute. reflexivity. }
  split; [exact H|].
  destruct (load_5m_data_clean _ _ _ H) as [Hs [_ [_ [Hd _]]]].
  split; [exact Hs|].
  split; [apply (Hd [20440%Z] eq_refl); discriminate|].
  split; vm_compute; reflexivity.
Defined.

(** The row a loaded frame has under a timestamp is the first row the
    files have under it ([keep='first']) when the timestamp lies within
    09:30-16:00, and there is none otherwise; the same holds for the
    loader of spread_control.py. *)
Theorem load_5m_data_keeps_first (raw : frame) (t : timestamp) :
  (forall df, load_5m_data raw None = Ok df ->
              row_at t df = if in_rth t then row_at t raw else None)
  /\ (forall df, load_5m_data_opt raw = Some df ->
                 row_at t df = if in_rth t then row_at t raw else None).
Proof.
  split; intros df H; destruct raw as [|r0 raw]; try discriminate;
    injection H as <-; apply row_at_normalize.
Qed.

Lemma load_5m_data_keeps_first_witness :
  exists df,
    load_5m_data raw_rows None = Ok df
    /\ row_at (20440 * 1440 + 580)%Z df
       = Some ((20440 * 1440 + 580)%Z, 12 # 1)
    /\ row_at (20440 * 1440 + 565)%Z df = None.
Proof.
  destruct (load_5m_data raw_rows None) as [df|e] eqn:E;
    [|vm_compute in E; discriminate E].
  exists df. split; [reflexivity|].
  destruct (load_5m_data_keeps_first raw_rows (20440 * 1440 + 580)%Z)
    as [H1 _].
  destruct (load_5m_data_keeps_first raw_rows (20440 * 1440 + 565)%Z)
    as [H2 _].
  rewrite (H1 df E), (H2 df E). split; reflexivity.
Defined.

(** Loading is idempotent: a non-empty frame that the loader returned
    comes back unchanged when it is loaded again. *)
Theorem load_5m_data_idempotent (raw df : frame) :
  load_5m_data raw None = Ok df -> df <> [] ->
  load_5m_data df None = Ok df.
Proof.
  intros H Hne. destruct raw as [|r0 raw]; [discriminate|].
  injection H as <-.
  rewrite load_5m_data_nonempty by exact Hne.
  rewrite normalize_idempotent. reflexivity.
Qed.

Lemma load_5m_data_idempotent_witness :
  exists df,
    load_5m_data raw_rows None = Ok df /\ df <> []
    /\ load_5m_data df None = Ok df.
Proof.
  destruct (load_5m_data raw_rows None) as [df|e] eqn:E;
    [|vm_compute in E; discriminate E].
  assert (Hne : df <> []).
  { intros ->. vm_compute in E. discriminate E. }
  exists df. split; [reflexivity|]. split; [exact Hne|].
  exact (load_5m_data_idempotent raw_rows df E Hne).
Defined.

(** ** factor_model.py: the edges of the event window *)

(** The sub-window block guards only one side.  With no bar stamped at
    or after [t*] nothing is reported; with bars at or after [t*] but none
    before it, the lookup of the CAR before [t*] raises [IndexError]. *)
Theorem leak_window_edges (t_star : timestamp) (cum : series) :
  (Forall (fun r => (fst r < t_star)%Z) cum ->
   leak_window t_star cum = Ok None)
  /\ (cum <> [] -> Forall (fun r => (t_star <= fst r)%Z) cum ->
      leak_window t_star cum = Raise IndexError).
Proof.
  split.
  - intro H. unfold leak_window.
    assert (E : filter (fun r : Z * fnum => (t_star <=? fst r)%Z) cum = []).
    { apply (filter_index_none (fun t => (t_star <=? t)%Z) cum).
      unfold index. rewrite Forall_map. revert H. apply Forall_impl.
      intros r Hr. apply Z.leb_gt. exact Hr. }
    rewrite E. reflexivity.
  - intros Hne H. unfold leak_window.
    assert (E1 : filter (fun r : Z * fnum => (t_star <=? fst r)%Z) cum = cum).
    { apply (filter_index_all (fun t => (t_star <=? t)%Z) cum).
      unfold index. rewrite Forall_map. revert H. apply Forall_impl.
      intros r Hr. apply Z.leb_le. exact Hr. }
    assert (E2 : filter (fun r : Z * fnum => (fst r <? t_star)%Z) cum = []).
    { apply (filter_index_none (fun t => (t <? t_star)%Z) cum).
      unfold index. rewrite Forall_map. revert H. apply Forall_impl.
      intros r Hr. apply Z.ltb_ge. exact Hr. }
    rewrite E1, E2. destruct cum; [congruence | reflexivity].
Qed.

Lemma leak_window_edges_witness :
  let early := [((leak_start - 10)%Z, Fin (1 # 100));
                ((leak_start - 5)%Z, Fin (1 # 50))] in
  let late := [(leak_start, Fin (1 # 100));
               ((leak_start + 5)%Z, Fin (1 # 50))] in
  Forall (fun r => (fst r < leak_start)%Z) early
  /\ leak_window leak_start early = Ok None
  /\ late <> []
  /\ Forall (fun r => (leak_start <= fst r)%Z) late
  /\ leak_window leak_start late = Raise IndexError.
Proof.
  intros early late.
  assert (H1 : Forall (fun r => (fst r < leak_start)%Z) early).
  { repeat constructor. }
  assert (H2 : late <> []) by discriminate.
  assert (H3 : Forall (fun r => (leak_start <= fst r)%Z) late).
  { repeat constructor; discriminate. }
  destruct (leak_window_edges leak_start early) as [He _].
  destruct (leak_window_edges leak_start late) as [_ Hl].
  split; [exact H1|]. split; [exact (He H1)|].
  split; [exact H2|]. split; [exact H3 | exact (Hl H2 H3)].
Defined.

Lemma select_all_false {A : Type} (s : list A) (mask : list bool) :
  Forall (fun b => b = false) mask -> select s mask = [].
Proof.
  revert mask. induction s as [|x s IH]; intros [|b mask] H; try reflexivity.
  inversion H as [|y l Hb Hl]; subst. cbn [select]. exact (IH mask Hl).
Qed.

Lemma filter_nil_mask {A : Type} (p : timestamp -> bool)
      (s : list (timestamp * A)) :
  filter (fun r => p (fst r)) s = [] ->
  Forall (fun b => b = false) (map p (index s)).
Proof.
  induction s as [|r s IH]; intro H; [constructor|].
  cbn [filter] in H. destruct (p (fst r)) eqn:E; [discriminate|].
  cbn [index map]. constructor; [exact E | exact (IH H)].
Qed.

(** With files for the three tickers, positive closes and at least 100
    training rows, a data set without any return stamped on the event day
    makes the run end in the handler, on the [IndexError] of
    [cum_residuals.iloc[-1]]: nothing about the event day is printed. *)
Theorem factor_model_empty_event_window
        (sqrtQ : Q -> Q) (ols : series -> series -> series -> result ols_fit)
        (raw_xle raw_spy raw_oil : frame) :
  raw_xle <> [] -> raw_spy <> [] -> raw_oil <> [] ->
  positive_closes raw_xle -> positive_closes raw_spy ->
  positive_closes raw_oil ->
  (100 <= length (training_rows raw_xle raw_spy raw_oil))%nat ->
  test_rows raw_xle raw_spy raw_oil = [] ->
  (forall y s o, exists m, ols y s o = Ok m) ->
  run_factor_model sqrtQ ols raw_xle raw_spy raw_oil = Error IndexError.
Proof.
  intros Nx Ns No Px Ps Po Hlen Htest Hols.
  unfold run_factor_model, training_rows, test_rows in *.
  rewrite !load_5m_data_nonempty by assumption. cbn [bind].
  destruct (align3_index _ _ _ (normalize_NoDup raw_xle)
                         (normalize_NoDup raw_spy) (normalize_NoDup raw_oil))
    as [Ix [Is Io]].
  unfold align3 in *.
  set (common := intersection
                   (intersection (index (normalize raw_xle))
                                 (index (normalize raw_spy)))
                   (index (normalize raw_oil))) in *.
  cbv beta iota zeta in Hlen, Htest |- *.
  set (xle := loc (normalize raw_xle) common) in *.
  set (spy := loc (normalize raw_spy) common) in *.
  set (oil := loc (normalize raw_oil) common) in *.
  assert (Pxl : positive_closes xle).
  { apply (positive_closes_incl raw_xle); [|exact Px].
    intros x Hx. apply normalize_incl. exact (loc_incl _ _ x Hx). }
  assert (Psl : positive_closes spy).
  { apply (positive_closes_incl raw_spy); [|exact Ps].
    intros x Hx. apply normalize_incl. exact (loc_incl _ _ x Hx). }
  assert (Pol : positive_closes oil).
  { apply (positive_closes_incl raw_oil); [|exact Po].
    intros x Hx. apply normalize_incl. exact (loc_incl _ _ x Hx). }
  assert (Lx : length xle = length common)
    by (rewrite <- (index_length xle), Ix; reflexivity).
  assert (Ls : length spy = length common)
    by (rewrite <- (index_length spy), Is; reflexivity).
  assert (Lo : length oil = length common)
    by (rewrite <- (index_length oil), Io; reflexivity).
  assert (Rs : length (returns spy) = length (index (returns xle))).
  { rewrite index_length, !returns_length by assumption. lia. }
  assert (Ro : length (returns oil) = length (index (returns xle))).
  { rewrite index_length, !returns_length by assumption. lia. }
  rewrite (getitem_mask_length _ _ (fun t => (t <? train_end)%Z) Rs).
  cbn [bind].
  rewrite (getitem_mask_length _ _ (fun t => (t <? train_end)%Z) Ro).
  cbn [bind].
  rewrite (getitem_mask_self (fun t => (t <? train_end)%Z) (returns xle)).
  cbn [bind].
  apply Nat.ltb_ge in Hlen. rewrite Hlen.
  destruct (Hols (filter (fun r : Z * fnum => (fst r <? train_end)%Z)
                         (returns xle))
                 (select (returns spy)
                         (map (fun t => (t <? train_end)%Z)
                              (index (returns xle))))
                 (select (returns oil)
                         (map (fun t => (t <? train_end)%Z)
                              (index (returns xle))))) as [m Hm].
  rewrite Hm. cbn [bind].
  rewrite (getitem_mask_self (fun t => Z.eqb (date t) test_date)
                             (returns xle)).
  cbn [bind].
  rewrite (getitem_mask_length _ _ (fun t => Z.eqb (date t) test_date) Rs).
  cbn [bind].
  rewrite (getitem_mask_length _ _ (fun t => Z.eqb (date t) test_date) Ro).
  cbn [bind].
  assert (Hmask := filter_nil_mask (fun t => Z.eqb (date t) test_date)
                                   (returns xle) Htest).
  rewrite (select_all_false (returns spy) _ Hmask).
  rewrite (select_all_false (returns oil) _ Hmask).
  rewrite Htest. reflexivity.
Qed.

Lemma factor_model_empty_event_window_witness :
  let xle := long_baseline (40 # 1) (41 # 1) (39 # 1) (42 # 1) in
  let spy := long_baseline (500 # 1) (501 # 1) (502 # 1) (499 # 1) in
  let oil := long_baseline (70 # 1) (71 # 1) (70 # 1) (69 # 1) in
  (100 <= length (training_rows xle spy oil))%nat
  /\ test_rows xle spy oil = []
  /\ run_factor_model sqrt_approx ols_flat xle spy oil = Error IndexError.
Proof.
  intros xle spy oil.
  assert (Hlen : (100 <= length (training_rows xle spy oil))%nat).
  { vm_compute. lia. }
  assert (Htest : test_rows xle spy oil = []).
  { vm_compute. reflexivity. }
  assert (Hpos : forall s : frame,
             forallb (fun r => Qltb 0 (snd r)) s = true -> positive_closes s).
  { intros s H. unfold positive_closes. apply Forall_forall. intros r Hr.
    apply Qltb_lt. exact (proj1 (forallb_forall _ _) H r Hr). }
  assert (Hne : forall s : frame, length s <> 0%nat -> s <> []).
  { intros s H ->. apply H. reflexivity. }
  assert (Nx : xle <> []) by (apply Hne; vm_compute; discriminate).
  assert (Ns : spy <> []) by (apply Hne; vm_compute; discriminate).
  assert (No : oil <> []) by (apply Hne; vm_compute; discriminate).
  assert (Px : positive_closes xle) by (apply Hpos; vm_compute; reflexivity).
  assert (Ps : positive_closes spy) by (apply Hpos; vm_compute; reflexivity).
  assert (Po : positive_closes oil) by (apply Hpos; vm_compute; reflexivity).
  split; [exact Hlen|]. split; [exact Htest|].
  refine (factor_model_empty_event_window sqrt_approx ols_flat xle spy oil
            Nx Ns No Px Ps Po Hlen Htest _).
  intros y s o. eexists. reflexivity.
Defined.

(** ** factor_model.py: the shape of the CAR path *)

Lemma growth_ge_1 (l : list Q) : Forall (fun r => 0 <= r) l -> 1 <= growth l.
Proof.
  induction 1 as [|r l Hr Hl IH]; cbn [growth fold_right]; [lra|].
  fold (growth l). nra.
Qed.

Lemma growth_pos (l : list Q) : Forall (fun r => -1 < r) l -> 0 < growth l.
Proof.
  induction 1 as [|r l Hr Hl IH]; cbn [growth fold_right]; [lra|].
  fold (growth l). nra.
Qed.

Lemma firstn_In {A : Type} (n : nat) (l : list A) (x : A) :
  In x (firstn n l) -> In x l.
Proof.
  revert l. induction n as [|n IH]; intros [|a l] H; try contradiction.
  cbn [firstn] in H. destruct H as [->|H]; [left; reflexivity|].
  right. exact (IH l H).
Qed.

Lemma growth_firstn_mono (l : list Q) :
  Forall (fun r => 0 <= r) l ->
  forall j k, (j <= k)%nat -> growth (firstn j l) <= growth (firstn k l).
Proof.
  induction 1 as [|r l Hr Hl IH]; intros j k Hjk.
  - rewrite !firstn_nil. lra.
  - destruct j as [|j].
    + cbn [firstn]. apply (growth_ge_1 (firstn k (r :: l))).
      apply Forall_forall. intros x Hx.
      assert (Hin := firstn_In _ _ _ Hx).
      exact (proj1 (Forall_forall _ _) (Forall_cons r Hr Hl) x Hin).
    + destruct k as [|k]; [lia|].
      cbn [firstn growth fold_right].
      fold (growth (firstn j l)). fold (growth (firstn k l)).
      assert (H := IH j k ltac:(lia)).
      assert (H1 : 1 <= growth (firstn j l)).
      { apply growth_ge_1. apply Forall_forall. intros x Hx.
        exact (proj1 (Forall_forall _ _) Hl x (firstn_In _ _ _ Hx)). }
      nra.
Qed.

Lemma values_firstn {A : Type} (n : nat) (s : list (timestamp * A)) :
  values (firstn n s) = firstn n (values s).
Proof. unfold values. symmetry. apply firstn_map. Qed.

(** Along a window whose abnormal returns are all non-negative, the CAR
    is non-negative and never decreases from one bar to a later one; and
    along a window whose abnormal returns are all above -100%, the CAR
    stays above -100% at every bar. *)
Theorem car_path_shape (rs : list (timestamp * Q)) :
  (Forall (fun r => 0 <= snd r) rs ->
   forall (j k : nat) (tj tk : timestamp) (vj vk : fnum),
     (j <= k)%nat ->
     nth_error (cum_residuals (fins rs)) j = Some (tj, vj) ->
     nth_error (cum_residuals (fins rs)) k = Some (tk, vk) ->
     exists qj qk, vj ≈ Fin qj /\ vk ≈ Fin qk /\ 0 <= qj /\ qj <= qk)
  /\
  (Forall (fun r => -1 < snd r) rs ->
   forall (k : nat) (t : timestamp) (v : fnum),
     nth_error (cum_residuals (fins rs)) k = Some (t, v) ->
     exists q, v ≈ Fin q /\ -1 < q).
Proof.
  assert (Hnth : forall k t v,
             nth_error (cum_residuals (fins rs)) k = Some (t, v) ->
             v ≈ Fin (compounded (values (firstn (S k) rs)))).
  { intros k t v Hk.
    destruct (nth_error rs k) as [[t' r]|] eqn:E.
    - destruct (cum_residuals_nth _ _ (reps_fins rs) k t' r E)
        as [v' [Hv' Hq]].
      rewrite Hk in Hv'. injection Hv' as <- <-. exact Hq.
    - apply nth_error_None in E.
      assert (Hl : (k < length (cum_residuals (fins rs)))%nat).
      { apply nth_error_Some. rewrite Hk. discriminate. }
      rewrite cum_residuals_length in Hl. unfold fins in Hl.
      rewrite length_map in Hl. lia. }
  split.
  - intros Hpos j k tj tk vj vk Hjk Hj Hk.
    assert (Hv : Forall (fun r => 0 <= r) (values rs)).
    { unfold values. rewrite Forall_map. exact Hpos. }
    exists (compounded (values (firstn (S j) rs))),
           (compounded (values (firstn (S k) rs))).
    split; [exact (Hnth j tj vj Hj)|]. split; [exact (Hnth k tk vk Hk)|].
    unfold compounded. rewrite !values_firstn.
    assert (H0 : 1 <= growth (firstn (S j) (values rs))).
    { apply growth_ge_1. apply Forall_forall. intros x Hx.
      exact (proj1 (Forall_forall _ _) Hv x (firstn_In _ _ _ Hx)). }
    assert (H1 := growth_firstn_mono _ Hv (S j) (S k) ltac:(lia)).
    split; lra.
  - intros Hpos k t v Hk.
    exists (compounded (values (firstn (S k) rs))).
    split; [exact (Hnth k t v Hk)|].
    unfold compounded.
    assert (H : 0 < growth (values (firstn (S k) rs))); [|lra].
    apply growth_pos. unfold values. rewrite Forall_map.
    apply Forall_forall. intros x Hx.
    exact (proj1 (Forall_forall _ _) Hpos x (firstn_In _ _ _ Hx)).
Qed.

Lemma car_path_shape_witness :
  let rs := [(0%Z, 1 # 100); (5%Z, 0 # 1); (10%Z, 1 # 50)] in
  Forall (fun r => 0 <= snd r) rs
  /\ exists qj qk,
      Fin (1 # 100) ≈ Fin qj /\ Fin (151 # 5000) ≈ Fin qk
      /\ 0 <= qj /\ qj <= qk.
Proof.
  intros rs.
  assert (H : Forall (fun r => 0 <= snd r) rs).
  { repeat constructor; discriminate. }
  split; [exact H|].
  destruct (car_path_shape rs) as [Hs _].
  apply (Hs H 0%nat 2%nat 0%Z 10%Z (Fin (1 # 100)) (Fin (151 # 5000)));
    [lia | vm_compute; reflexivity | vm_compute; reflexivity].
Defined.

(** ** spread_control.py: the placebo run as a whole *)





Lemma baseline_frames_eq (xle oil : frame) :
  NoDup (index xle) -> NoDup (index oil) ->
  let common := intersection (index xle) (index oil) in
  baseline_frames xle oil
  = Ok (filter (fun r => (fst r <? baseline_end)%Z) (loc xle common),
        filter (fun r => (fst r <? baseline_end)%Z) (loc oil common)).
Proof.
  intros Hx Ho common. unfold baseline_frames, align2. cbv beta iota zeta.
  fold common.
  assert (Hix : index (loc xle common) = common).
  { apply loc_index; [exact Hx|].
    intros t Ht. apply intersection_In in Ht. apply Ht. }
  assert (Hio : index (loc oil common) = common).
  { apply loc_index; [exact Ho|].
    intros t Ht. apply intersection_In in Ht. apply Ht. }
  rewrite (getitem_mask_frame_self (fun t => (t <? baseline_end)%Z)
                                   (loc xle common)).
  cbn [bind].
  assert (Heq : index (loc xle common) = index (loc oil common))
    by congruence.
  rewrite Heq.
  rewrite (getitem_mask_frame_self (fun t => (t <? baseline_end)%Z)
                                   (loc oil common)).
  reflexivity.
Qed.




Lemma insert_sorted_In (t x : Z) (l : list Z) :
  In x (insert_sorted t l) <-> x = t \/ In x l.
Proof.
  induction l as [|u l IH]; cbn [insert_sorted].
  - cbn. intuition.
  - destruct (t <=? u)%Z; cbn [In]; [intuition|].
    rewrite IH. cbn. intuition.
Qed.

Lemma sort_In (x : Z) (l : list Z) : In x (Stats.sort l) <-> In x l.
Proof.
  induction l as [|t l IH]; [reflexivity|].
  unfold Stats.sort in *. cbn [fold_right].
  rewrite insert_sorted_In, IH. cbn. intuition.
Qed.

Lemma unique_dates_In (d : Z) (s : frame) :
  In d (unique_dates s) <-> exists r, In r s /\ date (fst r) = d.
Proof.
  unfold unique_dates. rewrite sort_In, unique_In.
  unfold index. rewrite map_map, in_map_iff.
  split; intros [r [H1 H2]]; exists r; tauto.
Qed.

(** The baseline of the placebo test holds only bars stamped before
    2026-01-01, in both frames: every date the loop visits lies before
    that day, and the event day, 2026-01-02, is never among them. *)
Theorem baseline_excludes_event_day (raw_xle raw_oil xle_base oil_base : frame) :
  baseline_frames (normalize raw_xle) (normalize raw_oil)
  = Ok (xle_base, oil_base) ->
  Forall (fun r => (fst r < baseline_end)%Z) xle_base
  /\ Forall (fun r => (fst r < baseline_end)%Z) oil_base
  /\ index oil_base = index xle_base
  /\ Forall (fun d => (d < 20454)%Z) (unique_dates xle_base)
  /\ ~ In Models.event_date (unique_dates xle_base).
Proof.
  intro H.
  rewrite (baseline_frames_eq _ _ (normalize_NoDup raw_xle)
                              (normalize_NoDup raw_oil)) in H.
  cbv zeta in H. injection H as <- <-.
  set (common := intersection (index (normalize raw_xle))
                              (index (normalize raw_oil))).
  assert (Hf : forall s : frame,
             Forall (fun r => (fst r < baseline_end)%Z)
                    (filter (fun r => (fst r <? baseline_end)%Z) s)).
  { intro s. apply Forall_forall. intros r Hr. apply filter_In in Hr.
    apply Z.ltb_lt. apply Hr. }
  assert (Hix : index (loc (normalize raw_xle) common) = common).
  { apply loc_index; [apply normalize_NoDup|].
    intros t Ht. apply intersection_In in Ht. apply Ht. }
  assert (Hio : index (loc (normalize raw_oil) common) = common).
  { apply loc_index; [apply normalize_NoDup|].
    intros t Ht. apply intersection_In in Ht. apply Ht. }
  assert (Hidx : forall s : frame,
             index (filter (fun r => (fst r <? baseline_end)%Z) s)
             = filter (fun t => (t <? baseline_end)%Z) (index s)).
  { intro s. induction s as [|r s IH]; [reflexivity|].
    cbn [filter index map]. destruct (fst r <? baseline_end)%Z;
      cbn [index map]; [f_equal|]; exact IH. }
  assert (Hd : Forall (fun d => (d < 20454)%Z)
                 (unique_dates
                    (filter (fun r => (fst r <? baseline_end)%Z)
                            (loc (normalize raw_xle) common)))).
  { apply Forall_forall. intros d Hin. apply unique_dates_In in Hin.
    destruct Hin as [r [Hr <-]].
    assert (Hlt := proj1 (Forall_forall _ _) (Hf _) r Hr). cbv beta in Hlt.
    unfold date. apply Z.div_lt_upper_bound; [lia|].
    unfold baseline_end in Hlt. lia. }
  split; [apply Hf|]. split; [apply Hf|].
  split; [rewrite !Hidx, Hix, Hio; reflexivity|].
  split; [exact Hd|].
  intro Hin. assert (Hlt := proj1 (Forall_forall _ _) Hd _ Hin).
  unfold Models.event_date in Hlt. lia.
Qed.

Lemma baseline_excludes_event_day_witness :
  exists xle_base oil_base,
    baseline_frames (normalize sample_xle_5m) (normalize sample_oil_5m)
    = Ok (xle_base, oil_base)
    /\ unique_dates xle_base = [20440%Z; 20441%Z]
    /\ ~ In Models.event_date (unique_dates xle_base).
Proof.
  destruct (baseline_frames (normalize sample_xle_5m)
                            (normalize sample_oil_5m))
    as [[xb ob]|e] eqn:E; [|vm_compute in E; discriminate E].
  exists xb, ob. split; [reflexivity|]. split.
  - vm_compute in E. injection E as <- <-. vm_compute. reflexivity.
  - exact (proj2 (proj2 (proj2 (proj2
             (baseline_excludes_event_day _ _ _ _ E))))).
Defined.

(** ** spread_control.py: the percentile as a function of the event value *)

Lemma count_below_le_length (xs : list Q) (v : Q) :
  (count_below xs v <= length xs)%nat.
Proof. unfold count_below. apply filter_length_le. Qed.

Lemma count_below_mono (xs : list Q) (v v' : Q) :
  v <= v' -> (count_below xs v <= count_below xs v')%nat.
Proof.
  intro H. unfold count_below. induction xs as [|x xs IH]; [apply Nat.le_refl|].
  cbn [filter]. destruct (Qltb x v) eqn:E.
  - apply Qltb_lt in E.
    assert (E' : Qltb x v' = true) by (apply Qltb_lt; lra).
    rewrite E'. cbn [length]. lia.
  - destruct (Qltb x v'); cbn [length]; lia.
Qed.

Lemma Qnat_le (n m : nat) : (n <= m)%nat -> Qnat n <= Qnat m.
Proof.
  intro H. unfold Qnat. rewrite <- Zle_Qle. lia.
Qed.

(** On a non-empty sample of finite statistics the percentile lies
    between 0 and 100 and does not decrease when the event value grows;
    on an empty sample (no baseline day admitted) it is NaN. *)
Theorem percentile_rank_range (xs : list Q) :
  (forall v, percentile_rank [] v = NaN)
  /\ (xs <> [] ->
      forall v v' : Q, v <= v' ->
        exists p p',
          percentile_rank (map Fin xs) (Fin v) ≈ Fin p
          /\ percentile_rank (map Fin xs) (Fin v') ≈ Fin p'
          /\ 0 <= p /\ p <= p' /\ p' <= 100).
Proof.
  split; [intro v; reflexivity|].
  intros Hne v v' Hv.
  assert (Hn : 0 < Qnat (length xs)).
  { apply Qnat_pos. destruct xs; [congruence | simpl; lia]. }
  exists (100 * (Qnat (count_below xs v) / Qnat (length xs))),
         (100 * (Qnat (count_below xs v') / Qnat (length xs))).
  split; [exact (percentile_rank_fraction xs v Hne)|].
  split; [exact (percentile_rank_fraction xs v' Hne)|].
  assert (H0 := Qnat_nonneg (count_below xs v)).
  assert (H1 := Qnat_le _ _ (count_below_mono xs v v' Hv)).
  assert (H2 := Qnat_le _ _ (count_below_le_length xs v')).
  assert (Hinv : 0 < / Qnat (length xs)) by (apply Qinv_lt_0_compat; exact Hn).
  assert (Hone : Qnat (length xs) * / Qnat (length xs) == 1).
  { apply Qmult_inv_r. lra. }
  unfold Qdiv. repeat split; nra.
Qed.

Lemma percentile_rank_range_witness :
  let xs := [1 # 2; 3 # 4; 2 # 1; 1 # 10] in
  xs <> []
  /\ exists p p',
      percentile_rank (map Fin xs) (Fin (1 # 1)) ≈ Fin p
      /\ percentile_rank (map Fin xs) (Fin (194 # 100)) ≈ Fin p'
      /\ 0 <= p /\ p <= p' /\ p' <= 100.
Proof.
  intros xs.
  assert (Hne : xs <> []) by discriminate.
  split; [exact Hne|].
  destruct (percentile_rank_range xs) as [_ H].
  apply (H Hne). discriminate.
Defined.

(** ** spread_control.py: two instruments that move together *)

Lemma day_spread_form (xle_base oil_base : frame) (d : Z) (spread : series) :
  NoDup (index xle_base) -> NoDup (index oil_base) ->
  positive_closes xle_base -> positive_closes oil_base ->
  day_spread xle_base oil_base d = Ok (Some spread) ->
  let xd := filter (fun r => Z.eqb (date (fst r)) d) xle_base in
  let od := filter (fun r => Z.eqb (date (fst r)) d) oil_base in
  let common := intersection (index xd) (index od) in
  exists (tx to : timestamp) (x0 o0 : Q) (X O : frame),
    loc xd common = (tx, x0) :: X
    /\ loc od common = (to, o0) :: O
    /\ 0 < x0 /\ 0 < o0
    /\ reps spread
         (map2 (fun rx ro => (fst rx, snd rx / x0 - snd ro / o0))
               ((tx, x0) :: X) ((to, o0) :: O)).
Proof.
  intros Hnx Hno Hpx Hpo H xd od common. unfold day_spread in H.
  fold xd od in H. fold common in H.
  assert (Hxd : NoDup (index xd)) by (apply NoDup_index_filter; exact Hnx).
  assert (Hod : NoDup (index od)) by (apply NoDup_index_filter; exact Hno).
  assert (Hix : index (loc xd common) = common).
  { apply loc_index; [exact Hxd|].
    intros t Ht. apply intersection_In in Ht. apply Ht. }
  assert (Hio : index (loc od common) = common).
  { apply loc_index; [exact Hod|].
    intros t Ht. apply intersection_In in Ht. apply Ht. }
  assert (Hplx : positive_closes (loc xd common)).
  { apply (positive_closes_incl xle_base); [|exact Hpx].
    intros x Hx. apply loc_incl in Hx. apply filter_In in Hx. apply Hx. }
  assert (Hplo : positive_closes (loc od common)).
  { apply (positive_closes_incl oil_base); [|exact Hpo].
    intros x Hx. apply loc_incl in Hx. apply filter_In in Hx. apply Hx. }
  destruct xd as [|rx0 xd'] eqn:Exd; [discriminate|].
  destruct od as [|ro0 od'] eqn:Eod; [discriminate|].
  destruct (Nat.ltb (length common) 30) eqn:E30; [discriminate|].
  destruct (loc (rx0 :: xd') common) as [|[tx x0] X] eqn:EX.
  { apply Nat.ltb_ge in E30. rewrite <- Hix in E30. simpl in E30. lia. }
  destruct (loc (ro0 :: od') common) as [|[to o0] O] eqn:EO.
  { apply Nat.ltb_ge in E30. rewrite <- Hio in E30. simpl in E30. lia. }
  cbn [iloc_first bind snd] in H.
  assert (Hs : spread = series_sub (div_scalar ((tx, x0) :: X) x0)
                                   (div_scalar ((to, o0) :: O) o0)).
  { injection H as <-. reflexivity. }
  clear H. rewrite Hs. clear Hs spread.
  inversion Hplx as [|x l Hx0 _]; subst. cbn [snd] in Hx0.
  inversion Hplo as [|x l Ho0 _]; subst. cbn [snd] in Ho0.
  exists tx, to, x0, o0, X, O.
  split; [reflexivity|]. split; [reflexivity|].
  split; [exact Hx0|]. split; [exact Ho0|].
  apply normalized_spread_reps; [congruence | lra | lra].
Qed.

Lemma scale_closes_index (k : Q) (s : frame) :
  index (scale_closes k s) = index s.
Proof. unfold scale_closes, index. rewrite map_map. reflexivity. Qed.

Lemma scale_closes_filter (k : Q) (p : timestamp -> bool) (s : frame) :
  filter (fun r => p (fst r)) (scale_closes k s)
  = scale_closes k (filter (fun r => p (fst r)) s).
Proof.
  induction s as [|r s IH]; [reflexivity|].
  cbn [scale_closes map filter fst]. fold (scale_closes k s).
  destruct (p (fst r)); cbn [scale_closes map]; rewrite IH; reflexivity.
Qed.

Lemma scale_closes_loc (k : Q) (s : frame) (idx : list timestamp) :
  loc (scale_closes k s) idx = scale_closes k (loc s idx).
Proof.
  unfold loc. induction idx as [|t idx IH]; [reflexivity|].
  cbn [flat_map]. unfold scale_closes at 3. rewrite map_app.
  fold (scale_closes k (flat_map (fun t0 => filter (fun r => Z.eqb (fst r) t0) s) idx)).
  rewrite <- IH. f_equal.
  exact (scale_closes_filter k (fun u => Z.eqb u t) s).
Qed.

Lemma scale_closes_positive (k : Q) (s : frame) :
  0 < k -> positive_closes s -> positive_closes (scale_closes k s).
Proof.
  intros Hk H. unfold positive_closes, scale_closes in *.
  rewrite Forall_map. revert H. apply Forall_impl.
  intros r Hr. cbn [snd]. nra.
Qed.

Lemma fold_fmax2_const (vs : list fnum) (c : Q) :
  Forall (fun v => v ≈ Fin c) vs ->
  forall acc, acc ≈ Fin c -> fold_left fmax2 vs acc ≈ Fin c.
Proof.
  induction 1 as [|v vs Hv Hvs IH]; intros acc Hacc; [exact Hacc|].
  cbn [fold_left]. apply IH.
  destruct (feq_Fin_inv _ _ Hacc) as [a [-> Ha]].
  destruct (feq_Fin_inv _ _ Hv) as [b [-> Hb]].
  unfold fmax2. cbn [isnan orb fltb].
  destruct (Qltb a b); apply feq_Fin; assumption.
Qed.

Lemma reps_all_equal (s : series) (rs : list (timestamp * Q)) (c : Q) :
  reps s rs -> Forall (fun r => snd r == c) rs ->
  Forall (fun r => snd r ≈ Fin c) s.
Proof.
  induction 1 as [|x r s rs [_ Hv] Hs IH]; intro Hz; [constructor|].
  inversion Hz as [|y l Hy Hl]; subst.
  constructor; [|exact (IH Hl)].
  rewrite Hv. apply feq_Fin. exact Hy.
Qed.

Lemma proportional_rows_cancel (k x0 : Q) (X : frame) :
  0 < k -> 0 < x0 ->
  Forall (fun r => snd r == 0)
         (map2 (fun rx ro => (fst rx, snd rx / x0 - snd ro / (k * x0)))
               X (scale_closes k X)).
Proof.
  intros Hk Hx0. induction X as [|r X IH]; [constructor|].
  cbn [scale_closes map map2 fst snd]. constructor; [|exact IH].
  cbn [snd]. field. split; lra.
Qed.

(** When the second instrument's closes are a positive multiple of the
    first's, bar for bar, the normalized spread of every admitted day is 0
    on every bar and the statistic of the day is 0. *)
Theorem proportional_closes_have_no_spread
        (xle_base : frame) (k : Q) (d : Z) (spread : series) :
  NoDup (index xle_base) -> positive_closes xle_base -> 0 < k ->
  day_spread xle_base (scale_closes k xle_base) d = Ok (Some spread) ->
  Forall (fun r => snd r ≈ Fin 0) spread
  /\ smax spread ≈ Fin 0
  /\ day_max_spread xle_base (scale_closes k xle_base) d
     = Ok (Some (smax spread)).
Proof.
  intros Hnd Hpos Hk H.
  assert (Hno : NoDup (index (scale_closes k xle_base))).
  { rewrite scale_closes_index. exact Hnd. }
  assert (Hpo := scale_closes_positive k xle_base Hk Hpos).
  destruct (day_spread_form _ _ _ _ Hnd Hno Hpos Hpo H)
    as (tx & to & x0 & o0 & X & O & EX & EO & Hx0 & Ho0 & Hreps).
  rewrite (scale_closes_filter k (fun t => Z.eqb (date t) d)) in EX, EO.
  rewrite scale_closes_index in EX, EO.
  rewrite scale_closes_loc, EX in EO.
  cbn [scale_closes map fst snd] in EO. injection EO as <- <- <-.
  assert (Hall : Forall (fun r => snd r ≈ Fin 0) spread).
  { apply (reps_all_equal _ _ 0 Hreps).
    exact (proportional_rows_cancel k x0 ((tx, x0) :: X) Hk Hx0). }
  split; [exact Hall|].
  assert (Hmax : smax spread ≈ Fin 0).
  { unfold smax.
    assert (Hv : Forall (fun v => v ≈ Fin 0) (values spread)).
    { unfold values. rewrite Forall_map. exact Hall. }
    assert (Hn : notna (values spread) = values spread).
    { apply notna_finite. revert Hv. apply Forall_impl.
      intros v Hv. destruct v; try discriminate Hv. reflexivity. }
    rewrite Hn. destruct (values spread) as [|v vs] eqn:Ev.
    - exfalso. apply (f_equal (@length _)) in Ev.
      unfold values in Ev.
      rewrite length_map, (reps_length _ _ Hreps) in Ev. discriminate Ev.
    - inversion Hv as [|y l Hy Hl]; subst.
      exact (fold_fmax2_const vs 0 Hl v Hy). }
  split; [exact Hmax|].
  unfold day_max_spread. rewrite H. reflexivity.
Qed.

Lemma proportional_closes_have_no_spread_witness :
  let base := session 20440 (cyc [40 # 1; 41 # 1; 39 # 1; 42 # 1] 8) in
  NoDup (index base) /\ positive_closes base
  /\ day_max_spread base (scale_closes (7 # 4) base) 20440 = Ok (Some (Fin 0)).
Proof.
  intros base.
  assert (Hs : StronglySorted Z.lt (index base)).
  { vm_compute. repeat (constructor; [|repeat (constructor; [reflexivity|]); constructor]).
    constructor. }
  assert (Hnd : NoDup (index base)) by (apply strict_sorted_NoDup; exact Hs).
  assert (Hpos : positive_closes base).
  { unfold positive_closes. apply Forall_forall. intros r Hr.
    apply Qltb_lt.
    assert (Hb : forallb (fun r => Qltb 0 (snd r)) base = true)
      by (vm_compute; reflexivity).
    exact (proj1 (forallb_forall _ _) Hb r Hr). }
  split; [exact Hnd|]. split; [exact Hpos|].
  destruct (day_spread base (scale_closes (7 # 4) base) 20440)
    as [[sp|]|e] eqn:E; try (vm_compute in E; discriminate E).
  destruct (proportional_closes_have_no_spread base (7 # 4) 20440 sp
              Hnd Hpos eq_refl E) as [_ [_ Hday]].
  rewrite Hday. vm_compute in E. injection E as <-. vm_compute. reflexivity.
Defined.

(** ** models.py: the beta of an exact linear relation *)

Lemma is_unique_NoDup (l : list timestamp) : is_unique l = true -> NoDup l.
Proof.
  induction l as [|t l IH]; intro H; [constructor|].
  cbn [is_unique] in H. apply andb_true_iff in H. destruct H as [H1 H2].
  constructor; [|exact (IH H2)].
  intro Hin. apply mem_In in Hin. rewrite Hin in H1. discriminate.
Qed.

Lemma unique_id (l : list timestamp) : NoDup l -> unique l = l.
Proof.
  induction 1 as [|t l Ht Hl IH]; [reflexivity|].
  cbn [unique]. rewrite IH. f_equal.
  apply forallb_filter_id. apply forallb_forall. intros u Hu.
  apply negb_true_iff. apply Z.eqb_neq. intros ->. contradiction.
Qed.

Lemma intersection_self (l : list timestamp) :
  NoDup l -> intersection l l = l.
Proof.
  intro H. unfold intersection.
  rewrite forallb_filter_id; [apply unique_id; exact H|].
  apply forallb_forall. intros t Ht. apply mem_In. exact Ht.
Qed.

Lemma loc_cons_absent {A : Type} (r : timestamp * A)
      (s : list (timestamp * A)) (idx : list timestamp) :
  ~ In (fst r) idx -> loc (r :: s) idx = loc s idx.
Proof.
  unfold loc. induction idx as [|t idx IH]; intro H; [reflexivity|].
  cbn [flat_map].
  rewrite IH by (intro Hin; apply H; right; exact Hin).
  f_equal. cbn [filter].
  destruct (Z.eqb (fst r) t) eqn:E; [|reflexivity].
  apply Z.eqb_eq in E. exfalso. apply H. left. symmetry. exact E.
Qed.

Lemma loc_self {A : Type} (s : list (timestamp * A)) :
  NoDup (index s) -> loc s (index s) = s.
Proof.
  induction s as [|r s IH]; intro H; [reflexivity|].
  cbn [index map] in H. inversion H as [|x l Hx Hl]; subst.
  cbn [index map]. unfold loc at 1. cbn [flat_map].
  fold (loc (r :: s) (map fst s)).
  rewrite (loc_cons_absent r s (map fst s) Hx).
  cbn [filter]. rewrite Z.eqb_refl.
  rewrite (filter_label_absent (fst r) s Hx).
  cbn [app]. f_equal. exact (IH Hl).
Qed.

Lemma vreps_fins (qs : list Q) : vreps (map Fin qs) qs.
Proof. induction qs; constructor; [apply feq_refl | assumption]. Qed.

Lemma vreps_length (l : list fnum) (qs : list Q) :
  vreps l qs -> length l = length qs.
Proof. induction 1; simpl; congruence. Qed.

Lemma vreps_fsum_from (l : list fnum) (qs : list Q) :
  vreps l qs ->
  forall acc a, acc ≈ Fin a -> fold_left fadd l acc ≈ Fin (a + Qsum qs).
Proof.
  induction 1 as [|v q l qs Hv Hl IH]; intros acc a Ha.
  - cbn. rewrite Ha. apply feq_Fin. unfold Qsum. cbn. ring.
  - cbn [fold_left]. rewrite (IH (acc + v)%F (a + q)).
    + apply feq_Fin. unfold Qsum. cbn. ring.
    + rewrite Ha, Hv. apply fadd_Fin.
Qed.

Lemma vreps_np_mean (l : list fnum) (qs : list Q) :
  vreps l qs -> qs <> [] ->
  np_mean l ≈ Fin (Qsum qs / Qnat (length qs)).
Proof.
  intros H Hne. unfold np_mean, fsum.
  rewrite (vreps_fsum_from l qs H (Fin 0) 0 (feq_refl _)).
  rewrite (vreps_length l qs H). unfold of_nat. fold (Qnat (length qs)).
  assert (Hn : ~ Qnat (length qs) == 0).
  { assert (0 < Qnat (length qs)); [|lra].
    apply Qnat_pos. destruct qs; [congruence | simpl; lia]. }
  rewrite (fdiv_Fin _ _ Hn). apply feq_Fin. field. exact Hn.
Qed.

Lemma vreps_map (f : fnum -> fnum) (g : Q -> Q) (l : list fnum) (qs : list Q) :
  (forall v q, v ≈ Fin q -> f v ≈ Fin (g q)) ->
  vreps l qs -> vreps (map f l) (map g qs).
Proof.
  intros Hf. induction 1 as [|v q l qs Hv Hl IH]; constructor.
  - apply Hf. exact Hv.
  - exact IH.
Qed.

Lemma vreps_map2 (f : fnum -> fnum -> fnum) (g : Q -> Q -> Q)
      (l l' : list fnum) (qs qs' : list Q) :
  (forall v q v' q', v ≈ Fin q -> v' ≈ Fin q' -> f v v' ≈ Fin (g q q')) ->
  vreps l qs -> vreps l' qs' -> vreps (map2 f l l') (map2 g qs qs').
Proof.
  intros Hf H. revert l' qs'.
  induction H as [|v q l qs Hv Hl IH]; intros l' qs' H'.
  - constructor.
  - destruct H' as [|v' q' l' qs' Hv' Hl']; [constructor|].
    cbn [map2]. constructor; [apply Hf; assumption | apply IH; exact Hl'].
Qed.

Lemma fold_fmax2_bound (qs : list Q) (q : Q) :
  exists m, fold_left fmax2 (map Fin qs) (Fin q) = Fin m
            /\ q <= m /\ Forall (fun x => x <= m) qs.
Proof.
  revert q. induction qs as [|a qs IH]; intro q.
  - exists q. split; [reflexivity|]. split; [lra | constructor].
  - cbn [map fold_left]. unfold fmax2 at 2. cbn [isnan orb fltb].
    destruct (Qltb q a) eqn:E.
    + apply Qltb_lt in E. destruct (IH a) as [m [Hm [H1 H2]]].
      exists m. split; [exact Hm|]. split; [lra|].
      constructor; assumption.
    + apply Qltb_ge in E. destruct (IH q) as [m [Hm [H1 H2]]].
      exists m. split; [exact Hm|]. split; [exact H1|].
      constructor; [lra | exact H2].
Qed.

Lemma fold_fmin2_bound (qs : list Q) (q : Q) :
  exists m, fold_left fmin2 (map Fin qs) (Fin q) = Fin m
            /\ m <= q /\ Forall (fun x => m <= x) qs.
Proof.
  revert q. induction qs as [|a qs IH]; intro q.
  - exists q. split; [reflexivity|]. split; [lra | constructor].
  - cbn [map fold_left]. unfold fmin2 at 2. cbn [isnan orb fltb].
    destruct (Qltb a q) eqn:E.
    + apply Qltb_lt in E. destruct (IH a) as [m [Hm [H1 H2]]].
      exists m. split; [exact Hm|]. split; [lra|].
      constructor; assumption.
    + apply Qltb_ge in E. destruct (IH q) as [m [Hm [H1 H2]]].
      exists m. split; [exact Hm|]. split; [exact H1|].
      constructor; [lra | exact H2].
Qed.

Lemma amax_amin_differ (qs : list Q) (u v : Q) :
  In u qs -> In v qs -> ~ u == v ->
  feq_ieee (amax (map Fin qs)) (amin (map Fin qs)) = false.
Proof.
  intros Hu Hv Hne. destruct qs as [|q qs]; [contradiction|].
  cbn [map amax amin].
  destruct (fold_fmax2_bound qs q) as [M [EM [HM1 HM2]]].
  destruct (fold_fmin2_bound qs q) as [m [Em [Hm1 Hm2]]].
  rewrite EM, Em. cbn [feq_ieee].
  destruct (Qeq_bool M m) eqn:E; [|reflexivity].
  apply Qeq_bool_iff in E. exfalso. apply Hne.
  assert (HM : forall x, In x (q :: qs) -> x <= M).
  { intros x [<-|Hx]; [exact HM1|].
    exact (proj1 (Forall_forall _ _) HM2 x Hx). }
  assert (Hm : forall x, In x (q :: qs) -> m <= x).
  { intros x [<-|Hx]; [exact Hm1|].
    exact (proj1 (Forall_forall _ _) Hm2 x Hx). }
  assert (H1 := HM u Hu). assert (H2 := Hm u Hu).
  assert (H3 := HM v Hv). assert (H4 := Hm v Hv). lra.
Qed.

Lemma Qsquare_nonneg (x : Q) : 0 <= x * x.
Proof.
  destruct (Qlt_le_dec x 0) as [H|H].
  - setoid_replace (x * x) with ((- x) * (- x)) by ring.
    apply Qmult_le_0_compat; lra.
  - apply Qmult_le_0_compat; exact H.
Qed.

Lemma Qsquare_pos (x : Q) : ~ x == 0 -> 0 < x * x.
Proof.
  intro Hx. destruct (Q_dec x 0) as [[H|H]|H]; [| |contradiction].
  - setoid_replace (x * x) with ((- x) * (- x)) by ring.
    apply Qmult_lt_0_compat; lra.
  - apply Qmult_lt_0_compat; exact H.
Qed.

Lemma Qsum_nonneg (l : list Q) : Forall (fun x => 0 <= x) l -> 0 <= Qsum l.
Proof.
  induction 1 as [|x l Hx Hl IH]; unfold Qsum in *; cbn [fold_right]; lra.
Qed.

Lemma Qsum_pos (l : list Q) (x : Q) :
  Forall (fun y => 0 <= y) l -> In x l -> 0 < x -> 0 < Qsum l.
Proof.
  induction 1 as [|y l Hy Hl IH]; intros Hin Hx; [contradiction|].
  unfold Qsum in *. cbn [fold_right].
  destruct Hin as [->|Hin].
  - assert (H := Qsum_nonneg l Hl). unfold Qsum in H. lra.
  - specialize (IH Hin Hx). lra.
Qed.

Lemma Qsum_scaled (k m my a : Q) (qs : list Q) :
  my == a + k * m ->
  Qsum (map2 (fun q y => (q - m) * (y - my)) qs
             (map (fun q => a + k * q) qs))
  == k * Qsum (map (fun q => (q - m) * (q - m)) qs).
Proof.
  intro Hmy. induction qs as [|q qs IH]; unfold Qsum in *; cbn; [ring|].
  rewrite IH, Hmy. ring.
Qed.

Lemma Qsum_affine (a k : Q) (qs : list Q) :
  Qsum (map (fun q => a + k * q) qs) == Qnat (length qs) * a + k * Qsum qs.
Proof.
  induction qs as [|q qs IH].
  - unfold Qsum, Qnat. cbn. ring.
  - cbn [map length]. rewrite Qnat_S. unfold Qsum in *. cbn [fold_right].
    rewrite IH. ring.
Qed.

Lemma linregress_slope_affine (qs : list Q) (a k u v : Q) :
  In u qs -> In v qs -> ~ u == v ->
  exists b,
    linregress_slope (map Fin qs) (map Fin (map (fun q => a + k * q) qs))
    = Ok b
    /\ b ≈ Fin k.
Proof.
  intros Hu Hv Hne.
  assert (Hnil : qs <> []) by (intros ->; contradiction).
  assert (Hlen : (0 < length qs)%nat).
  { destruct qs; [congruence | simpl; lia]. }
  unfold linregress_slope.
  rewrite !length_map.
  assert (E0 : Nat.eqb (length qs) 0 = false) by (apply Nat.eqb_neq; lia).
  rewrite E0. cbn [orb].
  rewrite (amax_amin_differ qs u v Hu Hv Hne). cbn [andb].
  rewrite Nat.eqb_refl. cbn [negb].
  eexists. split; [reflexivity|].
  set (n := Qnat (length qs)).
  assert (Hn : 0 < n) by (apply Qnat_pos; exact Hlen).
  assert (Hxm := vreps_np_mean _ _ (vreps_fins qs) Hnil). fold n in Hxm.
  assert (Hnil' : map (fun q => a + k * q) qs <> []).
  { destruct qs; [congruence | discriminate]. }
  assert (Hym := vreps_np_mean _ _ (vreps_fins (map (fun q => a + k * q) qs))
                               Hnil').
  rewrite length_map in Hym. fold n in Hym.
  destruct (feq_Fin_inv _ _ Hxm) as [mx [Exm Hmx]].
  destruct (feq_Fin_inv _ _ Hym) as [my [Eym Hmy]].
  rewrite Exm, Eym.
  assert (Hmy' : my == a + k * mx).
  { rewrite Hmy, Hmx, Qsum_affine. fold n. field. lra. }
  assert (Hsq : vreps (map (fun xi => fsquare (xi - Fin mx)%F) (map Fin qs))
                      (map (fun q => (q - mx) * (q - mx)) qs)).
  { apply vreps_map; [|apply vreps_fins].
    intros w q Hw. unfold fsquare. rewrite Hw, fsub_Fin, fmul_Fin.
    reflexivity. }
  assert (Hxy : vreps (map2 (fun xi yi => ((xi - Fin mx) * (yi - Fin my))%F)
                            (map Fin qs)
                            (map Fin (map (fun q => a + k * q) qs)))
                      (map2 (fun q y => (q - mx) * (y - my)) qs
                            (map (fun q => a + k * q) qs))).
  { apply vreps_map2; [|apply vreps_fins|apply vreps_fins].
    intros w q w' q' Hw Hw'. rewrite Hw, Hw', !fsub_Fin, fmul_Fin.
    reflexivity. }
  assert (Hsqn : map (fun q => (q - mx) * (q - mx)) qs <> []).
  { destruct qs; [congruence | discriminate]. }
  assert (Hxyn : map2 (fun q y => (q - mx) * (y - my)) qs
                      (map (fun q => a + k * q) qs) <> []).
  { destruct qs; [congruence | discriminate]. }
  rewrite (vreps_np_mean _ _ Hsq Hsqn), (vreps_np_mean _ _ Hxy Hxyn).
  assert (Hl2 : length (map2 (fun q y => (q - mx) * (y - my)) qs
                             (map (fun q => a + k * q) qs)) = length qs).
  { apply map2_length_same. rewrite length_map. reflexivity. }
  rewrite Hl2, length_map. fold n.
  set (SS := Qsum (map (fun q => (q - mx) * (q - mx)) qs)).
  assert (Hpos : 0 < SS).
  { assert (Hw : exists w, In w qs /\ ~ w == mx).
    { destruct (Qeq_dec u mx) as [Eu|Eu]; [|exists u; split; assumption].
      exists v. split; [exact Hv|]. intro Ev. apply Hne.
      rewrite Eu, Ev. reflexivity. }
    destruct Hw as [w [Hw Hwm]].
    apply (Qsum_pos _ ((w - mx) * (w - mx))).
    - rewrite Forall_map. apply Forall_forall. intros x _.
      apply Qsquare_nonneg.
    - apply in_map_iff. exists w. split; [reflexivity | exact Hw].
    - apply Qsquare_pos. lra. }
  assert (Hd : ~ SS / n == 0).
  { assert (0 < SS / n); [|lra].
    unfold Qdiv. apply Qmult_lt_0_compat; [exact Hpos|].
    apply Qinv_lt_0_compat. exact Hn. }
  rewrite (fdiv_Fin _ _ Hd). apply feq_Fin.
  rewrite (Qsum_scaled k mx my a qs Hmy'). fold SS.
  field. split; lra.
Qed.

(** When the target's returns are an exact affine function [a + k * x]
    of the benchmark's returns [x] over at least 30 common dates, and the
    benchmark's returns are not all the same, [calculate_beta] returns the
    slope [k]: the intercept has no effect on it. *)
Theorem calculate_beta_recovers_slope (xs : list (timestamp * Q)) (a k : Q)
        (r1 r2 : timestamp * Q) :
  NoDup (index xs) -> (30 <= length xs)%nat ->
  In r1 xs -> In r2 xs -> ~ snd r1 == snd r2 ->
  exists b,
    calculate_beta (fins (affine_of a k xs)) (fins xs) = Ok b /\ b ≈ Fin k.
Proof.
  intros Hnd Hlen H1 H2 Hne. unfold calculate_beta.
  assert (Hia : index (fins (affine_of a k xs)) = index xs).
  { rewrite fins_index. unfold affine_of, index. rewrite map_map.
    reflexivity. }
  rewrite Hia, fins_index, (intersection_self _ Hnd).
  rewrite index_length.
  assert (E : Nat.ltb (length xs) 30 = false) by (apply Nat.ltb_ge; exact Hlen).
  rewrite E.
  assert (Ly : loc (fins (affine_of a k xs)) (index xs)
               = fins (affine_of a k xs)).
  { rewrite <- Hia. apply loc_self. rewrite Hia. exact Hnd. }
  assert (Lx : loc (fins xs) (index xs) = fins xs).
  { rewrite <- (fins_index xs). apply loc_self. rewrite fins_index.
    exact Hnd. }
  cbv zeta. rewrite Ly, Lx.
  assert (Ex : values (fins xs) = map Fin (values xs)).
  { unfold values, fins. rewrite !map_map. reflexivity. }
  assert (Ey : values (fins (affine_of a k xs))
               = map Fin (map (fun q => a + k * q) (values xs))).
  { unfold values, fins, affine_of. rewrite !map_map. reflexivity. }
  rewrite Ex, Ey.
  apply (linregress_slope_affine (values xs) a k (snd r1) (snd r2)).
  - unfold values. apply in_map. exact H1.
  - unfold values. apply in_map. exact H2.
  - exact Hne.
Qed.

Lemma calculate_beta_recovers_slope_witness :
  NoDup (index sample_market_returns)
  /\ (30 <= length sample_market_returns)%nat
  /\ exists b,
      calculate_beta (fins (affine_of (1 # 1000) (3 # 2) sample_market_returns))
                     (fins sample_market_returns) = Ok b
      /\ b ≈ Fin (3 # 2).
Proof.
  assert (Hnd : NoDup (index sample_market_returns)).
  { apply is_unique_NoDup. vm_compute. reflexivity. }
  assert (Hlen : (30 <= length sample_market_returns)%nat).
  { vm_compute. lia. }
  split; [exact Hnd|]. split; [exact Hlen|].
  apply (calculate_beta_recovers_slope sample_market_returns (1 # 1000) (3 # 2)
           ((20400 * 1440)%Z, 1 # 100) ((20401 * 1440)%Z, -1 # 100) Hnd Hlen).
  - left. reflexivity.
  - right. left. reflexivity.
  - cbn [snd]. intro H. discriminate H.
Defined.

(** ** forensics.py: the spread of two instruments on the union of their
    timestamps *)

Import Forensics.

Lemma insert_sorted_perm (t : Z) (l : list Z) :
  Permutation (insert_sorted t l) (t :: l).
Proof.
  induction l as [|u l IH]; [reflexivity|].
  cbn [insert_sorted]. destruct (t <=? u)%Z; [reflexivity|].
  rewrite IH. apply perm_swap.
Qed.

Lemma sort_perm (l : list Z) : Permutation (Stats.sort l) l.
Proof.
  induction l as [|t l IH]; [reflexivity|].
  unfold Stats.sort in *. cbn [fold_right].
  rewrite insert_sorted_perm. constructor. exact IH.
Qed.

Lemma insert_sorted_sorted (t : Z) (l : list Z) :
  StronglySorted Z.le l -> StronglySorted Z.le (insert_sorted t l).
Proof.
  induction 1 as [|u l Hl IH Hu]; [repeat constructor|].
  cbn [insert_sorted]. destruct (t <=? u)%Z eqn:E.
  - apply Z.leb_le in E. constructor; [constructor; assumption|].
    constructor; [exact E|].
    eapply Forall_impl; [|exact Hu]. intros x Hx. cbv beta in Hx. lia.
  - apply Z.leb_gt in E. constructor; [exact IH|].
    apply Forall_forall. intros x Hx.
    apply (Permutation_in _ (insert_sorted_perm t l)) in Hx.
    destruct Hx as [<-|Hx]; [lia|].
    exact (proj1 (Forall_forall _ _) Hu x Hx).
Qed.

Lemma sort_sorted (l : list Z) : StronglySorted Z.le (Stats.sort l).
Proof.
  induction l as [|t l IH]; [constructor|].
  unfold Stats.sort in *. cbn [fold_right].
  apply insert_sorted_sorted. exact IH.
Qed.

Lemma union_sorted (a b : list timestamp) : StronglySorted Z.lt (union a b).
Proof.
  unfold union. apply sorted_nodup_strict; [apply sort_sorted|].
  apply (Permutation_NoDup (Permutation_sym (sort_perm _))).
  apply unique_NoDup.
Qed.

Lemma union_In (t : timestamp) (a b : list timestamp) :
  In t (union a b) <-> In t a \/ In t b.
Proof.
  unfold union. rewrite sort_In, unique_In. apply in_app_iff.
Qed.

Lemma sort_id (l : list Z) : StronglySorted Z.le l -> Stats.sort l = l.
Proof.
  induction 1 as [|t l Hl IH Ht]; [reflexivity|].
  unfold Stats.sort in *. cbn [fold_right]. rewrite IH.
  destruct l as [|u l]; [reflexivity|].
  cbn [insert_sorted]. inversion Ht as [|? ? Hu _]; subst.
  destruct (Z.leb_spec t u); [reflexivity | lia].
Qed.

Lemma filter_twice {A : Type} (f g : A -> bool) (l : list A) :
  filter f (filter g l) = filter (fun x => g x && f x) l.
Proof.
  induction l as [|x l IH]; [reflexivity|].
  cbn [filter]. destruct (g x); cbn [andb filter]; [|exact IH].
  destruct (f x); rewrite IH; reflexivity.
Qed.

Lemma filter_none {A : Type} (f : A -> bool) (l : list A) :
  (forall x, In x l -> f x = false) -> filter f l = [].
Proof.
  induction l as [|x l IH]; intro H; [reflexivity|].
  cbn [filter]. rewrite (H x (or_introl eq_refl)).
  apply IH. intros y Hy. apply H. right. exact Hy.
Qed.

Lemma unique_app (a b : list timestamp) :
  unique (a ++ b)
  = unique a ++ filter (fun t => negb (mem t a)) (unique b).
Proof.
  induction a as [|x a IH].
  - cbn. symmetry. apply forallb_filter_id. apply forallb_forall.
    intros; reflexivity.
  - cbn [app unique]. rewrite IH, filter_app. f_equal. f_equal.
    rewrite filter_twice. apply filter_ext. intro t.
    unfold mem. cbn [existsb]. rewrite negb_orb. apply andb_comm.
Qed.

Lemma union_self (l : list timestamp) :
  StronglySorted Z.lt l -> union l l = l.
Proof.
  intro H. unfold union. rewrite unique_app.
  assert (Hnd := strict_sorted_NoDup l H).
  rewrite (unique_id l Hnd).
  assert (E : filter (fun t => negb (mem t l)) l = []).
  { apply filter_none. intros t Ht. apply negb_false_iff. apply mem_In.
    exact Ht. }
  rewrite E, app_nil_r. apply sort_id. apply strict_sorted_le. exact H.
Qed.

Lemma NoDup_is_unique (l : list timestamp) : NoDup l -> is_unique l = true.
Proof.
  induction 1 as [|x l Hx Hl IH]; [reflexivity|].
  cbn [is_unique]. rewrite IH, andb_true_r. apply negb_true_iff.
  destruct (mem x l) eqn:E; [|reflexivity].
  apply mem_In in E. contradiction.
Qed.

Lemma index_eqb_eq (a b : list timestamp) : index_eqb a b = true -> a = b.
Proof.
  unfold index_eqb. revert b.
  induction a as [|x a IH]; intros [|y b] H; cbn in H; try discriminate;
    [reflexivity|].
  apply andb_true_iff in H. destruct H as [Hl H].
  apply andb_true_iff in H. destruct H as [Hxy H].
  apply Z.eqb_eq in Hxy. subst y. f_equal. apply IH.
  rewrite Hl, H. reflexivity.
Qed.

Lemma close_at_row (s : frame) (r : timestamp * Q) :
  NoDup (index s) -> In r s -> close_at s (fst r) = Fin (snd r).
Proof.
  intros Hnd Hr. unfold close_at.
  assert (Hin : In (fst r) (index s)) by (apply in_map; exact Hr).
  destruct (filter_label_single (fst r) s Hnd Hin) as [v [Hv Hf]].
  rewrite Hf. cbn [snd]. f_equal.
  assert (Hr' : In r (filter (fun r0 => Z.eqb (fst r0) (fst r)) s)).
  { apply filter_In. split; [exact Hr | apply Z.eqb_refl]. }
  rewrite Hf in Hr'. destruct Hr' as [<-|[]]. reflexivity.
Qed.

Lemma close_at_absent (s : frame) (t : timestamp) :
  ~ In t (index s) -> close_at s t = NaN.
Proof.
  intro H. unfold close_at. rewrite (filter_label_absent t s H). reflexivity.
Qed.

Lemma close_at_cases (s : frame) (t : timestamp) :
  NoDup (index s) ->
  (~ In t (index s) /\ close_at s t = NaN)
  \/ exists r, In r s /\ fst r = t /\ close_at s t = Fin (snd r).
Proof.
  intro Hnd. destruct (in_dec Z.eq_dec t (index s)) as [Hin|Hin].
  - right. apply in_map_iff in Hin. destruct Hin as [r [Hr Hin]].
    exists r. split; [exact Hin|]. split; [exact Hr|].
    rewrite <- Hr. apply close_at_row; assumption.
  - left. split; [exact Hin | apply close_at_absent; exact Hin].
Qed.

Lemma close_at_self (s : frame) :
  NoDup (index s) -> map (fun t => (t, close_at s t)) (index s) = fins s.
Proof.
  intro Hnd. unfold index, fins. rewrite map_map. apply map_ext_in.
  intros r Hr. f_equal. apply close_at_row; assumption.
Qed.

Lemma reindex_unique (s : frame) (idx : list timestamp) :
  NoDup (index s) ->
  reindex s idx = Ok (map (fun t => (t, close_at s t)) idx).
Proof.
  intro Hnd. unfold reindex.
  destruct (index_eqb (index s) idx) eqn:E.
  - apply index_eqb_eq in E. subst idx. rewrite close_at_self by exact Hnd.
    reflexivity.
  - rewrite (NoDup_is_unique _ Hnd). reflexivity.
Qed.

Lemma ffill_from_index (s : series) (last : fnum) :
  index (ffill_from last s) = index s.
Proof.
  revert last. induction s as [|r s IH]; intro last; [reflexivity|].
  cbn [ffill_from index map fst]. f_equal. apply IH.
Qed.

Lemma div_by_index (s : series) (k : fnum) : index (div_by s k) = index s.
Proof. unfold div_by, index. rewrite map_map. reflexivity. Qed.

Lemma index_of_labels {A : Type} (f : timestamp -> A) (l : list timestamp) :
  index (map (fun t => (t, f t)) l) = l.
Proof. unfold index. rewrite map_map. cbn [fst]. apply map_id. Qed.

Lemma ffill_from_as_of (s : frame) (l : list timestamp) :
  NoDup (index s) ->
  forall (lo : Z) (last : fnum),
    StronglySorted Z.lt l ->
    Forall (fun t => (lo < t)%Z) l ->
    (forall r, In r s -> In (fst r) l \/ (fst r <= lo)%Z) ->
    as_of s lo last ->
    Forall (fun row => as_of s (fst row) (snd row))
           (ffill_from last (map (fun t => (t, close_at s t)) l)).
Proof.
  intro Hnd. induction l as [|t l IH]; intros lo last Hs Hlo Hcov Hlast;
    [constructor|].
  inversion Hs as [|? ? Hs' Ht]; subst.
  inversion Hlo as [|? ? Hlt Hlo']; subst.
  assert (Hgt : forall u, In u l -> (t < u)%Z)
    by exact (proj1 (Forall_forall _ _) Ht).
  cbn [map ffill_from fst snd].
  set (v := if isnan (close_at s t) then last else close_at s t).
  assert (Hv : as_of s t v).
  { destruct (close_at_cases s t Hnd) as [[Hnin E]|[r [Hr [Hrt E]]]].
    - unfold v. rewrite E. cbn [isnan].
      assert (Hne : forall r, In r s -> fst r <> t).
      { intros r Hr Heq. apply Hnin. rewrite <- Heq. apply in_map. exact Hr. }
      destruct Hlast as [[-> Hall]|[r [Hr [Hle [-> Hmax]]]]].
      + left. split; [reflexivity|]. intros r Hr.
        specialize (Hall r Hr). specialize (Hne r Hr).
        destruct (Hcov r Hr) as [[Heq|Hin]|Hle]; [congruence| |lia].
        exact (Hgt _ Hin).
      + right. exists r. split; [exact Hr|]. split; [lia|].
        split; [reflexivity|]. intros r' Hr' Hle'.
        specialize (Hne r' Hr').
        destruct (Hcov r' Hr') as [[Heq|Hin]|Hle2]; [congruence| |].
        * specialize (Hgt _ Hin). lia.
        * apply Hmax; assumption.
    - unfold v. rewrite E. cbn [isnan].
      right. exists r. split; [exact Hr|]. split; [lia|].
      split; [reflexivity|]. intros r' _ Hle. lia. }
  constructor; [exact Hv|].
  apply (IH t v Hs' Ht); [|exact Hv].
  intros r Hr. destruct (Hcov r Hr) as [[Heq|Hin]|Hle];
    [right; lia | left; exact Hin | right; lia].
Qed.

Lemma ffill_as_of (s : frame) (l : list timestamp) :
  NoDup (index s) -> StronglySorted Z.lt l ->
  (forall t, In t (index s) -> In t l) ->
  Forall (fun row => as_of s (fst row) (snd row))
         (ffill (map (fun t => (t, close_at s t)) l)).
Proof.
  intros Hnd Hs Hcov. unfold ffill.
  destruct l as [|t0 l]; [constructor|].
  apply (ffill_from_as_of s (t0 :: l) Hnd (t0 - 1)%Z NaN Hs).
  - inversion Hs as [|? ? _ Ht]; subst. constructor; [lia|].
    eapply Forall_impl; [|exact Ht]. intros u Hu. cbv beta in Hu. lia.
  - intros r Hr. left. apply Hcov. apply in_map. exact Hr.
  - left. split; [reflexivity|]. intros r Hr.
    assert (Hin : In (fst r) (t0 :: l)) by (apply Hcov, in_map; exact Hr).
    inversion Hs as [|? ? _ Ht]; subst.
    destruct Hin as [<-|Hin]; [lia|].
    assert (H := proj1 (Forall_forall _ _) Ht _ Hin). cbv beta in H. lia.
Qed.

Lemma between_time_NoDup (lo hi : Z) (s : frame) :
  NoDup (index s) -> NoDup (index (between_time lo hi s)).
Proof. intro H. unfold between_time. apply NoDup_index_filter. exact H. Qed.

(** what the function computes when the timestamps of each side are
    distinct and both sides have a bar within trading hours *)
Lemma leak_spread_eq (xle_day uso_day : frame) :
  NoDup (index xle_day) -> NoDup (index uso_day) ->
  rth_bars xle_day <> [] -> rth_bars uso_day <> [] ->
  exists t0 l,
    union (index (rth_bars xle_day)) (index (rth_bars uso_day)) = t0 :: l
    /\ calculate_leak_spread xle_day uso_day
       = Ok (Some
               (series_sub
                  (div_by (ffill (map (fun t => (t, close_at (rth_bars xle_day) t))
                                      (t0 :: l)))
                          (close_at (rth_bars xle_day) t0))
                  (div_by (ffill (map (fun t => (t, close_at (rth_bars uso_day) t))
                                      (t0 :: l)))
                          (close_at (rth_bars uso_day) t0)),
                div_by (ffill (map (fun t => (t, close_at (rth_bars xle_day) t))
                                   (t0 :: l)))
                       (close_at (rth_bars xle_day) t0),
                div_by (ffill (map (fun t => (t, close_at (rth_bars uso_day) t))
                                   (t0 :: l)))
                       (close_at (rth_bars uso_day) t0))).
Proof.
  intros Hx Hu Hxn Hun.
  assert (Hx' := between_time_NoDup rth_open rth_close _ Hx).
  assert (Hu' := between_time_NoDup rth_open rth_close _ Hu).
  fold (rth_bars xle_day) in Hx'. fold (rth_bars uso_day) in Hu'.
  unfold calculate_leak_spread.
  fold (rth_bars xle_day). fold (rth_bars uso_day). cbv zeta.
  destruct (union (index (rth_bars xle_day)) (index (rth_bars uso_day)))
    as [|t0 l] eqn:E.
  { exfalso. destruct (rth_bars xle_day) as [|r X]; [congruence|].
    assert (Hin : In (fst r) (union (index (r :: X)) (index (rth_bars uso_day)))).
    { apply union_In. left. left. reflexivity. }
    rewrite E in Hin. contradiction. }
  exists t0, l. split; [reflexivity|].
  destruct (rth_bars xle_day) as [|rx X] eqn:EX; [congruence|].
  destruct (rth_bars uso_day) as [|ru U] eqn:EU; [congruence|].
  rewrite (reindex_unique _ _ Hx'), (reindex_unique _ _ Hu'). cbn [bind].
  unfold ffill at 1 2. cbn [map ffill_from iloc_first bind fst snd].
  unfold ffill. cbn [map ffill_from fst snd].
  assert (En : forall v, (if isnan v then NaN else v) = v)
    by (intros [| | |]; reflexivity).
  rewrite !En. reflexivity.
Qed.

Lemma map2_index_left (f : fnum -> fnum -> fnum) (a b : series) :
  length a = length b ->
  index (map2 (fun ra rb => (fst ra, f (snd ra) (snd rb))) a b) = index a.
Proof.
  revert b. induction a as [|x a IH]; intros [|y b] H; try discriminate;
    [reflexivity|].
  cbn [map2 index map fst]. f_equal. apply IH. simpl in H. lia.
Qed.

Lemma map2_Forall {A B C : Type} (f : A -> B -> C)
      (P : A -> Prop) (Q : B -> Prop) (R : C -> Prop) (a : list A) (b : list B) :
  (forall x y, P x -> Q y -> R (f x y)) ->
  Forall P a -> Forall Q b -> Forall R (map2 f a b).
Proof.
  intros Hf Ha. revert b.
  induction Ha as [|x a Hx Ha IH]; intros b Hb; [constructor|].
  destruct Hb as [|y b Hy Hb]; [constructor|].
  cbn [map2]. constructor; [apply Hf; assumption | apply IH; exact Hb].
Qed.

Lemma leak_spread_some_nonempty (xle_day uso_day : frame)
      (res : series * series * series) :
  calculate_leak_spread xle_day uso_day = Ok (Some res) ->
  rth_bars xle_day <> [] /\ rth_bars uso_day <> [].
Proof.
  unfold calculate_leak_spread. fold (rth_bars xle_day) (rth_bars uso_day).
  cbv zeta.
  destruct (rth_bars xle_day); [discriminate|].
  destruct (rth_bars uso_day); [discriminate|].
  intros _. split; discriminate.
Qed.

Lemma filled_index (s : frame) (l : list timestamp) (k : fnum) :
  index (div_by (ffill (map (fun t => (t, close_at s t)) l)) k) = l.
Proof.
  rewrite div_by_index. unfold ffill. rewrite ffill_from_index.
  apply index_of_labels.
Qed.

Lemma leak_spread_sub (s s' : frame) (l : list timestamp) (k k' : fnum) :
  series_sub (div_by (ffill (map (fun t => (t, close_at s t)) l)) k)
             (div_by (ffill (map (fun t => (t, close_at s' t)) l)) k')
  = map2 (fun ra rb => (fst ra, (snd ra - snd rb)%F))
         (div_by (ffill (map (fun t => (t, close_at s t)) l)) k)
         (div_by (ffill (map (fun t => (t, close_at s' t)) l)) k').
Proof.
  apply series_sub_same_index. rewrite !filled_index. reflexivity.
Qed.

Lemma leak_spread_inv (xle_day uso_day : frame)
      (spread xle_norm uso_norm : series) :
  NoDup (index xle_day) -> NoDup (index uso_day) ->
  calculate_leak_spread xle_day uso_day
  = Ok (Some (spread, xle_norm, uso_norm)) ->
  exists t0 l,
    union (index (rth_bars xle_day)) (index (rth_bars uso_day)) = t0 :: l
    /\ xle_norm
       = div_by (ffill (map (fun t => (t, close_at (rth_bars xle_day) t))
                            (t0 :: l)))
                (close_at (rth_bars xle_day) t0)
    /\ uso_norm
       = div_by (ffill (map (fun t => (t, close_at (rth_bars uso_day) t))
                            (t0 :: l)))
                (close_at (rth_bars uso_day) t0)
    /\ spread = map2 (fun ra rb => (fst ra, (snd ra - snd rb)%F))
                     xle_norm uso_norm.
Proof.
  intros Hx Hu H.
  destruct (leak_spread_some_nonempty _ _ _ H) as [Hxn Hun].
  destruct (leak_spread_eq xle_day uso_day Hx Hu Hxn Hun) as [t0 [l [E H']]].
  exists t0, l. split; [exact E|].
  rewrite leak_spread_sub in H'.
  remember (div_by (ffill (map (fun t => (t, close_at (rth_bars xle_day) t))
                              (t0 :: l)))
                   (close_at (rth_bars xle_day) t0)) as xn eqn:Exn.
  remember (div_by (ffill (map (fun t => (t, close_at (rth_bars uso_day) t))
                              (t0 :: l)))
                   (close_at (rth_bars uso_day) t0)) as un eqn:Eun.
  rewrite H' in H. injection H as Hs Hxe Hue.
  subst xle_norm uso_norm spread.
  split; [reflexivity|]. split; reflexivity.
Qed.

(** With distinct timestamps on each side, [calculate_leak_spread] never
    raises.  It returns [None] when a side has no bar within 09:30-16:00;
    otherwise the spread and the two normalized series carry the same
    strictly increasing index, the union of the timestamps of both sides
    within those hours. *)
Theorem leak_spread_on_union (xle_day uso_day : frame) :
  NoDup (index xle_day) -> NoDup (index uso_day) ->
  ((rth_bars xle_day = [] \/ rth_bars uso_day = [])
   /\ calculate_leak_spread xle_day uso_day = Ok None)
  \/ exists spread xle_norm uso_norm,
      calculate_leak_spread xle_day uso_day
      = Ok (Some (spread, xle_norm, uso_norm))
      /\ index xle_norm = index spread
      /\ index uso_norm = index spread
      /\ StronglySorted Z.lt (index spread)
      /\ forall t, In t (index spread)
                   <-> In t (index (rth_bars xle_day))
                       \/ In t (index (rth_bars uso_day)).
Proof.
  intros Hx Hu.
  destruct (rth_bars xle_day) as [|rx X] eqn:EX.
  { left. split; [left; reflexivity|].
    unfold calculate_leak_spread. fold (rth_bars xle_day). rewrite EX.
    reflexivity. }
  destruct (rth_bars uso_day) as [|ru U] eqn:EU.
  { left. split; [right; reflexivity|].
    unfold calculate_leak_spread.
    fold (rth_bars xle_day) (rth_bars uso_day). rewrite EX, EU.
    reflexivity. }
  right.
  destruct (leak_spread_eq xle_day uso_day Hx Hu) as [t0 [l [E H]]];
    [rewrite EX; discriminate | rewrite EU; discriminate |].
  rewrite EX, EU in E, H.
  eexists _, _, _. split; [exact H|].
  rewrite leak_spread_sub.
  rewrite map2_index_left
    by (rewrite <- !(index_length (A := fnum)), !filled_index; reflexivity).
  rewrite !filled_index.
  split; [reflexivity|]. split; [reflexivity|].
  rewrite <- E. split; [apply union_sorted|].
  intro t. apply union_In.
Qed.

Lemma leak_spread_on_union_witness :
  NoDup (index event_xle) /\ NoDup (index event_oil)
  /\ exists spread xle_norm uso_norm,
      calculate_leak_spread event_xle event_oil
      = Ok (Some (spread, xle_norm, uso_norm))
      /\ index spread
         = [(20455 * 1440 + 570)%Z; (20455 * 1440 + 575)%Z;
            (20455 * 1440 + 580)%Z; (20455 * 1440 + 585)%Z].
Proof.
  assert (Hx : NoDup (index event_xle))
    by (apply is_unique_NoDup; vm_compute; reflexivity).
  assert (Hu : NoDup (index event_oil))
    by (apply is_unique_NoDup; vm_compute; reflexivity).
  split; [exact Hx|]. split; [exact Hu|].
  destruct (leak_spread_on_union event_xle event_oil Hx Hu)
    as [[_ H]|[spread [xn [un [H _]]]]].
  - vm_compute in H. discriminate H.
  - exists spread, xn, un. split; [exact H|].
    vm_compute in H. injection H as <- _ _. vm_compute. reflexivity.
Defined.

(** The two normalized series are forward-filled: under each timestamp of
    the union, a side carries the close of its latest bar at or before
    that time (NaN when it has none yet), divided by its value under the
    first timestamp of the union; the spread is their difference, row by
    row. *)
Theorem leak_spread_forward_filled (xle_day uso_day : frame)
        (spread xle_norm uso_norm : series) :
  NoDup (index xle_day) -> NoDup (index uso_day) ->
  calculate_leak_spread xle_day uso_day
  = Ok (Some (spread, xle_norm, uso_norm)) ->
  exists (t0 : timestamp) (x0 u0 : fnum),
    hd_error (index spread) = Some t0
    /\ as_of (rth_bars xle_day) t0 x0
    /\ as_of (rth_bars uso_day) t0 u0
    /\ Forall (fun row => exists c, as_of (rth_bars xle_day) (fst row) c
                                    /\ snd row = (c / x0)%F) xle_norm
    /\ Forall (fun row => exists c, as_of (rth_bars uso_day) (fst row) c
                                    /\ snd row = (c / u0)%F) uso_norm
    /\ spread = map2 (fun ra rb => (fst ra, (snd ra - snd rb)%F))
                     xle_norm uso_norm.
Proof.
  intros Hx Hu H.
  destruct (leak_spread_some_nonempty _ _ _ H) as [Hxn Hun].
  destruct (leak_spread_eq xle_day uso_day Hx Hu Hxn Hun) as [t0 [l [E H']]].
  remember (div_by (ffill (map (fun t => (t, close_at (rth_bars xle_day) t))
                              (t0 :: l)))
                   (close_at (rth_bars xle_day) t0)) as xn eqn:Exn.
  remember (div_by (ffill (map (fun t => (t, close_at (rth_bars uso_day) t))
                              (t0 :: l)))
                   (close_at (rth_bars uso_day) t0)) as un eqn:Eun.
  rewrite H' in H. injection H as Hs Hxe Hue.
  subst xle_norm uso_norm spread.
  assert (Hx' := between_time_NoDup rth_open rth_close _ Hx).
  assert (Hu' := between_time_NoDup rth_open rth_close _ Hu).
  fold (rth_bars xle_day) in Hx'. fold (rth_bars uso_day) in Hu'.
  assert (Hsorted : StronglySorted Z.lt (t0 :: l))
    by (rewrite <- E; apply union_sorted).
  assert (Fx : Forall (fun row => as_of (rth_bars xle_day) (fst row) (snd row))
                 (ffill (map (fun t => (t, close_at (rth_bars xle_day) t))
                             (t0 :: l)))).
  { apply (ffill_as_of (rth_bars xle_day) (t0 :: l) Hx' Hsorted).
    intros t Ht. rewrite <- E. apply union_In. left. exact Ht. }
  assert (Fu : Forall (fun row => as_of (rth_bars uso_day) (fst row) (snd row))
                 (ffill (map (fun t => (t, close_at (rth_bars uso_day) t))
                             (t0 :: l)))).
  { apply (ffill_as_of (rth_bars uso_day) (t0 :: l) Hu' Hsorted).
    intros t Ht. rewrite <- E. apply union_In. right. exact Ht. }
  assert (En : forall v, (if isnan v then NaN else v) = v)
    by (intros [| | |]; reflexivity).
  assert (Hsub : series_sub xn un
                 = map2 (fun ra rb => (fst ra, (snd ra - snd rb)%F)) xn un).
  { rewrite Exn, Eun. apply leak_spread_sub. }
  exists t0, (close_at (rth_bars xle_day) t0),
         (close_at (rth_bars uso_day) t0).
  split.
  { rewrite Hsub, map2_index_left.
    - rewrite Exn, filled_index. reflexivity.
    - rewrite <- !(index_length (A := fnum)), Exn, Eun, !filled_index.
      reflexivity. }
  split.
  { assert (H0 := Fx). unfold ffill in H0.
    cbn [map ffill_from fst snd] in H0. apply Forall_inv in H0.
    cbn [fst snd] in H0. rewrite En in H0. exact H0. }
  split.
  { assert (H0 := Fu). unfold ffill in H0.
    cbn [map ffill_from fst snd] in H0. apply Forall_inv in H0.
    cbn [fst snd] in H0. rewrite En in H0. exact H0. }
  split.
  { rewrite Exn. unfold div_by. rewrite Forall_map.
    eapply Forall_impl; [|exact Fx]. intros row Hrow. cbn [fst snd].
    exists (snd row). split; [exact Hrow | reflexivity]. }
  split.
  { rewrite Eun. unfold div_by. rewrite Forall_map.
    eapply Forall_impl; [|exact Fu]. intros row Hrow. cbn [fst snd].
    exists (snd row). split; [exact Hrow | reflexivity]. }
  exact Hsub.
Qed.

Lemma leak_spread_forward_filled_witness :
  NoDup (index event_xle) /\ NoDup (index event_oil)
  /\ exists spread xle_norm uso_norm,
      calculate_leak_spread event_xle event_oil
      = Ok (Some (spread, xle_norm, uso_norm))
      /\ exists (t0 : timestamp) (x0 u0 : fnum),
          hd_error (index spread) = Some t0
          /\ as_of (rth_bars event_xle) t0 x0
          /\ as_of (rth_bars event_oil) t0 u0
          /\ Forall (fun row => exists c,
                         as_of (rth_bars event_xle) (fst row) c
                         /\ snd row = (c / x0)%F) xle_norm
          /\ Forall (fun row => exists c,
                         as_of (rth_bars event_oil) (fst row) c
                         /\ snd row = (c / u0)%F) uso_norm
          /\ spread = map2 (fun ra rb => (fst ra, (snd ra - snd rb)%F))
                           xle_norm uso_norm.
Proof.
  assert (Hx : NoDup (index event_xle))
    by (apply is_unique_NoDup; vm_compute; reflexivity).
  assert (Hu : NoDup (index event_oil))
    by (apply is_unique_NoDup; vm_compute; reflexivity).
  split; [exact Hx|]. split; [exact Hu|].
  eexists _, _, _. split; [vm_compute; reflexivity|].
  refine (leak_spread_forward_filled event_xle event_oil _ _ _ Hx Hu _).
  vm_compute. reflexivity.
Defined.

Lemma fsub_NaN_l (y : fnum) : (NaN - y)%F = NaN.
Proof. destruct y; reflexivity. Qed.

Lemma union_head_least (a b : list timestamp) (t0 : timestamp)
      (l : list timestamp) :
  union a b = t0 :: l ->
  (In t0 a \/ In t0 b)
  /\ forall t, In t a \/ In t b -> (t0 <= t)%Z.
Proof.
  intro E. split.
  - apply union_In. rewrite E. left. reflexivity.
  - intros t Ht. apply union_In in Ht. rewrite E in Ht.
    assert (Hs := union_sorted a b). rewrite E in Hs.
    inversion Hs as [|? ? _ Hlt]; subst.
    destruct Ht as [<-|Ht]; [lia|].
    assert (H := proj1 (Forall_forall _ _) Hlt t Ht). cbv beta in H. lia.
Qed.

Lemma div_by_NaN (s : series) :
  Forall (fun row => snd row = NaN) (div_by s NaN).
Proof.
  unfold div_by. rewrite Forall_map. apply Forall_forall. intros r _.
  cbn [snd]. apply fdiv_NaN_r.
Qed.

Lemma late_side_is_nan (s s' : frame) (t0 : timestamp) (l : list timestamp) :
  union (index s) (index s') = t0 :: l ->
  (exists r, In r s' /\ forall r', In r' s -> (fst r < fst r')%Z) ->
  close_at s t0 = NaN.
Proof.
  intros E [r [Hr Hlate]]. apply close_at_absent. intro Hin.
  destruct (union_head_least _ _ _ _ E) as [_ Hleast].
  assert (H0 : (t0 <= fst r)%Z).
  { apply Hleast. right. apply in_map. exact Hr. }
  apply in_map_iff in Hin. destruct Hin as [r' [Heq Hr']].
  specialize (Hlate r' Hr'). lia.
Qed.

Lemma late_side_is_nan_r (s s' : frame) (t0 : timestamp) (l : list timestamp) :
  union (index s') (index s) = t0 :: l ->
  (exists r, In r s' /\ forall r', In r' s -> (fst r < fst r')%Z) ->
  close_at s t0 = NaN.
Proof.
  intros E [r [Hr Hlate]]. apply close_at_absent. intro Hin.
  destruct (union_head_least _ _ _ _ E) as [_ Hleast].
  assert (H0 : (t0 <= fst r)%Z).
  { apply Hleast. left. apply in_map. exact Hr. }
  apply in_map_iff in Hin. destruct Hin as [r' [Heq Hr']].
  specialize (Hlate r' Hr'). lia.
Qed.

Lemma smax_all_nan (s : series) :
  Forall (fun row => snd row = NaN) s -> smax s = NaN.
Proof.
  intro H. unfold smax.
  assert (E : notna (values s) = []).
  { unfold notna, values. apply filter_none. intros v Hv.
    apply in_map_iff in Hv. destruct Hv as [row [<- Hrow]].
    rewrite (proj1 (Forall_forall _ _) H row Hrow). reflexivity. }
  rewrite E. reflexivity.
Qed.

(** When one side's first bar within trading hours comes later than the
    other's, that side is normalized by a missing value: its normalized
    series is NaN under every timestamp, and so is the spread, whose
    maximum [spread.max()] is then NaN too. *)
Theorem leak_spread_late_open (xle_day uso_day : frame)
        (spread xle_norm uso_norm : series) :
  NoDup (index xle_day) -> NoDup (index uso_day) ->
  calculate_leak_spread xle_day uso_day
  = Ok (Some (spread, xle_norm, uso_norm)) ->
  ((exists r, In r (rth_bars uso_day)
              /\ forall r', In r' (rth_bars xle_day) -> (fst r < fst r')%Z) ->
   Forall (fun row => snd row = NaN) xle_norm
   /\ Forall (fun row => snd row = NaN) spread
   /\ smax spread = NaN)
  /\ ((exists r, In r (rth_bars xle_day)
                 /\ forall r', In r' (rth_bars uso_day) -> (fst r < fst r')%Z) ->
      Forall (fun row => snd row = NaN) uso_norm
      /\ Forall (fun row => snd row = NaN) spread
      /\ smax spread = NaN).
Proof.
  intros Hx Hu H.
  destruct (leak_spread_inv _ _ _ _ _ Hx Hu H) as [t0 [l [E [Exn [Eun Es]]]]].
  split; intro Hlate.
  - assert (E0 := late_side_is_nan _ _ _ _ E Hlate).
    rewrite E0 in Exn.
    assert (Hn : Forall (fun row => snd row = NaN) xle_norm)
      by (rewrite Exn; apply div_by_NaN).
    split; [exact Hn|].
    assert (Hsp : Forall (fun row => snd row = NaN) spread).
    { rewrite Es.
      apply (map2_Forall _ (fun row => snd row = NaN) (fun _ => True)).
      + intros x y Hxy _. cbn [snd]. rewrite Hxy. apply fsub_NaN_l.
      + exact Hn.
      + apply Forall_forall. intros; exact I. }
    split; [exact Hsp | apply smax_all_nan; exact Hsp].
  - assert (E0 := late_side_is_nan_r _ _ _ _ E Hlate).
    rewrite E0 in Eun.
    assert (Hn : Forall (fun row => snd row = NaN) uso_norm)
      by (rewrite Eun; apply div_by_NaN).
    split; [exact Hn|].
    assert (Hsp : Forall (fun row => snd row = NaN) spread).
    { rewrite Es.
      apply (map2_Forall _ (fun _ => True) (fun row => snd row = NaN)).
      + intros x y _ Hxy. cbn [snd]. rewrite Hxy. apply fsub_NaN_r.
      + apply Forall_forall. intros; exact I.
      + exact Hn. }
    split; [exact Hsp | apply smax_all_nan; exact Hsp].
Qed.

Lemma leak_spread_late_open_witness :
  NoDup (index event_xle_late) /\ NoDup (index event_oil)
  /\ exists spread xle_norm uso_norm,
      calculate_leak_spread event_xle_late event_oil
      = Ok (Some (spread, xle_norm, uso_norm))
      /\ Forall (fun row => snd row = NaN) xle_norm
      /\ Forall (fun row => snd row = NaN) spread
      /\ smax spread = NaN.
Proof.
  assert (Hx : NoDup (index event_xle_late))
    by (apply is_unique_NoDup; vm_compute; reflexivity).
  assert (Hu : NoDup (index event_oil))
    by (apply is_unique_NoDup; vm_compute; reflexivity).
  split; [exact Hx|]. split; [exact Hu|].
  eexists _, _, _. split; [vm_compute; reflexivity|].
  refine (proj1 (leak_spread_late_open event_xle_late event_oil _ _ _ Hx Hu _) _).
  - vm_compute. reflexivity.
  - exists ((20455 * 1440 + 570)%Z, 50 # 1). split.
    + vm_compute. left. reflexivity.
    + intros r' Hr'. vm_compute in Hr'.
      destruct Hr' as [<-|[<-|[]]]; vm_compute; reflexivity.
Defined.

Lemma as_of_positive (s : frame) (t t0 : timestamp) (c : fnum) :
  positive_closes s -> In t0 (index s) -> (t0 <= t)%Z -> as_of s t c ->
  exists q, c = Fin q /\ 0 < q.
Proof.
  intros Hp Hin Hle [[_ Hall]|[r [Hr [_ [-> _]]]]].
  - exfalso. apply in_map_iff in Hin. destruct Hin as [r [Heq Hr]].
    specialize (Hall r Hr). lia.
  - exists (snd r). split; [reflexivity|].
    exact (proj1 (Forall_forall _ _) Hp r Hr).
Qed.

Lemma fdiv_positive (a b : Q) :
  0 < a -> 0 < b -> exists q, (Fin a / Fin b)%F = Fin q /\ 0 < q /\ q == a / b.
Proof.
  intros Ha Hb. cbn [fdiv].
  assert (E : Qzerob b = false) by (apply Qzerob_false; lra).
  rewrite E. exists (Qred (a / b)). split; [reflexivity|].
  assert (Hq : 0 < a / b).
  { unfold Qdiv. apply Qmult_lt_0_compat; [exact Ha|].
    apply Qinv_lt_0_compat. exact Hb. }
  rewrite Qred_correct. split; [exact Hq | reflexivity].
Qed.

Lemma ffill_labels (s : frame) (l : list timestamp) (row : timestamp * fnum) :
  In row (ffill (map (fun t => (t, close_at s t)) l)) -> In (fst row) l.
Proof.
  intro H. apply (in_map fst) in H.
  assert (E : map fst (ffill (map (fun t => (t, close_at s t)) l)) = l)
    by exact (eq_trans (ffill_from_index _ _) (index_of_labels _ _)).
  rewrite E in H. exact H.
Qed.

Lemma rth_bars_positive (s : frame) :
  positive_closes s -> positive_closes (rth_bars s).
Proof.
  intro H. apply (positive_closes_incl s); [|exact H].
  intros r Hr. apply filter_In in Hr. apply Hr.
Qed.

(** When both sides have positive closes and their first bars within
    trading hours carry the same timestamp, every value of the two
    normalized series is a positive number, every value of the spread is
    finite, both normalized series start at 1, the spread starts at 0 and
    its maximum [spread.max()] is a number that is not negative. *)
Theorem leak_spread_same_open (xle_day uso_day : frame)
        (spread xle_norm uso_norm : series) (t0 : timestamp) :
  NoDup (index xle_day) -> NoDup (index uso_day) ->
  positive_closes xle_day -> positive_closes uso_day ->
  calculate_leak_spread xle_day uso_day
  = Ok (Some (spread, xle_norm, uso_norm)) ->
  In t0 (index (rth_bars xle_day)) -> In t0 (index (rth_bars uso_day)) ->
  (forall t, In t (index (rth_bars xle_day)) -> (t0 <= t)%Z) ->
  (forall t, In t (index (rth_bars uso_day)) -> (t0 <= t)%Z) ->
  Forall (fun row => exists q, snd row = Fin q /\ 0 < q) xle_norm
  /\ Forall (fun row => exists q, snd row = Fin q /\ 0 < q) uso_norm
  /\ Forall (fun row => is_finite (snd row) = true) spread
  /\ (exists a xn', xle_norm = (t0, a) :: xn' /\ a ≈ Fin 1)
  /\ (exists b un', uso_norm = (t0, b) :: un' /\ b ≈ Fin 1)
  /\ (exists v spread', spread = (t0, v) :: spread' /\ v ≈ Fin 0)
  /\ nonnegative (smax spread).
Proof.
  intros Hx Hu Hpx Hpu H Hinx Hinu Hminx Hminu.
  destruct (leak_spread_inv _ _ _ _ _ Hx Hu H) as [t1 [l [E [Exn [Eun Es]]]]].
  assert (Hx' := between_time_NoDup rth_open rth_close _ Hx).
  assert (Hu' := between_time_NoDup rth_open rth_close _ Hu).
  fold (rth_bars xle_day) in Hx'. fold (rth_bars uso_day) in Hu'.
  assert (Hpx' := rth_bars_positive _ Hpx).
  assert (Hpu' := rth_bars_positive _ Hpu).
  destruct (union_head_least _ _ _ _ E) as [Hin1 Hleast].
  assert (Et : t1 = t0).
  { assert (H1 : (t1 <= t0)%Z) by (apply Hleast; left; exact Hinx).
    assert (H2 : (t0 <= t1)%Z)
      by (destruct Hin1 as [Hi|Hi]; [apply Hminx | apply Hminu]; exact Hi).
    lia. }
  subst t1.
  assert (Hsorted : StronglySorted Z.lt (t0 :: l))
    by (rewrite <- E; apply union_sorted).
  assert (Hge : forall t, In t (t0 :: l) -> (t0 <= t)%Z).
  { intros t Ht. apply Hleast. apply union_In. rewrite E. exact Ht. }
  destruct (close_at_cases (rth_bars xle_day) t0 Hx')
    as [[Hn _]|[rx [Hrx [Hrxt Ex0]]]]; [contradiction|].
  destruct (close_at_cases (rth_bars uso_day) t0 Hu')
    as [[Hn _]|[ru [Hru [Hrut Eu0]]]]; [contradiction|].
  assert (Hx0 : 0 < snd rx) by exact (proj1 (Forall_forall _ _) Hpx' rx Hrx).
  assert (Hu0 : 0 < snd ru) by exact (proj1 (Forall_forall _ _) Hpu' ru Hru).
  rewrite Ex0 in Exn. rewrite Eu0 in Eun.
  assert (Fx : Forall (fun row => as_of (rth_bars xle_day) (fst row) (snd row)
                                  /\ In (fst row) (t0 :: l))
                 (ffill (map (fun t => (t, close_at (rth_bars xle_day) t))
                             (t0 :: l)))).
  { apply Forall_and.
    - apply (ffill_as_of (rth_bars xle_day) (t0 :: l) Hx' Hsorted).
      intros t Ht. rewrite <- E. apply union_In. left. exact Ht.
    - apply Forall_forall. intros row Hrow.
      exact (ffill_labels _ _ _ Hrow). }
  assert (Fu : Forall (fun row => as_of (rth_bars uso_day) (fst row) (snd row)
                                  /\ In (fst row) (t0 :: l))
                 (ffill (map (fun t => (t, close_at (rth_bars uso_day) t))
                             (t0 :: l)))).
  { apply Forall_and.
    - apply (ffill_as_of (rth_bars uso_day) (t0 :: l) Hu' Hsorted).
      intros t Ht. rewrite <- E. apply union_In. right. exact Ht.
    - apply Forall_forall. intros row Hrow.
      exact (ffill_labels _ _ _ Hrow). }
  assert (Px : Forall (fun row => exists q, snd row = Fin q /\ 0 < q) xle_norm).
  { rewrite Exn. unfold div_by. rewrite Forall_map.
    eapply Forall_impl; [|exact Fx]. intros row [Has Hin]. cbn [snd].
    destruct (as_of_positive _ _ t0 _ Hpx' Hinx (Hge _ Hin) Has)
      as [q [-> Hq]].
    destruct (fdiv_positive q (snd rx) Hq Hx0) as [q' [Eq [Hq' _]]].
    exists q'. split; assumption. }
  assert (Pu : Forall (fun row => exists q, snd row = Fin q /\ 0 < q) uso_norm).
  { rewrite Eun. unfold div_by. rewrite Forall_map.
    eapply Forall_impl; [|exact Fu]. intros row [Has Hin]. cbn [snd].
    destruct (as_of_positive _ _ t0 _ Hpu' Hinu (Hge _ Hin) Has)
      as [q [-> Hq]].
    destruct (fdiv_positive q (snd ru) Hq Hu0) as [q' [Eq [Hq' _]]].
    exists q'. split; assumption. }
  assert (Pf : Forall (fun row => is_finite (snd row) = true) spread).
  { rewrite Es.
    apply (map2_Forall _ (fun row => exists q, snd row = Fin q /\ 0 < q)
                         (fun row => exists q, snd row = Fin q /\ 0 < q));
      [|exact Px|exact Pu].
    intros x y [q [-> _]] [q' [-> _]]. reflexivity. }
  split; [exact Px|]. split; [exact Pu|]. split; [exact Pf|].
  assert (En : forall v, (if isnan v then NaN else v) = v)
    by (intros [| | |]; reflexivity).
  assert (Hx1 : exists a xn', xle_norm = (t0, a) :: xn' /\ a ≈ Fin 1).
  { rewrite Exn. unfold ffill. cbn [map ffill_from div_by fst snd].
    eexists _, _. split; [reflexivity|].
    rewrite En, Ex0. rewrite fdiv_Fin by lra. apply feq_Fin. field. lra. }
  assert (Hu1 : exists b un', uso_norm = (t0, b) :: un' /\ b ≈ Fin 1).
  { rewrite Eun. unfold ffill. cbn [map ffill_from div_by fst snd].
    eexists _, _. split; [reflexivity|].
    rewrite En, Eu0. rewrite fdiv_Fin by lra. apply feq_Fin. field. lra. }
  split; [exact Hx1|]. split; [exact Hu1|].
  assert (Hs0 : exists v spread', spread = (t0, v) :: spread' /\ v ≈ Fin 0).
  { destruct Hx1 as [a [xn' [-> Ha]]]. destruct Hu1 as [b [un' [-> Hb]]].
    rewrite Es. cbn [map2 fst snd]. eexists _, _. split; [reflexivity|].
    rewrite Ha, Hb, fsub_Fin. apply feq_Fin. ring. }
  split; [exact Hs0|].
  destruct Hs0 as [v [spread' [Esp Hv]]].
  assert (Hfin : Forall (fun v => is_finite v = true) (values spread)).
  { unfold values. rewrite Forall_map. exact Pf. }
  unfold smax. rewrite (notna_finite _ Hfin). rewrite Esp in Hfin |- *.
  cbn [values map snd] in Hfin |- *.
  destruct (feq_Fin_inv _ _ Hv) as [a [-> Ha]].
  inversion Hfin as [|? ? _ Hrest]; subst.
  destruct (fold_fmax2_ge _ Hrest a) as [m [Hm Hle]].
  exists m. split; [exact Hm | lra].
Qed.

Lemma leak_spread_same_open_witness :
  NoDup (index event_xle) /\ NoDup (index event_oil)
  /\ positive_closes event_xle /\ positive_closes event_oil
  /\ exists spread xle_norm uso_norm,
      calculate_leak_spread event_xle event_oil
      = Ok (Some (spread, xle_norm, uso_norm))
      /\ Forall (fun row => is_finite (snd row) = true) spread
      /\ nonnegative (smax spread).
Proof.
  assert (Hx : NoDup (index event_xle))
    by (apply is_unique_NoDup; vm_compute; reflexivity).
  assert (Hu : NoDup (index event_oil))
    by (apply is_unique_NoDup; vm_compute; reflexivity).
  assert (Hpx : positive_closes event_xle).
  { unfold positive_closes. apply Forall_forall. intros r Hr.
    apply Qltb_lt.
    assert (Hb : forallb (fun r => Qltb 0 (snd r)) event_xle = true)
      by (vm_compute; reflexivity).
    exact (proj1 (forallb_forall _ _) Hb r Hr). }
  assert (Hpu : positive_closes event_oil).
  { unfold positive_closes. apply Forall_forall. intros r Hr.
    apply Qltb_lt.
    assert (Hb : forallb (fun r => Qltb 0 (snd r)) event_oil = true)
      by (vm_compute; reflexivity).
    exact (proj1 (forallb_forall _ _) Hb r Hr). }
  split; [exact Hx|]. split; [exact Hu|].
  split; [exact Hpx|]. split; [exact Hpu|].
  eexists _, _, _. split; [vm_compute; reflexivity|].
  refine ((fun H => conj (proj1 (proj2 (proj2 H)))
                         (proj2 (proj2 (proj2 (proj2 (proj2 (proj2 H)))))))
            (leak_spread_same_open event_xle event_oil _ _ _
               (20455 * 1440 + 570)%Z Hx Hu Hpx Hpu _ _ _ _ _)).
  - vm_compute. reflexivity.
  - vm_compute. left. reflexivity.
  - vm_compute. left. reflexivity.
  - intros t Ht. vm_compute in Ht.
    destruct Ht as [<-|[<-|[<-|[]]]]; vm_compute; discriminate.
  - intros t Ht. vm_compute in Ht.
    destruct Ht as [<-|[<-|[<-|[]]]]; vm_compute; discriminate.
Defined.

Lemma ffill_from_fins (s : frame) (last : fnum) :
  ffill_from last (fins s) = fins s.
Proof.
  revert last. induction s as [|r s IH]; intro last; [reflexivity|].
  cbn [fins map ffill_from fst snd isnan]. f_equal. apply IH.
Qed.

Lemma div_by_fins (s : frame) (k : Q) : div_by (fins s) (Fin k) = div_scalar s k.
Proof.
  unfold div_by, fins, div_scalar. rewrite map_map. reflexivity.
Qed.

Lemma rth_bars_id (s : frame) :
  Forall (fun t => in_rth t = true) (index s) -> rth_bars s = s.
Proof.
  intro H. unfold rth_bars, between_time. apply forallb_filter_id.
  apply forallb_forall. intros r Hr.
  exact (proj1 (Forall_forall _ _) H (fst r) (in_map fst _ _ Hr)).
Qed.

(** On a day where the two aligned baseline frames have their bars under
    the same strictly increasing timestamps, all within trading hours, the
    spread of [calculate_leak_spread] on the day's bars is the very
    series that the placebo loop of spread_control.py computes for that
    day. *)
Theorem leak_spread_agrees_with_placebo (xle_base oil_base : frame) (d : Z)
        (spread : series) :
  StronglySorted Z.lt (index (bars_on d xle_base)) ->
  index (bars_on d oil_base) = index (bars_on d xle_base) ->
  Forall (fun t => in_rth t = true) (index (bars_on d xle_base)) ->
  day_spread xle_base oil_base d = Ok (Some spread) ->
  exists xle_norm uso_norm,
    calculate_leak_spread (bars_on d xle_base) (bars_on d oil_base)
    = Ok (Some (spread, xle_norm, uso_norm)).
Proof.
  intros Hs Hidx Hrth H.
  assert (Hnd := strict_sorted_NoDup _ Hs).
  unfold day_spread in H.
  fold (bars_on d xle_base) (bars_on d oil_base) in H. cbv zeta in H.
  unfold calculate_leak_spread.
  fold (rth_bars (bars_on d xle_base)) (rth_bars (bars_on d oil_base)).
  rewrite (rth_bars_id (bars_on d xle_base)) by exact Hrth.
  rewrite (rth_bars_id (bars_on d oil_base)) by (rewrite Hidx; exact Hrth).
  cbv zeta. rewrite Hidx in *.
  rewrite (union_self _ Hs).
  rewrite (intersection_self _ Hnd) in H.
  assert (Lx : loc (bars_on d xle_base) (index (bars_on d xle_base))
               = bars_on d xle_base) by (apply loc_self; exact Hnd).
  assert (Lo : loc (bars_on d oil_base) (index (bars_on d xle_base))
               = bars_on d oil_base).
  { rewrite <- Hidx. apply loc_self. rewrite Hidx. exact Hnd. }
  rewrite Lx, Lo in H.
  assert (Rx : reindex (bars_on d xle_base) (index (bars_on d xle_base))
               = Ok (fins (bars_on d xle_base))).
  { rewrite (reindex_unique _ _ Hnd). rewrite close_at_self by exact Hnd.
    reflexivity. }
  assert (Ro : reindex (bars_on d oil_base) (index (bars_on d xle_base))
               = Ok (fins (bars_on d oil_base))).
  { rewrite <- Hidx.
    rewrite reindex_unique by (rewrite Hidx; exact Hnd).
    rewrite close_at_self by (rewrite Hidx; exact Hnd). reflexivity. }
  rewrite Rx, Ro. cbn [bind]. unfold ffill. rewrite !ffill_from_fins.
  destruct (bars_on d xle_base) as [|rx X]; [discriminate|].
  destruct (bars_on d oil_base) as [|ro O]; [discriminate|].
  destruct (Nat.ltb (length (index (rx :: X))) 30); [discriminate|].
  cbn [iloc_first bind] in H.
  cbn [fins map iloc_first bind fst snd].
  change ((fst rx, Fin (snd rx)) :: map (fun r => (fst r, Fin (snd r))) X)
    with (fins (rx :: X)).
  change ((fst ro, Fin (snd ro)) :: map (fun r => (fst r, Fin (snd r))) O)
    with (fins (ro :: O)).
  rewrite !div_by_fins.
  injection H as <-. eexists _, _. reflexivity.
Qed.

Lemma leak_spread_agrees_with_placebo_witness :
  exists spread xle_norm uso_norm,
    day_spread sample_xle_5m sample_oil_5m 20440 = Ok (Some spread)
    /\ calculate_leak_spread (bars_on 20440 sample_xle_5m)
                             (bars_on 20440 sample_oil_5m)
       = Ok (Some (spread, xle_norm, uso_norm)).
Proof.
  assert (Hs : StronglySorted Z.lt (index (bars_on 20440 sample_xle_5m))).
  { apply sorted_nodup_strict.
    - assert (E : Stats.sort (index (bars_on 20440 sample_xle_5m))
                  = index (bars_on 20440 sample_xle_5m))
        by (vm_compute; reflexivity).
      rewrite <- E. apply sort_sorted.
    - apply is_unique_NoDup. vm_compute. reflexivity. }
  assert (Hidx : index (bars_on 20440 sample_oil_5m)
                 = index (bars_on 20440 sample_xle_5m))
    by (vm_compute; reflexivity).
  assert (Hrth : Forall (fun t => in_rth t = true)
                        (index (bars_on 20440 sample_xle_5m))).
  { apply Forall_forall. apply forallb_forall. vm_compute. reflexivity. }
  destruct (day_spread sample_xle_5m sample_oil_5m 20440)
    as [[spread|]|e] eqn:E; try (vm_compute in E; discriminate E).
  destruct (leak_spread_agrees_with_placebo sample_xle_5m sample_oil_5m 20440
              spread Hs Hidx Hrth E) as [xn [un H]].
  exists spread, xn, un. split; [reflexivity | exact H].
Defined.

(** ** forensics.py: the hierarchy test and the volume test *)

Import ForensicReport.

Lemma not_below_zero_sum (vs : list beta_result) :
  Forall (fun r => fltb (event_return r) (Fin 0) = false) vs ->
  forall acc, fltb acc (Fin 0) = false ->
    fltb (fold_left (fun a r => (a + event_return r)%F) vs acc) (Fin 0) = false.
Proof.
  induction 1 as [|r vs Hr Hvs IH]; intros acc Hacc; [exact Hacc|].
  cbn [fold_left]. apply IH.
  destruct acc as [a| | |], (event_return r) as [b| | |];
    cbn [fadd fltb] in *; try reflexivity; try discriminate.
  apply Qltb_ge in Hacc. apply Qltb_ge in Hr. apply Qltb_ge.
  rewrite Qred_correct. lra.
Qed.

Lemma not_below_zero_avg (x : fnum) (n : nat) :
  (0 < n)%nat -> fltb x (Fin 0) = false -> fltb (x / of_nat n)%F (Fin 0) = false.
Proof.
  intros Hn Hx. unfold of_nat. fold (Qnat n).
  assert (Hq := Qnat_pos n Hn).
  assert (Ez : Qzerob (Qnat n) = false) by (apply Qzerob_false; lra).
  destruct x as [a| | |]; cbn [fdiv fltb] in *; try reflexivity;
    try discriminate.
  - rewrite Ez. cbn [fltb]. apply Qltb_ge in Hx. apply Qltb_ge.
    rewrite Qred_correct.
    unfold Qdiv. apply Qmult_le_0_compat; [exact Hx|].
    apply Qlt_le_weak. apply Qinv_lt_0_compat. exact Hq.
  - assert (En : Qnegb (Qnat n) = false).
    { unfold Qnegb. apply Qltb_ge. lra. }
    rewrite En. reflexivity.
Qed.

Lemma valid_results_In (shipping : list (option beta_result)) (r : beta_result) :
  In r (flat_map (fun res => match res with Some r => [r] | None => [] end)
                 shipping)
  <-> In (Some r) shipping.
Proof.
  rewrite in_flat_map. split.
  - intros [[x|] [Hin Hx]]; [|contradiction].
    destruct Hx as [<-|[]]. exact Hin.
  - intro H. exists (Some r). split; [exact H | left; reflexivity].
Qed.

Lemma valid_results_nil (shipping : list (option beta_result)) :
  flat_map (fun res => match res with Some r => [r] | None => [] end) shipping
  = []
  <-> Forall (fun res => res = None) shipping.
Proof.
  induction shipping as [|[r|] l IH]; cbn [flat_map app].
  - split; [constructor | reflexivity].
  - split; [discriminate|]. intro H. inversion H; discriminate.
  - rewrite IH. split; [constructor; [reflexivity | assumption]|].
    intro H. inversion H; assumption.
Qed.

(** The hierarchy test prints no verdict exactly when the analysis gave
    no result for ITA or for every shipping ticker.  It confirms the
    pattern only if ITA's event return is above 2% and at least one
    shipping ticker with a result has a negative event return. *)
Theorem hierarchy_test_verdict (ita_res : option beta_result)
        (shipping : list (option beta_result)) :
  (hierarchy_test ita_res shipping = None
   <-> ita_res = None \/ Forall (fun res => res = None) shipping)
  /\ (hierarchy_test ita_res shipping = Some true ->
      (exists ita, ita_res = Some ita
                   /\ fgtb (event_return ita) (Fin (2 # 100)) = true)
      /\ exists r, In (Some r) shipping
                   /\ fltb (event_return r) (Fin 0) = true).
Proof.
  unfold hierarchy_test. cbv zeta.
  set (valid := flat_map (fun res => match res with
                                     | Some r => [r]
                                     | None => []
                                     end) shipping).
  split.
  - split.
    + destruct ita_res as [ita|]; [|left; reflexivity].
      destruct (Nat.ltb 0 (length valid)) eqn:E; [discriminate|].
      intros _. right. apply valid_results_nil. fold valid.
      apply Nat.ltb_ge in E. destruct valid; [reflexivity | simpl in E; lia].
    + intros [->|H]; [reflexivity|].
      apply valid_results_nil in H. fold valid in H. rewrite H.
      destruct ita_res; reflexivity.
  - destruct ita_res as [ita|]; [|discriminate].
    destruct (Nat.ltb 0 (length valid)) eqn:E; [|discriminate].
    apply Nat.ltb_lt in E.
    intro H. injection H as H. apply andb_true_iff in H.
    destruct H as [Hita Havg].
    split; [exists ita; split; [reflexivity | exact Hita]|].
    destruct (existsb (fun r => fltb (event_return r) (Fin 0)) valid) eqn:Ex.
    + apply existsb_exists in Ex. destruct Ex as [r [Hr Hneg]].
      exists r. split; [|exact Hneg]. apply valid_results_In. exact Hr.
    + exfalso.
      assert (Hall : Forall (fun r => fltb (event_return r) (Fin 0) = false)
                            valid).
      { apply Forall_forall. intros r Hr.
        destruct (fltb (event_return r) (Fin 0)) eqn:En; [|reflexivity].
        assert (Hex : existsb (fun r => fltb (event_return r) (Fin 0)) valid
                      = true)
          by (apply existsb_exists; exists r; split; assumption).
        congruence. }
      assert (H0 : fltb (Fin 0) (Fin 0) = false) by reflexivity.
      assert (Hs := not_below_zero_sum valid Hall (Fin 0) H0).
      assert (Ha := not_below_zero_avg _ _ E Hs).
      congruence.
Qed.

Lemma mean_fins_nonneg (s : frame) :
  s <> [] -> Forall (fun r => 0 <= snd r) s ->
  exists m, mean (fins s) = Fin m /\ 0 <= m.
Proof.
  intros Hne Hpos. unfold mean.
  assert (Ev : values (fins s) = map Fin (values s)).
  { unfold values, fins. rewrite !map_map. reflexivity. }
  rewrite Ev.
  assert (En : notna (map Fin (values s)) = map Fin (values s)).
  { apply notna_finite. rewrite Forall_map. apply Forall_forall.
    intros; reflexivity. }
  rewrite En.
  assert (Hv : values s <> []) by (destruct s; [congruence | discriminate]).
  assert (Hm := vreps_np_mean _ _ (vreps_fins (values s)) Hv).
  destruct (feq_Fin_inv _ _ Hm) as [m [Em Hmq]].
  exists m. split; [exact Em|]. rewrite Hmq.
  assert (Hs : 0 <= Qsum (values s)).
  { apply Qsum_nonneg. unfold values. rewrite Forall_map. exact Hpos. }
  assert (Hn : 0 < Qnat (length (values s))).
  { apply Qnat_pos. destruct (values s); [congruence | simpl; lia]. }
  unfold Qdiv. apply Qmult_le_0_compat; [exact Hs|].
  apply Qlt_le_weak. apply Qinv_lt_0_compat. exact Hn.
Qed.

Lemma std_Fin_is_sqrt (sqrtQ : Q -> Q) (s : series) (v : Q) :
  std sqrtQ s = Fin v -> exists q, v = sqrtQ q.
Proof.
  unfold std. cbv zeta.
  destruct (Nat.ltb (length (notna (values s))) 2); [discriminate|].
  match goal with |- fsqrt _ ?x = _ -> _ => destruct x as [q| | |] end;
    cbn [fsqrt]; try discriminate.
  destruct (Qnegb q); [discriminate|].
  intro H. injection H as <-. exists q. reflexivity.
Qed.

Lemma std_single (sqrtQ : Q -> Q) (r : timestamp * Q) :
  std sqrtQ (fins [r]) = NaN.
Proof. reflexivity. Qed.

(** When the spread gave no result the event volume of the volume test
    is the default 0: with volumes that are not negative the test then
    never finds the volume abnormal, whatever the baseline.  With a
    single 15:55 bar in the baseline the z-score is NaN and the verdict
    is "consistent", whatever the event volume. *)
Theorem volume_test_edges (sqrtQ : Q -> Q) (df_base : frame) :
  (forall q, 0 <= sqrtQ q) ->
  Forall (fun r => 0 <= snd r) df_base ->
  (forall z, volume_test sqrtQ (Fin 0) (Some df_base) <> VolumeAbnormal z)
  /\ (length (between_time moc_minute moc_minute df_base) = 1%nat ->
      forall v, volume_test sqrtQ v (Some df_base) = VolumeConsistent NaN).
Proof.
  intros Hsqrt Hpos. unfold volume_test. cbv zeta.
  assert (Hpos' : Forall (fun r => 0 <= snd r)
                         (between_time moc_minute moc_minute df_base)).
  { apply Forall_forall. intros r Hr. apply filter_In in Hr.
    exact (proj1 (Forall_forall _ _) Hpos r (proj1 Hr)). }
  destruct (between_time moc_minute moc_minute df_base) as [|r0 moc] eqn:Em.
  { split; [intros z; discriminate | discriminate]. }
  split.
  - intro z.
    destruct (mean_fins_nonneg (r0 :: moc)) as [m [Emean Hm]];
      [discriminate | exact Hpos' |].
    rewrite Emean.
    destruct (std sqrtQ (fins (r0 :: moc))) as [s| | |] eqn:Es;
      cbn [feq_ieee].
    + destruct (Qeq_bool s 0) eqn:E0; [discriminate|].
      assert (Hs0 : ~ s == 0).
      { intro H. apply Qeq_bool_iff in H. congruence. }
      destruct (std_Fin_is_sqrt _ _ _ Es) as [q Hq].
      assert (Hs : 0 < s).
      { assert (H := Hsqrt q). rewrite <- Hq in H.
        destruct (Qlt_le_dec 0 s) as [Hlt|Hle]; [exact Hlt|].
        exfalso. apply Hs0. lra. }
      assert (Hz : ((Fin 0 - Fin m) / Fin s)%F ≈ Fin ((0 - m) / s)).
      { rewrite fsub_Fin. apply fdiv_Fin. exact Hs0. }
      destruct (feq_Fin_inv _ _ Hz) as [z' [Ez Hz']].
      rewrite Ez. unfold fgtb. cbn [fltb].
      assert (Hle : Qltb 3 z' = false).
      { apply Qltb_ge. rewrite Hz'.
        assert (H : (0 - m) / s <= 0).
        { unfold Qdiv.
          setoid_replace ((0 - m) * / s) with (- (m * / s)) by ring.
          assert (0 <= m * / s).
          { apply Qmult_le_0_compat; [exact Hm|].
            apply Qlt_le_weak. apply Qinv_lt_0_compat. exact Hs. }
          lra. }
        lra. }
      rewrite Hle. discriminate.
    + destruct (Fin 0 - Fin m)%F; cbn [fdiv fgtb fltb]; discriminate.
    + destruct (Fin 0 - Fin m)%F; cbn [fdiv fgtb fltb]; discriminate.
    + rewrite fdiv_NaN_r. cbn [fgtb fltb]. discriminate.
  - intros Hlen v. destruct moc; [|simpl in Hlen; lia].
    rewrite std_single. cbn [feq_ieee]. rewrite fdiv_NaN_r. reflexivity.
Qed.

Lemma sqrt_approx_nonneg (q : Q) : 0 <= sqrt_approx q.
Proof.
  unfold sqrt_approx. cbv zeta. rewrite Qred_correct.
  unfold Qle. cbn [Qnum Qden]. rewrite Z.mul_1_r, Z.mul_0_l.
  apply Z.sqrt_nonneg.
Qed.

Lemma volume_test_edges_witness :
  Forall (fun r => 0 <= snd r) sample_volumes
  /\ (forall z, volume_test sqrt_approx (Fin 0) (Some sample_volumes)
                <> VolumeAbnormal z)
  /\ volume_test sqrt_approx (Fin (1000 # 1)) (Some (firstn 2 sample_volumes))
     = VolumeConsistent NaN.
Proof.
  assert (Hpos : Forall (fun r => 0 <= snd r) sample_volumes).
  { apply Forall_forall. intros r Hr.
    assert (Hb : forallb (fun r => Qle_bool 0 (snd r)) sample_volumes = true)
      by (vm_compute; reflexivity).
    apply Qle_bool_iff. exact (proj1 (forallb_forall _ _) Hb r Hr). }
  assert (Hpos2 : Forall (fun r => 0 <= snd r) (firstn 2 sample_volumes)).
  { apply Forall_forall. intros r Hr. apply firstn_In in Hr.
    exact (proj1 (Forall_forall _ _) Hpos r Hr). }
  split; [exact Hpos|]. split.
  - exact (proj1 (volume_test_edges sqrt_approx sample_volumes
                    sqrt_approx_nonneg Hpos)).
  - apply (proj2 (volume_test_edges sqrt_approx (firstn 2 sample_volumes)
                    sqrt_approx_nonneg Hpos2)).
    vm_compute. reflexivity.
Defined.
